(** * aws-todo-export-lambda: the CSV encoder and the export coordinator

    A shallow embedding of the two handler variants of the repository
    (the public-URL handler and the pre-signed-URL handler) and of the
    parts of the JavaScript runtime they call, followed by the properties
    of the encoder [convertToCSV] and of the coordinator [exportTodoItems].

    Conventions.
    - A JavaScript string is the list of its UTF-16 code units.
    - A record (a [TodoItem]) is the list of its own enumerable properties
      in the order [Object.keys] enumerates them; reading a property that
      is not its own falls through to [Object.prototype], as it does for
      the plain objects the DynamoDB utility builds.
    - A Number is carried by its canonical text (what [String(n)] returns);
      the program performs no arithmetic on record values.
    - The AWS clients, [unmarshall] and the clock are parameters
      ([Runtime.Services]); a run records the requests it sends.
    - The scan loop takes an iteration budget; a run that exhausts it
      stands for a scan that has not come to an end.
    - Console output and the Lambda entry point are not part of the model.

    Layout: the runtime and the two handlers, the notions used to state
    the properties, then the lemmas and the claims of the specification. *)

From Stdlib Require Import List NArith ZArith Bool Ascii String Lia.
From Stdlib Require Import Permutation Sorted.
Set Warnings "-register-all".
Import ListNotations.
Open Scope list_scope.

(** ** JavaScript strings and the built-ins the handlers call *)

Module JS.

Definition jsstring : Type := list N.

(** An ASCII literal as a JavaScript string. *)
Definition lit (s : string) : jsstring :=
  map N_of_ascii (list_ascii_of_string s).

Definition QUOTE : N := 34.      (* the double-quote character *)
Definition COMMA : N := 44.
Definition LF : N := 10.
Definition BACKSLASH : N := 92.

Fixpoint string_eqb (x y : jsstring) : bool :=
  match x, y with
  | [], [] => true
  | a :: x', b :: y' => N.eqb a b && string_eqb x' y'
  | _, _ => false
  end.

(** [x < y] on strings: code unit by code unit, a proper prefix first. *)
Fixpoint string_ltb (x y : jsstring) : bool :=
  match x, y with
  | _, [] => false
  | [], _ :: _ => true
  | a :: x', b :: y' =>
      if N.ltb a b then true
      else if N.ltb b a then false
      else string_ltb x' y'
  end.

Definition string_lt (x y : jsstring) : Prop := string_ltb x y = true.
Definition string_le (x y : jsstring) : Prop := string_ltb y x = false.

(** The comparison [Array.prototype.sort] uses when it is given no
    comparator (SortCompare on strings). *)
Definition SortCompare (x y : jsstring) : Z :=
  if string_ltb x y then (-1)%Z
  else if string_ltb y x then 1%Z
  else 0%Z.

Fixpoint sort_insert (x : jsstring) (l : list jsstring) : list jsstring :=
  match l with
  | [] => [x]
  | y :: l' =>
      if (0 <? SortCompare y x)%Z then x :: y :: l'
      else y :: sort_insert x l'
  end.

(** [arr.sort()]: a stable sort by [SortCompare]. *)
Definition Array_sort (l : list jsstring) : list jsstring :=
  fold_left (fun acc x => sort_insert x acc) l [].

(** [arr.join(sep)] on an array of strings. *)
Fixpoint join (sep : jsstring) (l : list jsstring) : jsstring :=
  match l with
  | [] => []
  | [x] => x
  | x :: l' => x ++ sep ++ join sep l'
  end.

(** A [Set<string>]: its elements in insertion order. *)
Definition StringSet : Type := list jsstring.
Definition Set_new : StringSet := [].
Definition Set_has (s : StringSet) (k : jsstring) : bool :=
  existsb (string_eqb k) s.
Definition Set_add (s : StringSet) (k : jsstring) : StringSet :=
  if Set_has s k then s else s ++ [k].
Definition Array_from (s : StringSet) : list jsstring := s.

(** [s.replace] with the global pattern matching one double-quote
    character and the replacement made of two. *)
Definition replace_quotes (s : jsstring) : jsstring :=
  flat_map (fun c => if N.eqb c QUOTE then [QUOTE; QUOTE] else [c]) s.

(** [s.replace(/[:.]/g, '-')] *)
Definition replace_colon_dot (s : jsstring) : jsstring :=
  map (fun c => if N.eqb c 58 || N.eqb c 46 then 45%N else c) s.

(** *** Values *)

(** The data a record can hold, short of a BigInt; the module [Big]
    below adds BigInt and has the encoder throw where [JSON.stringify]
    does.  [DNumber] carries the canonical text of the number; [DObject]
    lists own enumerable properties in enumeration order. *)
Inductive jsdata : Type :=
| DUndefined
| DNull
| DBoolean (b : bool)
| DNumber (text : jsstring)
| DString (s : jsstring)
| DArray (elems : list jsdata)
| DObject (props : list (jsstring * jsdata)).

(** What a property read can return: data, or a built-in function found
    on the prototype ([src] is the text [String(f)] yields, as V8 prints
    it). *)
Inductive jsval : Type :=
| Data (d : jsdata)
| Builtin (src : jsstring).

Definition typeof (v : jsval) : jsstring :=
  match v with
  | Data DUndefined => lit "undefined"
  | Data DNull => lit "object"
  | Data (DBoolean _) => lit "boolean"
  | Data (DNumber _) => lit "number"
  | Data (DString _) => lit "string"
  | Data (DArray _) => lit "object"
  | Data (DObject _) => lit "object"
  | Builtin _ => lit "function"
  end.

Fixpoint assoc {A : Type} (k : jsstring) (l : list (jsstring * A)) : option A :=
  match l with
  | [] => None
  | (k', v) :: l' => if string_eqb k k' then Some v else assoc k l'
  end.

Definition native (name : string) : jsval :=
  Builtin (lit "function " ++ lit name ++ lit "() { [native code] }").

(** The properties every plain object inherits from [Object.prototype].
    The [__proto__] accessor yields the prototype itself, an object
    without enumerable properties. *)
Definition Object_prototype : list (jsstring * jsval) :=
  [ (lit "constructor", native "Object");
    (lit "__defineGetter__", native "__defineGetter__");
    (lit "__defineSetter__", native "__defineSetter__");
    (lit "hasOwnProperty", native "hasOwnProperty");
    (lit "__lookupGetter__", native "__lookupGetter__");
    (lit "__lookupSetter__", native "__lookupSetter__");
    (lit "isPrototypeOf", native "isPrototypeOf");
    (lit "propertyIsEnumerable", native "propertyIsEnumerable");
    (lit "toString", native "toString");
    (lit "valueOf", native "valueOf");
    (lit "__proto__", Data (DObject []));
    (lit "toLocaleString", native "toLocaleString") ].

Definition inherited (P : jsstring) : bool :=
  match assoc P Object_prototype with Some _ => true | None => false end.

(** [Object.keys(o)] *)
Definition Object_keys (o : list (jsstring * jsdata)) : list jsstring :=
  map fst o.

(** [o[P]]: the own property, else the inherited one, else [undefined]. *)
Definition Get (o : list (jsstring * jsdata)) (P : jsstring) : jsval :=
  match assoc P o with
  | Some d => Data d
  | None =>
      match assoc P Object_prototype with
      | Some v => v
      | None => Data DUndefined
      end
  end.

(** [String(v)] *)
Fixpoint ToString_data (d : jsdata) : jsstring :=
  match d with
  | DUndefined => lit "undefined"
  | DNull => lit "null"
  | DBoolean b => if b then lit "true" else lit "false"
  | DNumber text => text
  | DString s => s
  | DArray elems =>
      join [COMMA]
        ((fix each (l : list jsdata) : list jsstring :=
            match l with
            | [] => []
            | DUndefined :: l' => [] :: each l'
            | DNull :: l' => [] :: each l'
            | e :: l' => ToString_data e :: each l'
            end) elems)
  | DObject _ => lit "[object Object]"
  end.

Definition String (v : jsval) : jsstring :=
  match v with
  | Data d => ToString_data d
  | Builtin src => src
  end.

(** *** JSON.stringify *)

Definition hex_digit (n : N) : N :=
  if N.ltb n 10 then (48 + n)%N else (87 + n)%N.

(** [\uXXXX], four lower-case hexadecimal digits. *)
Definition UnicodeEscape (c : N) : jsstring :=
  [BACKSLASH; 117%N;
   hex_digit (N.modulo (N.div c 4096) 16);
   hex_digit (N.modulo (N.div c 256) 16);
   hex_digit (N.modulo (N.div c 16) 16);
   hex_digit (N.modulo c 16)].

Definition is_leading_surrogate (c : N) : bool :=
  N.leb 55296 c && N.leb c 56319.
Definition is_trailing_surrogate (c : N) : bool :=
  N.leb 56320 c && N.leb c 57343.

Definition json_escape_unit (c : N) : jsstring :=
  if N.eqb c 8 then [BACKSLASH; 98%N]
  else if N.eqb c 9 then [BACKSLASH; 116%N]
  else if N.eqb c 10 then [BACKSLASH; 110%N]
  else if N.eqb c 12 then [BACKSLASH; 102%N]
  else if N.eqb c 13 then [BACKSLASH; 114%N]
  else if N.eqb c QUOTE then [BACKSLASH; QUOTE]
  else if N.eqb c BACKSLASH then [BACKSLASH; BACKSLASH]
  else if N.ltb c 32 || is_leading_surrogate c || is_trailing_surrogate c
       then UnicodeEscape c
  else [c].

Fixpoint json_escape (s : jsstring) : jsstring :=
  match s with
  | [] => []
  | c :: s' =>
      if is_leading_surrogate c then
        match s' with
        | d :: s'' =>
            if is_trailing_surrogate d then c :: d :: json_escape s''
            else UnicodeEscape c ++ json_escape s'
        | [] => UnicodeEscape c
        end
      else json_escape_unit c ++ json_escape s'
  end.

Definition QuoteJSONString (s : jsstring) : jsstring :=
  [QUOTE] ++ json_escape s ++ [QUOTE].

Definition number_is_finite (text : jsstring) : bool :=
  negb (string_eqb text (lit "NaN")
        || string_eqb text (lit "Infinity")
        || string_eqb text (lit "-Infinity")).

(** SerializeJSONProperty without indentation; [None] is [undefined]. *)
Fixpoint SerializeJSONProperty (d : jsdata) : option jsstring :=
  match d with
  | DUndefined => None
  | DNull => Some (lit "null")
  | DBoolean b => Some (if b then lit "true" else lit "false")
  | DNumber text => Some (if number_is_finite text then text else lit "null")
  | DString s => Some (QuoteJSONString s)
  | DArray elems =>
      Some ([91%N] ++
            join [COMMA]
              ((fix each (l : list jsdata) : list jsstring :=
                  match l with
                  | [] => []
                  | e :: l' =>
                      match SerializeJSONProperty e with
                      | Some s => s
                      | None => lit "null"
                      end :: each l'
                  end) elems)
            ++ [93%N])
  | DObject props =>
      Some ([123%N] ++
            join [COMMA]
              ((fix each (l : list (jsstring * jsdata)) : list jsstring :=
                  match l with
                  | [] => []
                  | (k, e) :: l' =>
                      match SerializeJSONProperty e with
                      | Some s => (QuoteJSONString k ++ [58%N] ++ s) :: each l'
                      | None => each l'
                      end
                  end) props)
            ++ [125%N])
  end.

(** [JSON.stringify(v)]; a function has no JSON text. *)
Definition JSON_stringify (v : jsval) : option jsstring :=
  match v with
  | Data d => SerializeJSONProperty d
  | Builtin _ => None
  end.

(** [JSON.stringify(o, null, 2)] for an object [o] all of whose
    properties hold strings. *)
Definition JSON_stringify_2 (props : list (jsstring * jsstring)) : jsstring :=
  match props with
  | [] => lit "{}"
  | _ =>
      [123%N; LF] ++ lit "  " ++
      join ([COMMA; LF] ++ lit "  ")
        (map (fun kv => QuoteJSONString (fst kv) ++ [58%N; 32%N]
                        ++ QuoteJSONString (snd kv)) props)
      ++ [LF; 125%N]
  end.

(** *** Date.prototype.toISOString

    A Date is its time value, the milliseconds since the epoch. *)

(** The last [width] decimal digits of [n], zero padded. *)
Fixpoint digits (width : nat) (n : Z) : jsstring :=
  match width with
  | O => []
  | S w => digits w (n / 10) ++ [Z.to_N (48 + n mod 10)]
  end.

(** Year, month and day of month of a day number counted from the epoch
    (proleptic Gregorian calendar). *)
Definition civil_from_days (day : Z) : Z * Z * Z :=
  let z := (day + 719468)%Z in
  let era := (z / 146097)%Z in
  let doe := (z - era * 146097)%Z in
  let yoe := ((doe - doe / 1460 + doe / 36524 - doe / 146096) / 365)%Z in
  let doy := (doe - (365 * yoe + yoe / 4 - yoe / 100))%Z in
  let mp := ((5 * doy + 2) / 153)%Z in
  let d := (doy - (153 * mp + 2) / 5 + 1)%Z in
  let m := (if mp <? 10 then mp + 3 else mp - 9)%Z in
  ((if m <=? 2 then yoe + era * 400 + 1 else yoe + era * 400)%Z, m, d).

Definition toISOString (t : Z) : jsstring :=
  let day := (t / 86400000)%Z in
  let ms := (t mod 86400000)%Z in
  let '(y, m, d) := civil_from_days day in
  let year :=
    if ((0 <=? y) && (y <=? 9999))%Z then digits 4 y
    else (if (y <? 0)%Z then lit "-" else lit "+") ++ digits 6 (Z.abs y) in
  year ++ lit "-" ++ digits 2 m ++ lit "-" ++ digits 2 d ++ lit "T"
  ++ digits 2 (ms / 3600000) ++ lit ":"
  ++ digits 2 ((ms / 60000) mod 60) ++ lit ":"
  ++ digits 2 ((ms / 1000) mod 60) ++ lit "."
  ++ digits 3 (ms mod 1000) ++ lit "Z".

End JS.
(** ** types.ts *)

Module Types.
Import JS.

(** [TodoItem]: an index signature from field names to values. *)
Definition TodoItem : Type := list (jsstring * jsdata).

Record ExportResult : Type := {
  success : bool;
  fileName : option jsstring;
  s3Key : option jsstring;
  downloadUrl : option jsstring;
  error : option jsstring
}.

Record EnvironmentVariables : Type := {
  DYNAMODB_TABLE_NAME : jsstring;
  S3_BUCKET_NAME : jsstring;
  SNS_TOPIC_ARN : jsstring
}.

End Types.

(** ** The services the handlers talk to, and the effect monad *)

Module Runtime.
Import JS Types.

(** What a [catch] clause can receive: an [Error] instance with its
    message, or any other value. *)
Inductive thrown : Type :=
| ErrorObject (message : jsstring)
| NonError.

Inductive completion (A : Type) : Type :=
| Normal (a : A)
| Throw (e : thrown).
Arguments Normal {A} a.
Arguments Throw {A} e.

Record ScanCommandInput (K : Type) : Type := {
  TableName : jsstring;
  ExclusiveStartKey : option K
}.
Arguments TableName {K} _.
Arguments ExclusiveStartKey {K} _.

Record ScanCommandOutput (K : Type) : Type := {
  Items : option (list K);
  LastEvaluatedKey : option K
}.
Arguments Items {K} _.
Arguments LastEvaluatedKey {K} _.

Record PutObjectCommandInput : Type := {
  Bucket : jsstring;
  Key : jsstring;
  Body : jsstring;
  ContentType : jsstring;
  ContentDisposition : jsstring
}.

Record GetObjectCommandInput : Type := {
  GetBucket : jsstring;
  GetKey : jsstring
}.

Record PublishCommandInput : Type := {
  TopicArn : jsstring;
  Subject : jsstring;
  Message : jsstring
}.

(** The AWS clients, the DynamoDB utility and the clock.  Each call reads
    and advances the state of the outside world. *)
Class Services : Type := {
  World : Type;
  AttributeMap : Type;
  unmarshall : AttributeMap -> completion TodoItem;
  dynamoClient_send :
    ScanCommandInput AttributeMap -> World ->
    completion (ScanCommandOutput AttributeMap) * World;
  s3Client_send : PutObjectCommandInput -> World -> completion unit * World;
  getSignedUrl :
    GetObjectCommandInput -> Z -> World -> completion jsstring * World;
  snsClient_send : PublishCommandInput -> World -> completion unit * World;
  clock : World -> Z * World
}.

Section Monad.
Context {SV : Services}.

(** The requests a run has sent, oldest first. *)
Inductive event : Type :=
| EvScan (input : ScanCommandInput AttributeMap)
| EvPut (input : PutObjectCommandInput)
| EvSign (input : GetObjectCommandInput) (expiresIn : Z)
| EvPublish (input : PublishCommandInput).

Record state : Type := { world : World; trace : list event }.

Inductive outcome (A : Type) : Type :=
| Returned (a : A)
| Raised (e : thrown)
| OutOfFuel.

Definition M (A : Type) : Type := state -> outcome A * state.

Definition ret {A : Type} (a : A) : M A := fun st => (Returned A a, st).

Definition raise {A : Type} (e : thrown) : M A := fun st => (Raised A e, st).

(** A loop that has used up its iteration budget. *)
Definition out_of_fuel {A : Type} : M A := fun st => (OutOfFuel A, st).

Definition bind {A B : Type} (m : M A) (k : A -> M B) : M B :=
  fun st =>
    match m st with
    | (Returned _ a, st') => k a st'
    | (Raised _ e, st') => (Raised B e, st')
    | (OutOfFuel _, st') => (OutOfFuel B, st')
    end.

(** [try { body } catch (error) { handler }] *)
Definition try_catch {A : Type} (body : M A) (handler : thrown -> M A) : M A :=
  fun st =>
    match body st with
    | (Raised _ e, st') => handler e st'
    | r => r
    end.

Definition lift {A : Type} (c : completion A) : M A :=
  match c with
  | Normal a => ret a
  | Throw e => raise e
  end.

Definition call {A : Type} (ev : event)
    (f : World -> completion A * World) : M A :=
  fun st =>
    let (c, w) := f (world st) in
    lift c {| world := w; trace := trace st ++ [ev] |}.

(** [new Date()] and [Date.now()] *)
Definition Date_now : M Z :=
  fun st =>
    let (t, w) := clock (world st) in
    (Returned Z t, {| world := w; trace := trace st |}).

(** [xs.map(unmarshall)]: the first exception ends the traversal. *)
Fixpoint map_unmarshall (xs : list AttributeMap) : completion (list TodoItem) :=
  match xs with
  | [] => Normal []
  | x :: xs' =>
      match unmarshall x with
      | Throw e => Throw e
      | Normal item =>
          match map_unmarshall xs' with
          | Throw e => Throw e
          | Normal items => Normal (item :: items)
          end
      end
  end.

End Monad.

Arguments Returned {A} a.
Arguments Raised {A} e.
Arguments OutOfFuel {A}.

(** *** What a computation sends *)

Section Traces.
Context {SV : Services}.

(** [st'] is [st] after some more requests, all of them satisfying [P]. *)
Definition extends (P : event -> Prop) (st st' : state) : Prop :=
  exists evs, trace st' = trace st ++ evs /\ Forall P evs.

(** Whatever the state, the computation adds only requests satisfying [P]. *)
Definition sends_only (P : event -> Prop) {A : Type} (m : M A) : Prop :=
  forall st, extends P st (snd (m st)).

(** The computation comes to an end without any iteration budget. *)
Definition fuel_free {A : Type} (m : M A) : Prop :=
  forall st, fst (m st) <> OutOfFuel.

Definition is_scan (ev : event) : Prop :=
  match ev with EvScan _ => True | _ => False end.

Definition not_publish (ev : event) : Prop :=
  match ev with EvPublish _ => False | _ => True end.

End Traces.

Declare Scope js_scope.
Delimit Scope js_scope with js.
Notation "x <- m ;; k" := (bind m (fun x => k))
  (at level 61, m at next level, right associativity) : js_scope.
Notation "m ;;; k" := (bind m (fun _ => k))
  (at level 61, right associativity) : js_scope.

(** *** Invocation events and responses of the Lambda entry points *)

(** What the entry points read of an SQS record (its [body] is named
    [messageBody] here). *)
Record SQSRecord : Type := { messageId : jsstring; messageBody : jsstring }.

Record SQSEvent : Type := { Records : list SQSRecord }.

(** An event of any shape, as far as the entry point looks at it:
    [AnyRecords rs] when the event is truthy and its [Records] property is
    an array, holding the records [rs]; [AnyOther] in every other case. *)
Inductive AnyEvent : Type :=
| AnyOther
| AnyRecords (records : list SQSRecord).

Record HandlerResponse : Type := { statusCode : Z; body : jsstring }.

(** [!s] for a string [s]. *)
Definition not_string (s : JS.jsstring) : bool :=
  match s with
  | [] => true
  | _ :: _ => false
  end.

(** An optional string property of an object literal. *)
Definition optional (v : option JS.jsstring) : JS.jsdata :=
  match v with
  | Some s => JS.DString s
  | None => JS.DUndefined
  end.

(** [JSON.stringify] of an object literal: always a string. *)
Definition stringify_object (props : list (JS.jsstring * JS.jsdata))
    : JS.jsstring :=
  match JS.SerializeJSONProperty (JS.DObject props) with
  | Some s => s
  | None => []
  end.

End Runtime.
(** ** The public-URL handler *)

Module PublicUrl.
Import JS Types Runtime.
Local Open Scope js_scope.

(** The [headers] array computed at the start of [convertToCSV]. *)
Definition headers (items : list TodoItem) : list jsstring :=
  let allKeys :=
    fold_left
      (fun allKeys item => fold_left Set_add (Object_keys item) allKeys)
      items Set_new in
  Array_sort (Array_from allKeys).

(** The callback mapped over [headers] for one data row.  The [None]
    branch stands for [JSON.stringify] returning [undefined], which it
    never does on a non-null value whose [typeof] is object. *)
Definition cell (item : TodoItem) (header : jsstring) : jsstring :=
  let value := Get item header in
  match value with
  | Data DNull => [QUOTE; QUOTE]
  | Data DUndefined => [QUOTE; QUOTE]
  | _ =>
      let stringValue :=
        if string_eqb (typeof value) (lit "object")
        then match JSON_stringify value with Some s => s | None => [] end
        else String value in
      [QUOTE] ++ replace_quotes stringValue ++ [QUOTE]
  end.

Definition convertToCSV (items : list TodoItem) : jsstring :=
  if Nat.eqb (List.length items) 0 then lit "No data available" ++ [LF]
  else
    let headers := headers items in
    let csvRows : list jsstring := [] in
    let csvRows :=
      csvRows ++
      [join [COMMA] (map (fun header => [QUOTE] ++ header ++ [QUOTE]) headers)] in
    let csvRows :=
      fold_left
        (fun csvRows item =>
           let row := map (cell item) headers in
           csvRows ++ [join [COMMA] row])
        items csvRows in
    join [LF] csvRows ++ [LF].

Section Handler.
Context {SV : Services}.
Variable env : EnvironmentVariables.

(** The do-while loop of [scanTodoItems]; [fuel] bounds its iterations. *)
Fixpoint scan_loop (fuel : nat) (items : list TodoItem)
    (lastEvaluatedKey : option AttributeMap) : M (list TodoItem) :=
  match fuel with
  | O => out_of_fuel
  | S fuel' =>
      let command :=
        {| TableName := DYNAMODB_TABLE_NAME env;
           ExclusiveStartKey := lastEvaluatedKey |} in
      response <- call (EvScan command) (dynamoClient_send command) ;;
      items <- match Items response with
               | Some page =>
                   unmarshalled <- lift (map_unmarshall page) ;;
                   ret (items ++ unmarshalled)
               | None => ret items
               end ;;
      match LastEvaluatedKey response with
      | Some key => scan_loop fuel' items (Some key)
      | None => ret items
      end
  end.

Definition scanTodoItems (fuel : nat) : M (list TodoItem) :=
  scan_loop fuel [] None.

Definition uploadToS3 (csvContent : jsstring) : M (jsstring * jsstring) :=
  now <- Date_now ;;
  let timestamp := replace_colon_dot (toISOString now) in
  let key := lit "todo-export-" ++ timestamp ++ lit ".csv" in
  let command :=
    {| Bucket := S3_BUCKET_NAME env;
       Key := key;
       Body := csvContent;
       ContentType := lit "text/csv";
       ContentDisposition :=
         lit "attachment; filename=" ++ [QUOTE] ++ key ++ [QUOTE] |} in
  call (EvPut command) (s3Client_send command) ;;;
  let downloadUrl :=
    lit "https://" ++ S3_BUCKET_NAME env ++ lit ".s3.amazonaws.com/" ++ key in
  ret (key, downloadUrl).

Definition sendNotification (fileName downloadUrl : jsstring) : M unit :=
  now <- Date_now ;;
  let message :=
    [ (lit "subject", lit "Todo Export Complete");
      (lit "message",
       lit "Your todo export has been completed successfully." ++ [LF]
       ++ lit "    " ++ [LF]
       ++ lit "File: " ++ fileName ++ [LF]
       ++ lit "Download URL: " ++ downloadUrl ++ [LF; LF]
       ++ lit "The export contains all items from your todo list in CSV format.");
      (lit "downloadUrl", downloadUrl);
      (lit "fileName", fileName);
      (lit "timestamp", toISOString now) ] in
  let command :=
    {| TopicArn := SNS_TOPIC_ARN env;
       Subject := lit "Todo Export Complete";
       Message := JSON_stringify_2 message |} in
  call (EvPublish command) (snsClient_send command).

Definition exportTodoItems (fuel : nat) : M ExportResult :=
  try_catch
    (todoItems <- scanTodoItems fuel ;;
     if Nat.eqb (List.length todoItems) 0 then
       ret {| success := true;
              fileName := Some (lit "empty-export.csv");
              s3Key := None;
              downloadUrl := None;
              error := Some (lit "No items found in the table") |}
     else
       let csvContent := convertToCSV todoItems in
       upload <- uploadToS3 csvContent ;;
       let key := fst upload in
       let downloadUrl := snd upload in
       sendNotification key downloadUrl ;;;
       ret {| success := true;
              fileName := Some key;
              s3Key := Some key;
              downloadUrl := Some downloadUrl;
              error := None |})
    (fun error =>
       ret {| success := false;
              fileName := None;
              s3Key := None;
              downloadUrl := None;
              error :=
                Some match error with
                     | ErrorObject message => message
                     | NonError => lit "Unknown error occurred"
                     end |}).

(** The loop of [handler] over the records of the event. *)
Fixpoint process_records (fuel : nat) (records : list SQSRecord) : M unit :=
  match records with
  | [] => ret tt
  | record :: rest =>
      try_catch
        (result <- exportTodoItems fuel ;;
         if success result then ret tt else ret tt)
        (fun error => raise error) ;;;
      process_records fuel rest
  end.

Definition handler (fuel : nat) (event : SQSEvent) : M unit :=
  if not_string (S3_BUCKET_NAME env) then
    raise (ErrorObject (lit "S3_BUCKET_NAME environment variable is required"))
  else if not_string (SNS_TOPIC_ARN env) then
    raise (ErrorObject (lit "SNS_TOPIC_ARN environment variable is required"))
  else
    process_records fuel (Records event).

End Handler.

End PublicUrl.

(** ** The pre-signed-URL handler *)

Module Presigned.
Import JS Types Runtime.
Local Open Scope js_scope.

(** The [headers] array computed at the start of [convertToCSV]. *)
Definition headers (items : list TodoItem) : list jsstring :=
  let allKeys :=
    fold_left
      (fun allKeys item => fold_left Set_add (Object_keys item) allKeys)
      items Set_new in
  Array_sort (Array_from allKeys).

(** The callback mapped over [headers] for one data row.  The [None]
    branch stands for [JSON.stringify] returning [undefined], which it
    never does on a non-null value whose [typeof] is object. *)
Definition cell (item : TodoItem) (header : jsstring) : jsstring :=
  let value := Get item header in
  match value with
  | Data DNull => [QUOTE; QUOTE]
  | Data DUndefined => [QUOTE; QUOTE]
  | _ =>
      let stringValue :=
        if string_eqb (typeof value) (lit "object")
        then match JSON_stringify value with Some s => s | None => [] end
        else String value in
      [QUOTE] ++ replace_quotes stringValue ++ [QUOTE]
  end.

Definition convertToCSV (items : list TodoItem) : jsstring :=
  if Nat.eqb (List.length items) 0 then lit "No data available" ++ [LF]
  else
    let headers := headers items in
    let csvRows : list jsstring := [] in
    let csvRows :=
      csvRows ++
      [join [COMMA] (map (fun header => [QUOTE] ++ header ++ [QUOTE]) headers)] in
    let csvRows :=
      fold_left
        (fun csvRows item =>
           let row := map (cell item) headers in
           csvRows ++ [join [COMMA] row])
        items csvRows in
    join [LF] csvRows ++ [LF].

Section Handler.
Context {SV : Services}.
Variable env : EnvironmentVariables.

(** The do-while loop of [scanTodoItems]; [fuel] bounds its iterations. *)
Fixpoint scan_loop (fuel : nat) (items : list TodoItem)
    (lastEvaluatedKey : option AttributeMap) : M (list TodoItem) :=
  match fuel with
  | O => out_of_fuel
  | S fuel' =>
      let command :=
        {| TableName := DYNAMODB_TABLE_NAME env;
           ExclusiveStartKey := lastEvaluatedKey |} in
      response <- call (EvScan command) (dynamoClient_send command) ;;
      items <- match Items response with
               | Some page =>
                   unmarshalled <- lift (map_unmarshall page) ;;
                   ret (items ++ unmarshalled)
               | None => ret items
               end ;;
      match LastEvaluatedKey response with
      | Some key => scan_loop fuel' items (Some key)
      | None => ret items
      end
  end.

Definition scanTodoItems (fuel : nat) : M (list TodoItem) :=
  scan_loop fuel [] None.

Definition uploadToS3 (csvContent : jsstring) : M jsstring :=
  now <- Date_now ;;
  let timestamp := replace_colon_dot (toISOString now) in
  let key := lit "todo-export-" ++ timestamp ++ lit ".csv" in
  let command :=
    {| Bucket := S3_BUCKET_NAME env;
       Key := key;
       Body := csvContent;
       ContentType := lit "text/csv";
       ContentDisposition :=
         lit "attachment; filename=" ++ [QUOTE] ++ key ++ [QUOTE] |} in
  call (EvPut command) (s3Client_send command) ;;;
  ret key.

Definition generatePresignedUrl (key : jsstring) : M jsstring :=
  let command := {| GetBucket := S3_BUCKET_NAME env; GetKey := key |} in
  presignedUrl <- call (EvSign command 300) (getSignedUrl command 300) ;;
  ret presignedUrl.

Definition sendNotification (fileName presignedUrl : jsstring) : M unit :=
  t <- Date_now ;;
  let expirationTime := (t + 5 * 60 * 1000)%Z in
  now <- Date_now ;;
  let message :=
    [ (lit "subject", lit "Todo Export Complete");
      (lit "message",
       lit "Your todo export has been completed successfully." ++ [LF; LF]
       ++ lit "File: " ++ fileName ++ [LF]
       ++ lit "Download URL: " ++ presignedUrl ++ [LF; LF]
       ++ [9888%N; 65039%N]
       ++ lit "  IMPORTANT: This download link expires at "
       ++ toISOString expirationTime
       ++ lit " (5 minutes from generation)." ++ [LF]
       ++ lit "Please download the file promptly." ++ [LF; LF]
       ++ lit "The export contains all items from your todo list in CSV format.");
      (lit "downloadUrl", presignedUrl);
      (lit "fileName", fileName);
      (lit "expiresAt", toISOString expirationTime);
      (lit "timestamp", toISOString now) ] in
  let command :=
    {| TopicArn := SNS_TOPIC_ARN env;
       Subject := lit "Todo Export Complete";
       Message := JSON_stringify_2 message |} in
  call (EvPublish command) (snsClient_send command).

Definition exportTodoItems (fuel : nat) : M ExportResult :=
  try_catch
    (todoItems <- scanTodoItems fuel ;;
     if Nat.eqb (List.length todoItems) 0 then
       ret {| success := true;
              fileName := Some (lit "empty-export.csv");
              s3Key := None;
              downloadUrl := None;
              error := Some (lit "No items found in the table") |}
     else
       let csvContent := convertToCSV todoItems in
       key <- uploadToS3 csvContent ;;
       presignedUrl <- generatePresignedUrl key ;;
       sendNotification key presignedUrl ;;;
       ret {| success := true;
              fileName := Some key;
              s3Key := Some key;
              downloadUrl := Some presignedUrl;
              error := None |})
    (fun error =>
       ret {| success := false;
              fileName := None;
              s3Key := None;
              downloadUrl := None;
              error :=
                Some match error with
                     | ErrorObject message => message
                     | NonError => lit "Unknown error occurred"
                     end |}).

(** The loop of [handler] over the records of an SQS event. *)
Fixpoint process_records (fuel : nat) (records : list SQSRecord) : M unit :=
  match records with
  | [] => ret tt
  | record :: rest =>
      try_catch
        (result <- exportTodoItems fuel ;;
         if success result then ret tt else ret tt)
        (fun error => raise error) ;;;
      process_records fuel rest
  end.

Definition handler (fuel : nat) (event : AnyEvent) : M HandlerResponse :=
  if not_string (S3_BUCKET_NAME env) then
    raise (ErrorObject (lit "S3_BUCKET_NAME environment variable is required"))
  else if not_string (SNS_TOPIC_ARN env) then
    raise (ErrorObject (lit "SNS_TOPIC_ARN environment variable is required"))
  else
    let isSQSEvent :=
      match event with
      | AnyRecords (_ :: _) => true
      | _ => false
      end in
    if isSQSEvent then
      process_records fuel
        match event with AnyRecords records => records | AnyOther => [] end ;;;
      ret {| statusCode := 200;
             body :=
               stringify_object
                 [ (lit "message",
                    DString (lit "All SQS messages processed successfully")) ] |}
    else
      try_catch
        (result <- exportTodoItems fuel ;;
         if success result then
           ret {| statusCode := 200;
                  body :=
                    stringify_object
                      [ (lit "message",
                         DString (lit "Export completed successfully"));
                        (lit "fileName", optional (fileName result));
                        (lit "downloadUrl", optional (downloadUrl result)) ] |}
         else
           ret {| statusCode := 500;
                  body :=
                    stringify_object
                      [ (lit "message", DString (lit "Export failed"));
                        (lit "error", optional (error result)) ] |})
        (fun error =>
           ret {| statusCode := 500;
                  body :=
                    stringify_object
                      [ (lit "message",
                         DString (lit "Export failed with exception"));
                        (lit "error",
                         DString match error with
                                 | ErrorObject message => message
                                 | NonError => lit "Unknown error occurred"
                                 end) ] |}).

End Handler.

End Presigned.

(** ** Notions used to state the properties *)

Module Spec.
Import JS Types Runtime.

(** Code points of a string: a leading surrogate followed by a trailing
    one is a single supplementary code point, any other code unit stands
    for itself. *)
Fixpoint StringToCodePoints (s : jsstring) : list N :=
  match s with
  | [] => []
  | c :: s' =>
      if is_leading_surrogate c then
        match s' with
        | d :: s'' =>
            if is_trailing_surrogate d
            then (65536 + (c - 55296) * 1024 + (d - 56320))%N
                 :: StringToCodePoints s''
            else c :: StringToCodePoints s'
        | [] => [c]
        end
      else c :: StringToCodePoints s'
  end.

(** Lexicographic order by code point. *)
Definition codepoint_ltb (x y : jsstring) : bool :=
  string_ltb (StringToCodePoints x) (StringToCodePoints y).

Definition codepoint_lt (x y : jsstring) : Prop := codepoint_ltb x y = true.

Definition is_surrogate (c : N) : bool :=
  is_leading_surrogate c || is_trailing_surrogate c.

(** A decoder for documents of quoted, comma-separated cells with doubled
    quotes, one row per line, every line ended by a newline. *)
Inductive mode : Type := RowStart | CellStart | InCell | AfterQuote.

Fixpoint decode_from (m : mode) (cell : jsstring) (row : list jsstring)
    (rows : list (list jsstring)) (s : jsstring)
    : option (list (list jsstring)) :=
  match s with
  | [] => match m with RowStart => Some rows | _ => None end
  | c :: s' =>
      match m with
      | RowStart =>
          if N.eqb c QUOTE then decode_from InCell [] row rows s'
          else if N.eqb c LF then decode_from RowStart [] [] (rows ++ [[]]) s'
          else None
      | CellStart =>
          if N.eqb c QUOTE then decode_from InCell [] row rows s' else None
      | InCell =>
          if N.eqb c QUOTE then decode_from AfterQuote cell row rows s'
          else decode_from InCell (cell ++ [c]) row rows s'
      | AfterQuote =>
          if N.eqb c QUOTE then decode_from InCell (cell ++ [QUOTE]) row rows s'
          else if N.eqb c COMMA
               then decode_from CellStart [] (row ++ [cell]) rows s'
          else if N.eqb c LF
               then decode_from RowStart [] [] (rows ++ [row ++ [cell]]) s'
          else None
      end
  end.

Definition decode (doc : jsstring) : option (list (list jsstring)) :=
  decode_from RowStart [] [] [] doc.

(** The text a data cell stands for: empty for a null or undefined value,
    the JSON text of an object or array, the string conversion of anything
    else. *)
Definition cell_text (item : TodoItem) (header : jsstring) : jsstring :=
  match Get item header with
  | Data DNull => []
  | Data DUndefined => []
  | value =>
      if string_eqb (typeof value) (lit "object")
      then match JSON_stringify value with Some s => s | None => [] end
      else String value
  end.

Definition is_composite (d : jsdata) : bool :=
  match d with
  | DArray _ => true
  | DObject _ => true
  | _ => false
  end.

Definition is_scalar (d : jsdata) : bool :=
  match d with
  | DBoolean _ => true
  | DNumber _ => true
  | DString _ => true
  | _ => false
  end.

(** No surrogate code unit occurs in the field name. *)
Definition surrogate_free (h : jsstring) : Prop :=
  forallb (fun c => negb (is_surrogate c)) h = true.

(** A row of cell contents, each wrapped in quotes after doubling its
    quotes, and a document of such rows. *)
Definition quote_cell (content : jsstring) : jsstring :=
  [QUOTE] ++ replace_quotes content ++ [QUOTE].

Definition encode_row (cells : list jsstring) : jsstring :=
  join [COMMA] (map quote_cell cells).

Definition encode_rows (rows : list (list jsstring)) : jsstring :=
  join [LF] (map encode_row rows) ++ [LF].

Definition wrap_quotes (content : jsstring) : jsstring :=
  [QUOTE] ++ content ++ [QUOTE].

(** The key for a run whose clock reads [t]: the prefix, the ISO-8601
    text of [t] with colons and full stops replaced by hyphens, the
    suffix. *)
Definition artifact_key (t : Z) : jsstring :=
  lit "todo-export-" ++ replace_colon_dot (toISOString t) ++ lit ".csv".

Definition COLON : N := 58.
Definition FULL_STOP : N := 46.
Definition HYPHEN : N := 45.

(** A storage request carries a key of that form. *)
Definition put_has_artifact_key {SV : Services} (ev : event) : Prop :=
  match ev with
  | EvPut input => exists t, Key input = artifact_key t
  | _ => True
  end.

(** The outcome the coordinator builds when the scan finds nothing. *)
Definition empty_export_outcome : ExportResult :=
  {| success := true;
     fileName := Some (lit "empty-export.csv");
     s3Key := None;
     downloadUrl := None;
     error := Some (lit "No items found in the table") |}.

(** The outcome the specification names for an empty table. *)
Definition claimed_empty_outcome : ExportResult :=
  {| success := true;
     fileName := Some (lit "empty-export");
     s3Key := None;
     downloadUrl := None;
     error := Some (lit "No items found") |}.

(** The coordinators with the encoder as a parameter; at [convertToCSV]
    they are [exportTodoItems] (lemmas [export_with_encoder] below). *)
Definition export_with {SV : Services} (env : EnvironmentVariables)
    (encode : list TodoItem -> jsstring) (fuel : nat) : M ExportResult :=
  try_catch
    (bind (PublicUrl.scanTodoItems env fuel) (fun todoItems =>
       if Nat.eqb (List.length todoItems) 0 then ret empty_export_outcome
       else
         bind (PublicUrl.uploadToS3 env (encode todoItems)) (fun upload =>
         bind (PublicUrl.sendNotification env (fst upload) (snd upload))
           (fun _ =>
         ret {| success := true;
                fileName := Some (fst upload);
                s3Key := Some (fst upload);
                downloadUrl := Some (snd upload);
                error := None |}))))
    (fun error =>
       ret {| success := false;
              fileName := None;
              s3Key := None;
              downloadUrl := None;
              error :=
                Some match error with
                     | ErrorObject message => message
                     | NonError => lit "Unknown error occurred"
                     end |}).

Definition export_presigned_with {SV : Services} (env : EnvironmentVariables)
    (encode : list TodoItem -> jsstring) (fuel : nat) : M ExportResult :=
  try_catch
    (bind (Presigned.scanTodoItems env fuel) (fun todoItems =>
       if Nat.eqb (List.length todoItems) 0 then ret empty_export_outcome
       else
         bind (Presigned.uploadToS3 env (encode todoItems)) (fun key =>
         bind (Presigned.generatePresignedUrl env key) (fun presignedUrl =>
         bind (Presigned.sendNotification env key presignedUrl) (fun _ =>
         ret {| success := true;
                fileName := Some key;
                s3Key := Some key;
                downloadUrl := Some presignedUrl;
                error := None |})))))
    (fun error =>
       ret {| success := false;
              fileName := None;
              s3Key := None;
              downloadUrl := None;
              error :=
                Some match error with
                     | ErrorObject message => message
                     | NonError => lit "Unknown error occurred"
                     end |}).

(** The message the [catch] clause reports for a thrown value. *)
Definition fault_message (e : thrown) : jsstring :=
  match e with
  | ErrorObject message => message
  | NonError => lit "Unknown error occurred"
  end.

Definition failure_outcome (e : thrown) : ExportResult :=
  {| success := false;
     fileName := None;
     s3Key := None;
     downloadUrl := None;
     error := Some (fault_message e) |}.

End Spec.

(** ** In-memory services, for running the handlers on concrete inputs *)

Module Fake.
Import JS Types Runtime.

Record backend : Type := {
  pages : list (list TodoItem);
  time : Z;
  s3_fault : option thrown;
  sign_fault : option thrown;
  sns_fault : option thrown
}.

Definition fake_scan (input : ScanCommandInput TodoItem) (w : backend)
    : completion (ScanCommandOutput TodoItem) * backend :=
  match pages w with
  | [] => (Normal {| Items := None; LastEvaluatedKey := None |}, w)
  | page :: rest =>
      (Normal {| Items := Some page;
                 LastEvaluatedKey :=
                   match rest with [] => None | _ => Some [] end |},
       {| pages := rest; time := time w; s3_fault := s3_fault w;
          sign_fault := sign_fault w; sns_fault := sns_fault w |})
  end.

Definition fake_fault (f : option thrown) : completion unit :=
  match f with Some e => Throw e | None => Normal tt end.

#[export] Instance services : Services := {|
  World := backend;
  AttributeMap := TodoItem;
  unmarshall := fun item => Normal item;
  dynamoClient_send := fake_scan;
  s3Client_send := fun _ w => (fake_fault (s3_fault w), w);
  getSignedUrl := fun input _ w =>
    (match sign_fault w with
     | Some e => Throw e
     | None => Normal (lit "https://signed.example/" ++ GetKey input)
     end, w);
  snsClient_send := fun _ w => (fake_fault (sns_fault w), w);
  clock := fun w =>
    (time w,
     {| pages := pages w; time := time w + 1; s3_fault := s3_fault w;
        sign_fault := sign_fault w; sns_fault := sns_fault w |})
|}.

Definition env : EnvironmentVariables :=
  {| DYNAMODB_TABLE_NAME := lit "TodoItems-dev";
     S3_BUCKET_NAME := lit "exports";
     SNS_TOPIC_ARN := lit "arn:aws:sns:us-east-1:123456789012:todo" |}.

Definition start (table : list (list TodoItem)) (s3 sns : option thrown)
    : state :=
  {| world := {| pages := table; time := 1705314600123; s3_fault := s3;
                 sign_fault := None; sns_fault := sns |};
     trace := [] |}.

End Fake.

(** ** Record lists and faults used as examples *)

Module Examples.
Import JS Types Runtime.

Definition items_example : list TodoItem :=
  [ [ (lit "id", DString (lit "1")); (lit "status", DString (lit "pending")) ];
    [ (lit "id", DString (lit "2")); (lit "priority", DString (lit "high")) ] ].


(** Two field names: U+FF5E, and U+1F600 written as its surrogate pair. *)
Definition key_fullwidth_tilde : jsstring := [65374%N].
Definition key_grinning_face : jsstring := [55357%N; 56832%N].

Definition items_two_planes : list TodoItem :=
  [ [ (key_fullwidth_tilde, DNumber (lit "1"));
      (key_grinning_face, DNumber (lit "2")) ] ].

(** The text [s] between double quotes. *)
Definition quoted (s : string) : jsstring := [QUOTE] ++ lit s ++ [QUOTE].

(** Two records; the second has no field named constructor. *)
Definition items_inherited_name : list TodoItem :=
  [ [ (lit "constructor", DString (lit "x")) ];
    [ (lit "id", DString (lit "1")) ] ].

(** The value: he said, then hi between double quotes. *)
Definition he_said_hi : jsstring :=
  lit "he said " ++ [QUOTE] ++ lit "hi" ++ [QUOTE].


(** One record whose only field is named a, quote, comma, quote, b. *)
Definition key_with_quotes : jsstring :=
  lit "a" ++ [QUOTE; COMMA; QUOTE] ++ lit "b".

Definition items_quoted_name : list TodoItem :=
  [ [ (key_with_quotes, DString (lit "1")) ] ].

Definition items_empty_note : list TodoItem :=
  [ [ (lit "id", DString (lit "1")); (lit "note", DString []) ];
    [ (lit "id", DString (lit "2")); (lit "note", DString (lit "x")) ] ].

Definition items_no_note : list TodoItem :=
  [ [ (lit "id", DString (lit "1")) ];
    [ (lit "id", DString (lit "2")); (lit "note", DString (lit "x")) ] ].

Definition access_denied : thrown := ErrorObject (lit "Access Denied").

(** Two record lists that differ in their first record only: it holds the
    empty string under the name constructor in the first list and has no
    field of that name in the second. *)
Definition items_empty_constructor : list TodoItem :=
  [ [ (lit "id", DString (lit "1")); (lit "constructor", DString []) ];
    [ (lit "id", DString (lit "2")); (lit "constructor", DString (lit "x")) ] ].

Definition items_no_constructor : list TodoItem :=
  [ [ (lit "id", DString (lit "1")) ];
    [ (lit "id", DString (lit "2")); (lit "constructor", DString (lit "x")) ] ].

End Examples.

(** ** The module-level configuration *)

Module Config.
Import JS Types.

(** The three variables the handlers read from [process.env]; [None] is
    an unset variable. *)
Record ProcessEnv : Type := {
  env_DYNAMODB_TABLE_NAME : option jsstring;
  env_S3_BUCKET_NAME : option jsstring;
  env_SNS_TOPIC_ARN : option jsstring
}.

(** [v || d] for an environment variable [v]. *)
Definition or_default (v : option jsstring) (d : jsstring) : jsstring :=
  match v with
  | Some (c :: s) => c :: s
  | _ => d
  end.

(** The constant [env] of both handler files. *)
Definition env (p : ProcessEnv) : EnvironmentVariables :=
  {| DYNAMODB_TABLE_NAME :=
       or_default (env_DYNAMODB_TABLE_NAME p) (lit "TodoItems-dev");
     S3_BUCKET_NAME := or_default (env_S3_BUCKET_NAME p) [];
     SNS_TOPIC_ARN := or_default (env_SNS_TOPIC_ARN p) [] |}.

End Config.

(** ** A paginated table, and a table that cannot be reached *)

Module Store.
Import JS Types Runtime.

Section Pages.
Context {SV : Services}.
Variable tableName : jsstring.

(** The pages of one response, converted. *)
Definition page_of (response : ScanCommandOutput AttributeMap)
    : completion (list TodoItem) :=
  match Items response with
  | Some page => map_unmarshall page
  | None => Normal []
  end.

(** [answers w key pages w']: from the state [w], the table answers the
    scan resumed at [key] with the first of [pages] and a continuation
    key, the scan resumed at that key with the second, and so on; the
    answer carrying the last page has no continuation key, and leaves the
    outside world in the state [w']. *)
Inductive answers : World -> option AttributeMap -> list (list TodoItem) ->
                    World -> Prop :=
| answers_last (w w' : World) (key : option AttributeMap)
    (response : ScanCommandOutput AttributeMap) (page : list TodoItem) :
    dynamoClient_send
      {| TableName := tableName; ExclusiveStartKey := key |} w
    = (Normal response, w') ->
    page_of response = Normal page ->
    LastEvaluatedKey response = None ->
    answers w key [page] w'
| answers_more (w w1 w' : World) (key : option AttributeMap)
    (response : ScanCommandOutput AttributeMap) (next : AttributeMap)
    (page : list TodoItem) (pages : list (list TodoItem)) :
    dynamoClient_send
      {| TableName := tableName; ExclusiveStartKey := key |} w
    = (Normal response, w1) ->
    page_of response = Normal page ->
    LastEvaluatedKey response = Some next ->
    answers w1 (Some next) pages w' ->
    answers w key (page :: pages) w'.

End Pages.

(** A table that answers every scan with the same fault. *)
Definition unreachable : thrown :=
  ErrorObject (lit "Requested resource not found").

Definition outage : Services := {|
  World := unit;
  AttributeMap := TodoItem;
  unmarshall := fun item => Normal item;
  dynamoClient_send := fun _ w => (Throw unreachable, w);
  s3Client_send := fun _ w => (Normal tt, w);
  getSignedUrl := fun _ _ w => (Normal [], w);
  snsClient_send := fun _ w => (Normal tt, w);
  clock := fun w => (0%Z, w)
|}.

End Store.

(** ** What the stages and the entry points are expected to do *)

Module Behaviour.
Import JS Types Runtime.

(** [item'] holds the properties of [item], listed in another order. *)
Definition same_properties (item item' : TodoItem) : Prop :=
  NoDup (Object_keys item) /\ Permutation item item'.

(** A scan request for the table [tableName]. *)
Definition scans_table {SV : Services} (tableName : jsstring) (ev : event)
    : Prop :=
  match ev with
  | EvScan input => TableName input = tableName
  | _ => False
  end.

(** The outcome of a run that went through. *)
Definition success_outcome (key url : jsstring) : ExportResult :=
  {| success := true;
     fileName := Some key;
     s3Key := Some key;
     downloadUrl := Some url;
     error := None |}.

(** A request as the coordinators are meant to send it: a scan of the
    configured table; a storage request for the configured bucket whose
    body is the document of a record list that is not empty, hence not the
    text that stands for no data; a signing request for the configured
    bucket with a lifetime of 300 seconds; a notification to the
    configured topic. *)
Definition request_as_configured {SV : Services} (env : EnvironmentVariables)
    (ev : event) : Prop :=
  match ev with
  | EvScan input => TableName input = DYNAMODB_TABLE_NAME env
  | EvPut input =>
      Bucket input = S3_BUCKET_NAME env /\
      ContentType input = lit "text/csv" /\
      (exists items,
          items <> [] /\ Body input = PublicUrl.convertToCSV items) /\
      Body input <> PublicUrl.convertToCSV []
  | EvSign input expiresIn =>
      GetBucket input = S3_BUCKET_NAME env /\ expiresIn = 300%Z
  | EvPublish input =>
      TopicArn input = SNS_TOPIC_ARN env /\
      Subject input = lit "Todo Export Complete"
  end.

(** The variable is unset or empty. *)
Definition unset_or_empty (v : option jsstring) : bool :=
  match v with
  | Some (_ :: _) => false
  | _ => true
  end.

Definition bucket_required : thrown :=
  ErrorObject (lit "S3_BUCKET_NAME environment variable is required").

Definition topic_required : thrown :=
  ErrorObject (lit "SNS_TOPIC_ARN environment variable is required").

(** A member of a JSON object: the quoted name, a colon, the quoted
    value. *)
Definition json_member (name : string) (value : jsstring) : jsstring :=
  QuoteJSONString (lit name) ++ [58%N] ++ QuoteJSONString value.

(** A member that is left out when the value is undefined. *)
Definition json_optional_member (name : string) (value : option jsstring)
    : list jsstring :=
  match value with
  | Some s => [json_member name s]
  | None => []
  end.

(** A JSON object: its members between braces, separated by commas. *)
Definition json_object (members : list jsstring) : jsstring :=
  [123%N] ++ join [COMMA] members ++ [125%N].

(** The response to a direct invocation, as the outcome of the export
    determines it. *)
Definition manual_response (result : ExportResult) : HandlerResponse :=
  if success result then
    {| statusCode := 200;
       body :=
         json_object
           (json_member "message" (lit "Export completed successfully")
            :: json_optional_member "fileName" (fileName result)
            ++ json_optional_member "downloadUrl" (downloadUrl result)) |}
  else
    {| statusCode := 500;
       body :=
         json_object
           (json_member "message" (lit "Export failed")
            :: json_optional_member "error" (error result)) |}.

Definition batch_response : HandlerResponse :=
  {| statusCode := 200;
     body :=
       json_object
         [json_member "message"
            (lit "All SQS messages processed successfully")] |}.

(** The text of the notification of the public-URL handler, for a file
    name and a download URL. *)
Definition notification_text (fileName downloadUrl : jsstring) : jsstring :=
  lit "Your todo export has been completed successfully." ++ [LF]
  ++ lit "    " ++ [LF]
  ++ lit "File: " ++ fileName ++ [LF]
  ++ lit "Download URL: " ++ downloadUrl ++ [LF; LF]
  ++ lit "The export contains all items from your todo list in CSV format.".

(** The text of the notification of the pre-signed-URL handler, for a
    file name, a pre-signed URL and the time the link is said to expire
    at. *)
Definition notification_text_presigned
    (fileName presignedUrl expiresAt : jsstring) : jsstring :=
  lit "Your todo export has been completed successfully." ++ [LF; LF]
  ++ lit "File: " ++ fileName ++ [LF]
  ++ lit "Download URL: " ++ presignedUrl ++ [LF; LF]
  ++ [9888%N; 65039%N]
  ++ lit "  IMPORTANT: This download link expires at "
  ++ expiresAt
  ++ lit " (5 minutes from generation)." ++ [LF]
  ++ lit "Please download the file promptly." ++ [LF; LF]
  ++ lit "The export contains all items from your todo list in CSV format.".

End Behaviour.

(** ** Further runs used as examples *)

Module Scenarios.
Import JS Types Runtime Examples.

Definition pages_example : list (list TodoItem) :=
  [ items_example; [ [ (lit "id", DString (lit "3")) ] ] ].

Definition outage_start : @state Store.outage :=
  @Build_state Store.outage tt [].

Definition signer_down : @state Fake.services :=
  @Build_state Fake.services
    {| Fake.pages := [items_example];
       Fake.time := 1705314600123;
       Fake.s3_fault := None;
       Fake.sign_fault := Some access_denied;
       Fake.sns_fault := None |}
    [].

Definition env_without_topic : Config.ProcessEnv :=
  {| Config.env_DYNAMODB_TABLE_NAME := None;
     Config.env_S3_BUCKET_NAME := Some (lit "exports");
     Config.env_SNS_TOPIC_ARN := Some [] |}.

Definition sqs_two : SQSEvent :=
  {| Records := [ {| messageId := lit "m1"; messageBody := lit "go" |};
                  {| messageId := lit "m2"; messageBody := lit "go" |} ] |}.

End Scenarios.

(** ** The calendar behind the artifact key *)

Module Calendar.
Import JS Types Runtime.

(** The first time value whose year has five digits: the start of the
    year 10000. *)
Definition END_OF_TIME : Z := 253402300800000.

(** Days before the March-based year [y], leap days included. *)
Definition G (y : Z) : Z := (365 * y + y / 4 - y / 100 + y / 400)%Z.

(** Days before the month [mp] of a March-based year. *)
Definition month_start (mp : Z) : Z := ((153 * mp + 2) / 5)%Z.

(** The order of dates given as year, month and day. *)
Definition date_lt (a b : Z * Z * Z) : Prop :=
  let '(y1, m1, d1) := a in
  let '(y2, m2, d2) := b in
  (y1 < y2 \/ (y1 = y2 /\ (m1 < m2 \/ (m1 = m2 /\ d1 < d2))))%Z.

(** The order of lists of numbers, first difference first. *)
Fixpoint lex_ltb (a b : list Z) : bool :=
  match a, b with
  | x :: a', y :: b' =>
      if (x <? y)%Z then true else if (y <? x)%Z then false else lex_ltb a' b'
  | _, _ => false
  end.

(** Fields of fixed width, each followed by a separator. *)
Definition render (fields : list (nat * Z * jsstring)) : jsstring :=
  flat_map (fun f => digits (fst (fst f)) (snd (fst f)) ++ snd f) fields.

(** The number of a field fits its width. *)
Definition in_width (f : nat * Z * jsstring) : Prop :=
  (0 <= snd (fst f) < 10 ^ Z.of_nat (fst (fst f)))%Z.

(** The fields of a time value, most significant first: year, month, day,
    hours, minutes, seconds, milliseconds. *)
Definition stamp (t : Z) : list Z :=
  let day := (t / 86400000)%Z in
  let ms := (t mod 86400000)%Z in
  let '(y, m, d) := civil_from_days day in
  [y; m; d; ms / 3600000; (ms / 60000) mod 60; (ms / 1000) mod 60;
   ms mod 1000]%Z.

(** The same fields with their widths and the separators that follow them
    in the artifact key. *)
Definition stamp_fields (t : Z) : list (nat * Z * jsstring) :=
  match stamp t with
  | [y; m; d; h; mi; s; ms] =>
      [ (4, y, lit "-"); (2, m, lit "-"); (2, d, lit "T");
        (2, h, lit "-"); (2, mi, lit "-"); (2, s, lit "-");
        (3, ms, lit "Z") ]
  | _ => []
  end.

(** [uploadToS3] of either handler, started in [st], stores under
    [key]. *)
Definition uploads {SV : Services} (env : EnvironmentVariables) (st : state)
    (key : jsstring) : Prop :=
  (exists csvContent url st',
      PublicUrl.uploadToS3 env csvContent st = (Returned (key, url), st')) \/
  (exists csvContent st',
      Presigned.uploadToS3 env csvContent st = (Returned key, st')).

End Calendar.

(** ** A reader of the JSON texts the handlers write *)

Module Reader.
Import JS.

(** The value of a hexadecimal digit. *)
Definition hex_value (c : N) : option N :=
  if N.leb 48 c && N.leb c 57 then Some (c - 48)%N
  else if N.leb 97 c && N.leb c 102 then Some (c - 87)%N
  else if N.leb 65 c && N.leb c 70 then Some (c - 55)%N
  else None.

(** The code unit a two-character escape stands for. *)
Definition simple_escape (c : N) : option N :=
  if N.eqb c QUOTE then Some QUOTE
  else if N.eqb c BACKSLASH then Some BACKSLASH
  else if N.eqb c 47 then Some 47%N
  else if N.eqb c 98 then Some 8%N
  else if N.eqb c 102 then Some 12%N
  else if N.eqb c 110 then Some 10%N
  else if N.eqb c 114 then Some 13%N
  else if N.eqb c 116 then Some 9%N
  else None.

(** Reads a JSON string from the code unit after its opening quote: the
    string it denotes, and the text after its closing quote. *)
Fixpoint read_string (text : jsstring) : option (jsstring * jsstring) :=
  match text with
  | [] => None
  | c :: text' =>
      if N.eqb c QUOTE then Some ([], text')
      else if N.eqb c BACKSLASH then
        match text' with
        | [] => None
        | e :: text'' =>
            if N.eqb e 117 then
              match text'' with
              | h1 :: h2 :: h3 :: h4 :: rest =>
                  match hex_value h1, hex_value h2, hex_value h3,
                        hex_value h4, read_string rest with
                  | Some a, Some b, Some c, Some d, Some (s, r) =>
                      Some ((4096 * a + 256 * b + 16 * c + d)%N :: s, r)
                  | _, _, _, _, _ => None
                  end
              | _ => None
              end
            else
              match simple_escape e, read_string text'' with
              | Some u, Some (s, r) => Some (u :: s, r)
              | _, _ => None
              end
        end
      else if N.ltb c 32 then None
      else
        match read_string text' with
        | Some (s, r) => Some (c :: s, r)
        | None => None
        end
  end.

Definition is_whitespace (c : N) : bool :=
  N.eqb c 32 || N.eqb c 9 || N.eqb c 10 || N.eqb c 13.

Fixpoint skip_whitespace (text : jsstring) : jsstring :=
  match text with
  | c :: text' => if is_whitespace c then skip_whitespace text' else text
  | [] => []
  end.

(** Reads a quoted string, white space before it skipped. *)
Definition read_quoted (text : jsstring) : option (jsstring * jsstring) :=
  match skip_whitespace text with
  | c :: text' => if N.eqb c QUOTE then read_string text' else None
  | [] => None
  end.

(** Reads the code unit [c], white space before it skipped. *)
Definition read_unit (c : N) (text : jsstring) : option jsstring :=
  match skip_whitespace text with
  | d :: text' => if N.eqb d c then Some text' else None
  | [] => None
  end.

(** Reads the members of an object whose values are strings, from the
    text after the opening brace or after a comma, to the end of the
    text. *)
Fixpoint read_members (fuel : nat) (text : jsstring)
    : option (list (jsstring * jsstring)) :=
  match fuel with
  | O => None
  | S fuel' =>
      match read_quoted text with
      | None => None
      | Some (name, text1) =>
          match read_unit 58 text1 with
          | None => None
          | Some text2 =>
              match read_quoted text2 with
              | None => None
              | Some (value, text3) =>
                  match read_unit COMMA text3 with
                  | Some text4 =>
                      match read_members fuel' text4 with
                      | Some members => Some ((name, value) :: members)
                      | None => None
                      end
                  | None =>
                      match read_unit 125 text3 with
                      | Some text4 =>
                          match skip_whitespace text4 with
                          | [] => Some [(name, value)]
                          | _ :: _ => None
                          end
                      | None => None
                      end
                  end
              end
          end
      end
  end.

(** Reads a JSON text that is an object whose values are strings. *)
Definition read_object (text : jsstring)
    : option (list (jsstring * jsstring)) :=
  match read_unit 123 text with
  | None => None
  | Some text1 =>
      match read_unit 125 text1 with
      | Some text2 =>
          match skip_whitespace text2 with
          | [] => Some []
          | _ :: _ => None
          end
      | None => read_members (List.length text1) text1
      end
  end.

(** The members of an object as [JSON.stringify] lays them out: [pre]
    before each member, [mid] after each colon, [post] before the closing
    brace. *)
Definition member_text (mid : jsstring) (kv : jsstring * jsstring)
    : jsstring :=
  QuoteJSONString (fst kv) ++ [58%N] ++ mid ++ QuoteJSONString (snd kv).

Definition object_text (pre mid post : jsstring)
    (props : list (jsstring * jsstring)) : jsstring :=
  [123%N] ++ pre ++ join ([COMMA] ++ pre) (map (member_text mid) props)
  ++ post ++ [125%N].

(** The member [name] of an object literal, left out when undefined. *)
Definition present (name : string) (value : option jsstring)
    : list (jsstring * jsstring) :=
  match value with
  | Some s => [(lit name, s)]
  | None => []
  end.

End Reader.
(** ** The encoder on values beyond the safe integers *)

Module Big.
Import JS Types Runtime.

(** What [unmarshall] can put in a record: the data of [jsdata] and, for
    a DynamoDB number outside the safe integers, a BigInt, carried by its
    decimal digits (with the sign, without the suffix n). *)
Inductive bigdata : Type :=
| BUndefined
| BNull
| BBoolean (b : bool)
| BNumber (text : jsstring)
| BBigInt (digits : jsstring)
| BString (s : jsstring)
| BArray (elems : list bigdata)
| BObject (props : list (jsstring * bigdata)).

(** A record as [unmarshall] returns it. *)
Definition BigItem : Type := list (jsstring * bigdata).

Inductive bigval : Type :=
| BData (d : bigdata)
| BBuiltin (src : jsstring).

(** The data of [jsdata] among these values. *)
Fixpoint of_data (d : jsdata) : bigdata :=
  match d with
  | DUndefined => BUndefined
  | DNull => BNull
  | DBoolean b => BBoolean b
  | DNumber text => BNumber text
  | DString s => BString s
  | DArray elems => BArray (map of_data elems)
  | DObject props => BObject (map (fun '(k, e) => (k, of_data e)) props)
  end.

Definition of_item (item : TodoItem) : BigItem :=
  map (fun '(k, e) => (k, of_data e)) item.

Definition of_val (v : jsval) : bigval :=
  match v with
  | Data d => BData (of_data d)
  | Builtin src => BBuiltin src
  end.

(** A BigInt occurs in the value. *)
Fixpoint holds_bigint (d : bigdata) : bool :=
  match d with
  | BBigInt _ => true
  | BArray elems => existsb holds_bigint elems
  | BObject props => existsb (fun '(_, e) => holds_bigint e) props
  | _ => false
  end.

Definition is_composite (d : bigdata) : bool :=
  match d with
  | BArray _ => true
  | BObject _ => true
  | _ => false
  end.

Definition typeof (v : bigval) : jsstring :=
  match v with
  | BData BUndefined => lit "undefined"
  | BData BNull => lit "object"
  | BData (BBoolean _) => lit "boolean"
  | BData (BNumber _) => lit "number"
  | BData (BBigInt _) => lit "bigint"
  | BData (BString _) => lit "string"
  | BData (BArray _) => lit "object"
  | BData (BObject _) => lit "object"
  | BBuiltin _ => lit "function"
  end.

(** [Object.keys(o)] *)
Definition Object_keys (o : BigItem) : list jsstring := map fst o.

(** [o[P]]: the own property, else the inherited one, else [undefined]. *)
Definition Get (o : BigItem) (P : jsstring) : bigval :=
  match assoc P o with
  | Some d => BData d
  | None =>
      match assoc P Object_prototype with
      | Some v => of_val v
      | None => BData BUndefined
      end
  end.

(** [String(v)]; a BigInt gives its digits. *)
Fixpoint ToString_data (d : bigdata) : jsstring :=
  match d with
  | BUndefined => lit "undefined"
  | BNull => lit "null"
  | BBoolean b => if b then lit "true" else lit "false"
  | BNumber text => text
  | BBigInt digits => digits
  | BString s => s
  | BArray elems =>
      join [COMMA]
        ((fix each (l : list bigdata) : list jsstring :=
            match l with
            | [] => []
            | BUndefined :: l' => [] :: each l'
            | BNull :: l' => [] :: each l'
            | e :: l' => ToString_data e :: each l'
            end) elems)
  | BObject _ => lit "[object Object]"
  end.

Definition String (v : bigval) : jsstring :=
  match v with
  | BData d => ToString_data d
  | BBuiltin src => src
  end.

(** The TypeError [JSON.stringify] throws when it meets a BigInt. *)
Definition cannot_serialize : thrown :=
  ErrorObject (lit "Do not know how to serialize a BigInt").

(** SerializeJSONProperty without indentation; [Normal None] is
    [undefined], [Throw] the TypeError for a BigInt. *)
Fixpoint SerializeJSONProperty (d : bigdata) : completion (option jsstring) :=
  match d with
  | BUndefined => Normal None
  | BNull => Normal (Some (lit "null"))
  | BBoolean b => Normal (Some (if b then lit "true" else lit "false"))
  | BNumber text =>
      Normal (Some (if number_is_finite text then text else lit "null"))
  | BBigInt _ => Throw cannot_serialize
  | BString s => Normal (Some (QuoteJSONString s))
  | BArray elems =>
      match
        (fix each (l : list bigdata) : completion (list jsstring) :=
           match l with
           | [] => Normal []
           | e :: l' =>
               match SerializeJSONProperty e with
               | Throw err => Throw err
               | Normal r =>
                   match each l' with
                   | Throw err => Throw err
                   | Normal partial =>
                       Normal (match r with
                               | Some s => s
                               | None => lit "null"
                               end :: partial)
                   end
               end
           end) elems
      with
      | Throw err => Throw err
      | Normal partial => Normal (Some ([91%N] ++ join [COMMA] partial ++ [93%N]))
      end
  | BObject props =>
      match
        (fix each (l : list (jsstring * bigdata))
           : completion (list jsstring) :=
           match l with
           | [] => Normal []
           | (k, e) :: l' =>
               match SerializeJSONProperty e with
               | Throw err => Throw err
               | Normal r =>
                   match each l' with
                   | Throw err => Throw err
                   | Normal partial =>
                       Normal (match r with
                               | Some s =>
                                   (QuoteJSONString k ++ [58%N] ++ s)
                                   :: partial
                               | None => partial
                               end)
                   end
               end
           end) props
      with
      | Throw err => Throw err
      | Normal partial =>
          Normal (Some ([123%N] ++ join [COMMA] partial ++ [125%N]))
      end
  end.

(** [JSON.stringify(v)]; a function has no JSON text. *)
Definition JSON_stringify (v : bigval) : completion (option jsstring) :=
  match v with
  | BData d => SerializeJSONProperty d
  | BBuiltin _ => Normal None
  end.

(** The [headers] array computed at the start of [convertToCSV]. *)
Definition headers (items : list BigItem) : list jsstring :=
  let allKeys :=
    fold_left
      (fun allKeys item => fold_left Set_add (Object_keys item) allKeys)
      items Set_new in
  Array_sort (Array_from allKeys).

(** The callback mapped over [headers] for one data row; it throws when
    [JSON.stringify] does. *)
Definition cell (item : BigItem) (header : jsstring) : completion jsstring :=
  let value := Get item header in
  match value with
  | BData BNull => Normal [QUOTE; QUOTE]
  | BData BUndefined => Normal [QUOTE; QUOTE]
  | _ =>
      match
        (if string_eqb (typeof value) (lit "object")
         then match JSON_stringify value with
              | Throw err => Throw err
              | Normal (Some s) => Normal s
              | Normal None => Normal []
              end
         else Normal (String value))
      with
      | Throw err => Throw err
      | Normal stringValue =>
          Normal ([QUOTE] ++ replace_quotes stringValue ++ [QUOTE])
      end
  end.

(** [headers.map(callback)]: the cells of one row, left to right, up to
    the first that throws. *)
Fixpoint row_cells (item : BigItem) (headers : list jsstring)
    : completion (list jsstring) :=
  match headers with
  | [] => Normal []
  | header :: headers' =>
      match cell item header with
      | Throw err => Throw err
      | Normal c =>
          match row_cells item headers' with
          | Throw err => Throw err
          | Normal row => Normal (c :: row)
          end
      end
  end.

(** [items.forEach] pushing one row per record, up to the first row that
    throws. *)
Fixpoint push_rows (items : list BigItem) (headers : list jsstring)
    (csvRows : list jsstring) : completion (list jsstring) :=
  match items with
  | [] => Normal csvRows
  | item :: items' =>
      match row_cells item headers with
      | Throw err => Throw err
      | Normal row => push_rows items' headers (csvRows ++ [join [COMMA] row])
      end
  end.

Definition convertToCSV (items : list BigItem) : completion jsstring :=
  if Nat.eqb (List.length items) 0
  then Normal (lit "No data available" ++ [LF])
  else
    let headers := headers items in
    let csvRows : list jsstring := [] in
    let csvRows :=
      csvRows ++
      [join [COMMA] (map (fun header => [QUOTE] ++ header ++ [QUOTE]) headers)] in
    match push_rows items headers csvRows with
    | Throw err => Throw err
    | Normal csvRows => Normal (join [LF] csvRows ++ [LF])
    end.

(** What [SerializeJSONProperty] does on a value: it throws the TypeError
    when the value holds a BigInt, and returns otherwise, with a text when
    the value is an array or an object. *)
Definition serializes (d : bigdata) : Prop :=
  if holds_bigint d
  then SerializeJSONProperty d = Throw cannot_serialize
  else exists r,
      SerializeJSONProperty d = Normal r /\
      (is_composite d = true -> exists text, r = Some text).

(** A record of [jsdata] with the field names of [item]. *)
Definition names_only (item : BigItem) : TodoItem :=
  map (fun kv => (fst kv, DNull)) item.


End Big.

(** * Properties *)

(** ** Order on strings, the sort and the key set *)

Module JSFacts.
Import JS.

Lemma string_eqb_eq (x y : jsstring) : string_eqb x y = true <-> x = y.
Proof.
  revert y; induction x as [|a x IH]; intros [|b y]; simpl; split;
    try congruence; try reflexivity.
  - intros H. apply andb_true_iff in H as [Hab Hxy].
    apply N.eqb_eq in Hab. apply IH in Hxy. congruence.
  - intros H. injection H as -> ->.
    rewrite N.eqb_refl. simpl. apply IH. reflexivity.
Qed.

Lemma string_eqb_refl (x : jsstring) : string_eqb x x = true.
Proof. apply string_eqb_eq. reflexivity. Qed.

Lemma string_ltb_irrefl (x : jsstring) : string_ltb x x = false.
Proof.
  induction x as [|a x IH]; simpl; [reflexivity|].
  rewrite N.ltb_irrefl. exact IH.
Qed.

Lemma string_ltb_asym (x y : jsstring) :
  string_ltb x y = true -> string_ltb y x = false.
Proof.
  revert y; induction x as [|a x IH]; intros [|b y]; simpl; try congruence.
  destruct (N.ltb_spec a b), (N.ltb_spec b a); try congruence; try lia.
  apply IH.
Qed.

Lemma string_ltb_trans (x y z : jsstring) :
  string_ltb x y = true -> string_ltb y z = true -> string_ltb x z = true.
Proof.
  revert y z; induction x as [|a x IH]; intros [|b y] [|c z]; simpl;
    try congruence.
  destruct (N.ltb_spec a b), (N.ltb_spec b a), (N.ltb_spec b c),
    (N.ltb_spec c b), (N.ltb_spec a c), (N.ltb_spec c a);
    try congruence; try lia.
  apply IH.
Qed.

Lemma string_ltb_total (x y : jsstring) :
  string_ltb x y = false -> string_ltb y x = false -> x = y.
Proof.
  revert y; induction x as [|a x IH]; intros [|b y]; simpl;
    try congruence.
  destruct (N.ltb_spec a b), (N.ltb_spec b a); try congruence; try lia.
  intros H1 H2. f_equal; [lia | apply IH; assumption].
Qed.

Lemma string_le_trans (x y z : jsstring) :
  string_le x y -> string_le y z -> string_le x z.
Proof.
  unfold string_le. intros Hxy Hyz.
  destruct (string_ltb z x) eqn:Hzx; [|reflexivity].
  destruct (string_ltb y z) eqn:E.
  - rewrite (string_ltb_trans _ _ _ E Hzx) in Hxy. discriminate.
  - assert (y = z) by (apply string_ltb_total; assumption). subst.
    congruence.
Qed.

(** The test [sort_insert] makes is the strict order itself. *)
Lemma SortCompare_pos (x y : jsstring) :
  (0 <? SortCompare y x)%Z = string_ltb x y.
Proof.
  unfold SortCompare.
  destruct (string_ltb y x) eqn:Hyx.
  - destruct (string_ltb x y) eqn:Hxy; [|reflexivity].
    apply string_ltb_asym in Hxy. congruence.
  - destruct (string_ltb x y); reflexivity.
Qed.

Lemma sort_insert_perm (x : jsstring) (l : list jsstring) :
  Permutation (x :: l) (sort_insert x l).
Proof.
  induction l as [|y l IH]; simpl; [reflexivity|].
  destruct (0 <? SortCompare y x)%Z; [reflexivity|].
  rewrite perm_swap. constructor. exact IH.
Qed.

Lemma Array_sort_acc_perm (l acc : list jsstring) :
  Permutation (fold_left (fun acc x => sort_insert x acc) l acc) (l ++ acc).
Proof.
  revert acc; induction l as [|x l IH]; intros acc; simpl; [reflexivity|].
  rewrite IH. rewrite <- sort_insert_perm.
  symmetry. apply Permutation_middle.
Qed.

Lemma Array_sort_perm (l : list jsstring) : Permutation (Array_sort l) l.
Proof.
  unfold Array_sort. rewrite Array_sort_acc_perm, app_nil_r. reflexivity.
Qed.

Lemma sort_insert_sorted (x : jsstring) (l : list jsstring) :
  StronglySorted string_le l -> StronglySorted string_le (sort_insert x l).
Proof.
  induction 1 as [|y l Hl IH Hy]; simpl.
  - repeat constructor.
  - rewrite SortCompare_pos.
    destruct (string_ltb x y) eqn:Hxy.
    + constructor; [constructor; assumption|].
      assert (Hle : string_le x y)
        by (unfold string_le; apply string_ltb_asym; exact Hxy).
      constructor; [exact Hle|].
      eapply Forall_impl; [|exact Hy].
      intros z Hz. eapply string_le_trans; eassumption.
    + constructor; [exact IH|].
      apply (Permutation_Forall (sort_insert_perm x l)).
      constructor; [exact Hxy | exact Hy].
Qed.

Lemma Array_sort_acc_sorted (l acc : list jsstring) :
  StronglySorted string_le acc ->
  StronglySorted string_le (fold_left (fun acc x => sort_insert x acc) l acc).
Proof.
  revert acc; induction l as [|x l IH]; intros acc H; simpl; [exact H|].
  apply IH, sort_insert_sorted, H.
Qed.

Lemma Array_sort_sorted (l : list jsstring) :
  StronglySorted string_le (Array_sort l).
Proof. apply Array_sort_acc_sorted. constructor. Qed.

Lemma sorted_le_NoDup_lt (l : list jsstring) :
  StronglySorted string_le l -> NoDup l -> StronglySorted string_lt l.
Proof.
  induction 1 as [|y l Hl IH Hy]; intros Hnd; [constructor|].
  inversion Hnd as [|? ? Hnotin Hnd']; subst.
  constructor; [apply IH; exact Hnd'|].
  rewrite Forall_forall in *. intros z Hz.
  specialize (Hy z Hz). unfold string_le in Hy. unfold string_lt.
  destruct (string_ltb y z) eqn:E; [reflexivity|].
  assert (y = z) by (apply string_ltb_total; assumption).
  subst. contradiction.
Qed.

(** A strictly ascending list is determined by its elements. *)
Lemma sorted_lt_unique (l1 l2 : list jsstring) :
  StronglySorted string_lt l1 -> StronglySorted string_lt l2 ->
  (forall x, In x l1 <-> In x l2) -> l1 = l2.
Proof.
  intros H1; revert l2; induction H1 as [|a l1 Hl1 IH Ha];
    intros l2 H2 Hin.
  - destruct l2 as [|b l2]; [reflexivity|].
    exfalso. apply (Hin b). left. reflexivity.
  - destruct H2 as [|b l2 Hl2 Hb].
    + exfalso. apply (Hin a). left. reflexivity.
    + rewrite Forall_forall in Ha, Hb.
      assert (Hab : a = b).
      { destruct (proj1 (Hin a) (or_introl eq_refl)) as [E|Ia];
          [congruence|].
        destruct (proj2 (Hin b) (or_introl eq_refl)) as [E|Ib];
          [congruence|].
        specialize (Ha b Ib). specialize (Hb a Ia).
        unfold string_lt in *. apply string_ltb_asym in Ha. congruence. }
      subst b. f_equal. apply IH; [exact Hl2|].
      intros x; split; intros Hx.
      * destruct (proj1 (Hin x) (or_intror Hx)) as [E|I]; [|exact I].
        subst x. specialize (Ha a Hx). unfold string_lt in Ha.
        rewrite string_ltb_irrefl in Ha. discriminate.
      * destruct (proj2 (Hin x) (or_intror Hx)) as [E|I]; [|exact I].
        subst x. specialize (Hb a Hx). unfold string_lt in Hb.
        rewrite string_ltb_irrefl in Hb. discriminate.
Qed.

(** *** The key set *)

Lemma Set_has_In (s : StringSet) (k : jsstring) :
  Set_has s k = true <-> In k s.
Proof.
  unfold Set_has. rewrite existsb_exists. split.
  - intros [x [Hx E]]. apply string_eqb_eq in E. subst. exact Hx.
  - intros H. exists k. split; [exact H | apply string_eqb_refl].
Qed.

Lemma Set_add_In (s : StringSet) (k x : jsstring) :
  In x (Set_add s k) <-> In x s \/ x = k.
Proof.
  unfold Set_add. destruct (Set_has s k) eqn:E.
  - apply Set_has_In in E. split; [tauto|]. intros [H| ->]; assumption.
  - rewrite in_app_iff. simpl. split; intros [H|H]; auto.
    + destruct H as [H|[]]; auto.
Qed.

Lemma Set_add_NoDup (s : StringSet) (k : jsstring) :
  NoDup s -> NoDup (Set_add s k).
Proof.
  intros H. unfold Set_add. destruct (Set_has s k) eqn:E; [exact H|].
  apply NoDup_app; [exact H | repeat constructor; simpl; tauto |].
  intros x Hx [<-|[]].
  apply Set_has_In in Hx. congruence.
Qed.

Lemma add_keys_In (ks : list jsstring) (s : StringSet) (x : jsstring) :
  In x (fold_left Set_add ks s) <-> In x s \/ In x ks.
Proof.
  revert s; induction ks as [|k ks IH]; intros s; simpl; [tauto|].
  rewrite IH, Set_add_In. intuition congruence.
Qed.

Lemma add_keys_NoDup (ks : list jsstring) (s : StringSet) :
  NoDup s -> NoDup (fold_left Set_add ks s).
Proof.
  revert s; induction ks as [|k ks IH]; intros s H; simpl; [exact H|].
  apply IH, Set_add_NoDup, H.
Qed.

(** *** Code points *)

Lemma StringToCodePoints_bmp (s : jsstring) :
  forallb (fun c => negb (Spec.is_surrogate c)) s = true ->
  Spec.StringToCodePoints s = s.
Proof.
  induction s as [|c s IH]; [reflexivity|].
  cbn [forallb Spec.StringToCodePoints].
  intros H. apply andb_true_iff in H as [Hc Hs].
  unfold Spec.is_surrogate in Hc.
  destruct (is_leading_surrogate c); [discriminate|].
  rewrite IH by exact Hs. reflexivity.
Qed.

End JSFacts.

(** ** The header list *)

Module HeaderFacts.
Import JS Types JSFacts.

Lemma collect_In (items : list TodoItem) (s : StringSet) (x : jsstring) :
  In x (fold_left
          (fun allKeys item => fold_left Set_add (Object_keys item) allKeys)
          items s)
  <-> In x s \/ exists item, In item items /\ In x (Object_keys item).
Proof.
  revert s; induction items as [|item items IH]; intros s; simpl.
  - split; [tauto|]. intros [H|[item [[] _]]]. exact H.
  - rewrite IH, add_keys_In. split.
    + intros [[H|H]|[it [Hit Hx]]]; eauto.
    + intros [H|[it [[<-|Hit] Hx]]]; eauto.
Qed.

Lemma collect_NoDup (items : list TodoItem) (s : StringSet) :
  NoDup s ->
  NoDup (fold_left
           (fun allKeys item => fold_left Set_add (Object_keys item) allKeys)
           items s).
Proof.
  revert s; induction items as [|item items IH]; intros s H; simpl;
    [exact H|].
  apply IH, add_keys_NoDup, H.
Qed.

Lemma headers_In (items : list TodoItem) (x : jsstring) :
  In x (PublicUrl.headers items)
  <-> exists item, In item items /\ In x (Object_keys item).
Proof.
  unfold PublicUrl.headers, Array_from.
  split.
  - intros H. apply (Permutation_in _ (Array_sort_perm _)) in H.
    apply collect_In in H. destruct H as [[]|H]. exact H.
  - intros H.
    apply (Permutation_in _ (Permutation_sym (Array_sort_perm _))).
    apply collect_In. right. exact H.
Qed.

Lemma headers_NoDup (items : list TodoItem) : NoDup (PublicUrl.headers items).
Proof.
  unfold PublicUrl.headers, Array_from.
  apply (Permutation_NoDup (Permutation_sym (Array_sort_perm _))).
  apply collect_NoDup. constructor.
Qed.

Lemma headers_sorted (items : list TodoItem) :
  StronglySorted string_lt (PublicUrl.headers items).
Proof.
  apply sorted_le_NoDup_lt; [|apply headers_NoDup].
  apply Array_sort_sorted.
Qed.

Lemma headers_same_keys (R R' : list TodoItem) :
  (forall x,
      (exists item, In item R /\ In x (Object_keys item)) <->
      (exists item, In item R' /\ In x (Object_keys item))) ->
  PublicUrl.headers R = PublicUrl.headers R'.
Proof.
  intros H. apply sorted_lt_unique; try apply headers_sorted.
  intros x. rewrite !headers_In. apply H.
Qed.

Lemma headers_permutation (R R' : list TodoItem) :
  Permutation R R' -> PublicUrl.headers R' = PublicUrl.headers R.
Proof.
  intros HP. apply headers_same_keys. intros x.
  split; intros [item [Hi Hx]]; exists item; split; try exact Hx.
  - eapply Permutation_in; [symmetry; exact HP | exact Hi].
  - eapply Permutation_in; [exact HP | exact Hi].
Qed.

Lemma sorted_lt_codepoints (l : list jsstring) :
  Forall (fun h => forallb (fun c => negb (Spec.is_surrogate c)) h = true) l ->
  StronglySorted string_lt l -> StronglySorted Spec.codepoint_lt l.
Proof.
  intros Hb Hs. induction Hs as [|a l Hl IH Ha]; [constructor|].
  inversion Hb as [|? ? Hba Hbl]; subst.
  constructor; [apply IH; exact Hbl|].
  rewrite Forall_forall in *. intros x Hx.
  unfold Spec.codepoint_lt, Spec.codepoint_ltb.
  rewrite !StringToCodePoints_bmp by auto.
  apply Ha, Hx.
Qed.

End HeaderFacts.

(** ** The encoder *)

Module EncoderFacts.
Import JS Types Spec JSFacts.

Lemma replace_quotes_app (a b : jsstring) :
  replace_quotes (a ++ b) = replace_quotes a ++ replace_quotes b.
Proof. unfold replace_quotes. apply flat_map_app. Qed.

Lemma replace_quotes_at_quote (a b : jsstring) :
  replace_quotes (a ++ QUOTE :: b)
  = replace_quotes a ++ [QUOTE; QUOTE] ++ replace_quotes b.
Proof. rewrite replace_quotes_app. reflexivity. Qed.

Lemma replace_quotes_id (s : jsstring) :
  ~ In QUOTE s -> replace_quotes s = s.
Proof.
  induction s as [|c s IH]; intros H; [reflexivity|].
  unfold replace_quotes in *. cbn [flat_map].
  destruct (N.eqb_spec c QUOTE) as [->|Hc].
  - exfalso. apply H. left. reflexivity.
  - rewrite IH; [reflexivity|]. intros Hin. apply H. right. exact Hin.
Qed.

Lemma cell_quote_cell (item : TodoItem) (header : jsstring) :
  PublicUrl.cell item header = quote_cell (Spec.cell_text item header).
Proof.
  unfold PublicUrl.cell, Spec.cell_text, quote_cell.
  destruct (Get item header) as [[]|]; reflexivity.
Qed.

Lemma push_rows {A : Type} (f : A -> jsstring) (items : list A)
    (csvRows : list jsstring) :
  fold_left (fun csvRows item => csvRows ++ [f item]) items csvRows
  = csvRows ++ map f items.
Proof.
  revert csvRows; induction items as [|item items IH]; intros csvRows;
    cbn [fold_left map].
  - rewrite app_nil_r. reflexivity.
  - rewrite IH, <- app_assoc. reflexivity.
Qed.

(** The document of a non-empty record list, row by row. *)
Lemma convertToCSV_rows (items : list TodoItem) :
  items <> [] ->
  PublicUrl.convertToCSV items
  = join [LF]
      (join [COMMA]
         (map (fun header => [QUOTE] ++ header ++ [QUOTE])
            (PublicUrl.headers items))
       :: map (fun item =>
                 join [COMMA] (map (PublicUrl.cell item) (PublicUrl.headers items)))
            items)
    ++ [LF].
Proof.
  intros H. unfold PublicUrl.convertToCSV.
  destruct items as [|item items]; [contradiction|].
  cbn [List.length Nat.eqb].
  rewrite (push_rows
             (fun it => join [COMMA]
                          (map (PublicUrl.cell it)
                             (PublicUrl.headers (item :: items))))).
  reflexivity.
Qed.

(** When no field name holds a quote the header row is encoded like a
    data row. *)
Lemma convertToCSV_encode_rows (items : list TodoItem) :
  items <> [] ->
  Forall (fun h => ~ In QUOTE h) (PublicUrl.headers items) ->
  PublicUrl.convertToCSV items
  = encode_rows
      (PublicUrl.headers items
       :: map (fun item => map (Spec.cell_text item) (PublicUrl.headers items))
            items).
Proof.
  intros Hne Hq. rewrite convertToCSV_rows by exact Hne.
  unfold encode_rows. cbn [map].
  assert (E1 : map (fun header => [QUOTE] ++ header ++ [QUOTE])
                 (PublicUrl.headers items)
               = map quote_cell (PublicUrl.headers items)).
  { apply map_ext_in. intros h Hh. unfold quote_cell.
    rewrite Forall_forall in Hq. rewrite replace_quotes_id; auto. }
  assert (E2 : map (fun item =>
                      join [COMMA]
                        (map (PublicUrl.cell item) (PublicUrl.headers items)))
                 items
               = map encode_row
                   (map (fun item =>
                           map (Spec.cell_text item) (PublicUrl.headers items))
                      items)).
  { rewrite map_map. apply map_ext. intros item.
    unfold encode_row. rewrite map_map. f_equal.
    apply map_ext. intros h. apply cell_quote_cell. }
  rewrite E1, E2. reflexivity.
Qed.

(** *** Decoding *)

Lemma decode_cell (v cell : jsstring) (row : list jsstring)
    (rows : list (list jsstring)) (rest : jsstring) :
  Spec.decode_from Spec.InCell cell row rows
    (replace_quotes v ++ QUOTE :: rest)
  = Spec.decode_from Spec.AfterQuote (cell ++ v) row rows rest.
Proof.
  revert cell; induction v as [|c v IH]; intros cell.
  - rewrite app_nil_r. reflexivity.
  - unfold replace_quotes in *. cbn [flat_map].
    destruct (N.eqb_spec c QUOTE) as [->|Hc].
    + cbn [app Spec.decode_from]. rewrite N.eqb_refl.
      rewrite IH, <- app_assoc. reflexivity.
    + cbn [app Spec.decode_from].
      destruct (N.eqb_spec c QUOTE) as [E|_]; [contradiction|].
      rewrite IH, <- app_assoc. reflexivity.
Qed.

Lemma encode_row_cons (v v' : jsstring) (cells : list jsstring) :
  encode_row (v :: v' :: cells)
  = [QUOTE] ++ replace_quotes v ++ QUOTE :: COMMA :: encode_row (v' :: cells).
Proof.
  unfold encode_row. cbn [map join]. unfold quote_cell at 1.
  rewrite <- !app_assoc. reflexivity.
Qed.

Lemma decode_after_comma (cell : jsstring) (row : list jsstring)
    (rows : list (list jsstring)) (s : jsstring) :
  Spec.decode_from Spec.AfterQuote cell row rows (COMMA :: s)
  = Spec.decode_from Spec.CellStart [] (row ++ [cell]) rows s.
Proof. reflexivity. Qed.

Lemma decode_after_newline (cell : jsstring) (row : list jsstring)
    (rows : list (list jsstring)) (s : jsstring) :
  Spec.decode_from Spec.AfterQuote cell row rows (LF :: s)
  = Spec.decode_from Spec.RowStart [] [] (rows ++ [row ++ [cell]]) s.
Proof. reflexivity. Qed.

Lemma decode_cells (cells : list jsstring) :
  cells <> [] ->
  forall (m : Spec.mode) (row : list jsstring)
         (rows : list (list jsstring)) (rest : jsstring),
    m = Spec.RowStart \/ m = Spec.CellStart ->
    Spec.decode_from m [] row rows (encode_row cells ++ LF :: rest)
    = Spec.decode_from Spec.RowStart [] [] (rows ++ [row ++ cells]) rest.
Proof.
  induction cells as [|v cells IH]; intros Hne m row rows rest Hm;
    [contradiction|].
  assert (Hstart : forall s,
             Spec.decode_from m [] row rows (QUOTE :: s)
             = Spec.decode_from Spec.InCell [] row rows s).
  { intros s. destruct Hm as [-> | ->]; reflexivity. }
  destruct cells as [|v' cells].
  - unfold encode_row, quote_cell. cbn [map join].
    rewrite <- !app_assoc. cbn [app].
    rewrite Hstart, decode_cell, decode_after_newline. reflexivity.
  - rewrite encode_row_cons. rewrite <- !app_assoc. cbn [app].
    rewrite Hstart, decode_cell, decode_after_comma. cbn [app].
    rewrite (IH ltac:(discriminate) Spec.CellStart (row ++ [v]) rows rest)
      by (right; reflexivity).
    rewrite <- app_assoc. reflexivity.
Qed.

Lemma decode_row (cells : list jsstring) (rows : list (list jsstring))
    (rest : jsstring) :
  Spec.decode_from Spec.RowStart [] [] rows (encode_row cells ++ LF :: rest)
  = Spec.decode_from Spec.RowStart [] [] (rows ++ [cells]) rest.
Proof.
  destruct cells as [|v cells].
  - reflexivity.
  - apply (decode_cells (v :: cells)); [discriminate | left; reflexivity].
Qed.

Lemma join_cons (sep x y : jsstring) (l : list jsstring) :
  join sep (x :: y :: l) = x ++ sep ++ join sep (y :: l).
Proof. reflexivity. Qed.

Lemma join_terminated (sep : jsstring) (l : list jsstring) :
  l <> [] -> join sep l ++ sep = List.concat (map (fun x => x ++ sep) l).
Proof.
  induction l as [|x l IH]; intros H; [contradiction|].
  destruct l as [|y l].
  - cbn. rewrite app_nil_r. reflexivity.
  - rewrite join_cons. change (map (fun x => x ++ sep) (x :: y :: l))
      with ((x ++ sep) :: map (fun x => x ++ sep) (y :: l)).
    cbn [List.concat]. rewrite <- IH by discriminate.
    rewrite <- !app_assoc. reflexivity.
Qed.

Lemma decode_lines (rs rows : list (list jsstring)) :
  Spec.decode_from Spec.RowStart [] [] rows
    (List.concat (map (fun x => x ++ [LF]) (map encode_row rs)))
  = Some (rows ++ rs).
Proof.
  revert rows; induction rs as [|r rs IH]; intros rows.
  - cbn. rewrite app_nil_r. reflexivity.
  - cbn [map List.concat]. rewrite <- app_assoc. cbn [app].
    rewrite decode_row, IH, <- app_assoc. reflexivity.
Qed.

(** Decoding inverts the encoding of rows of cell contents. *)
Lemma decode_encode_rows (rs : list (list jsstring)) :
  rs <> [] -> Spec.decode (encode_rows rs) = Some rs.
Proof.
  intros H. unfold Spec.decode, encode_rows.
  rewrite join_terminated by (destruct rs; [contradiction | discriminate]).
  apply decode_lines.
Qed.

(** Round trip, for field names without a quote character. *)
Lemma decode_convertToCSV (items : list TodoItem) :
  items <> [] ->
  Forall (fun h => ~ In QUOTE h) (PublicUrl.headers items) ->
  Spec.decode (PublicUrl.convertToCSV items)
  = Some (PublicUrl.headers items
          :: map (fun item => map (Spec.cell_text item) (PublicUrl.headers items))
               items).
Proof.
  intros Hne Hq. rewrite convertToCSV_encode_rows by assumption.
  apply decode_encode_rows. discriminate.
Qed.

Lemma cell_text_scalar (item : TodoItem) (header : jsstring) (d : jsdata) :
  assoc header item = Some d -> Spec.is_scalar d = true ->
  Spec.cell_text item header = ToString_data d.
Proof.
  intros Ha Hs. unfold Spec.cell_text, Get. rewrite Ha.
  destruct d; try discriminate; reflexivity.
Qed.

Lemma cell_text_composite (item : TodoItem) (header : jsstring) (d : jsdata) :
  assoc header item = Some d -> Spec.is_composite d = true ->
  JSON_stringify (Data d) = Some (Spec.cell_text item header).
Proof.
  intros Ha Hs. unfold Spec.cell_text, Get. rewrite Ha.
  destruct d; try discriminate; reflexivity.
Qed.

Lemma cell_text_missing (item : TodoItem) (header : jsstring) :
  assoc header item = None -> inherited header = false ->
  Spec.cell_text item header = [].
Proof.
  intros Ha Hi. unfold Spec.cell_text, Get, inherited in *. rewrite Ha.
  destruct (assoc header Object_prototype); [discriminate | reflexivity].
Qed.

(** What holds of every document: one header row and one row per record,
    in input order, each of as many cells as there are headers, and the
    empty cell for a null or undefined value and for a missing field whose
    name the object prototype does not define. *)
Lemma convertToCSV_shape (items : list TodoItem) :
  items <> [] ->
  exists rows : list (list jsstring),
    PublicUrl.convertToCSV items
    = join [LF] (map (join [COMMA]) rows) ++ [LF] /\
    List.length rows = S (List.length items) /\
    Forall (fun row => List.length row = List.length (PublicUrl.headers items))
      rows /\
    rows
    = map (fun header => [QUOTE] ++ header ++ [QUOTE]) (PublicUrl.headers items)
      :: map (fun item => map (PublicUrl.cell item) (PublicUrl.headers items))
           items.
Proof.
  intros Hne. eexists. split; [|split; [|split; [|reflexivity]]].
  - rewrite convertToCSV_rows by exact Hne. cbn [map].
    rewrite map_map. reflexivity.
  - cbn [List.length]. rewrite length_map. reflexivity.
  - constructor; [apply length_map|].
    apply Forall_forall. intros row Hrow.
    apply in_map_iff in Hrow as [item [<- _]]. apply length_map.
Qed.

Lemma cell_empty_value (item : TodoItem) (header : jsstring) :
  assoc header item = Some DNull \/ assoc header item = Some DUndefined \/
  (assoc header item = None /\ inherited header = false) ->
  PublicUrl.cell item header = [QUOTE; QUOTE].
Proof.
  intros H. unfold PublicUrl.cell, Get, inherited in *.
  destruct H as [H|[H|[H Hi]]]; rewrite H; try reflexivity.
  destruct (assoc header Object_prototype); [discriminate | reflexivity].
Qed.

(** [JSON.stringify] returns a text on every non-null value whose
    [typeof] is object, so the default branch of [cell] is never taken. *)
Lemma JSON_stringify_object_defined (v : jsval) :
  string_eqb (typeof v) (lit "object") = true ->
  v <> Data DNull ->
  exists text, JSON_stringify v = Some text.
Proof.
  intros Ht Hn. destruct v as [[]|]; try (vm_compute in Ht; discriminate).
  - contradiction.
  - eexists. reflexivity.
  - eexists. reflexivity.
Qed.

End EncoderFacts.

(** ** Runs of the coordinator *)

Module RunFacts.
Import JS Types Runtime.

Section Run.
Context {SV : Services}.

Lemma extends_refl (P : event -> Prop) (st : state) : extends P st st.
Proof. exists []. rewrite app_nil_r. split; [reflexivity | constructor]. Qed.

Lemma extends_trans (P : event -> Prop) (st1 st2 st3 : state) :
  extends P st1 st2 -> extends P st2 st3 -> extends P st1 st3.
Proof.
  intros [e1 [H1 F1]] [e2 [H2 F2]]. exists (e1 ++ e2). split.
  - rewrite H2, H1, app_assoc. reflexivity.
  - apply Forall_app. split; assumption.
Qed.

Lemma sends_only_ret (P : event -> Prop) {A : Type} (a : A) :
  sends_only P (ret a).
Proof. intros st. apply extends_refl. Qed.

Lemma sends_only_raise (P : event -> Prop) {A : Type} (e : thrown) :
  sends_only P (@raise _ A e).
Proof. intros st. apply extends_refl. Qed.

Lemma sends_only_out_of_fuel (P : event -> Prop) {A : Type} :
  sends_only P (@out_of_fuel _ A).
Proof. intros st. apply extends_refl. Qed.

Lemma sends_only_lift (P : event -> Prop) {A : Type} (c : completion A) :
  sends_only P (lift c).
Proof. destruct c; [apply sends_only_ret | apply sends_only_raise]. Qed.

Lemma sends_only_Date_now (P : event -> Prop) : sends_only P Date_now.
Proof.
  intros st. unfold Date_now. destruct (clock (world st)) as [t w].
  exists []. cbn. rewrite app_nil_r. split; [reflexivity | constructor].
Qed.

Lemma sends_only_call (P : event -> Prop) {A : Type} (ev : event)
    (f : World -> completion A * World) :
  P ev -> sends_only P (call ev f).
Proof.
  intros HP st. unfold call. destruct (f (world st)) as [c w].
  exists [ev]. split; [|repeat constructor; exact HP].
  destruct c; reflexivity.
Qed.

Lemma sends_only_bind (P : event -> Prop) {A B : Type} (m : M A)
    (k : A -> M B) :
  sends_only P m -> (forall a, sends_only P (k a)) ->
  sends_only P (bind m k).
Proof.
  intros Hm Hk st. unfold bind. specialize (Hm st).
  destruct (m st) as [[a|e|] st']; cbn [snd] in *; try exact Hm.
  eapply extends_trans; [exact Hm | apply Hk].
Qed.

Lemma sends_only_try_catch (P : event -> Prop) {A : Type} (body : M A)
    (handler : thrown -> M A) :
  sends_only P body -> (forall e, sends_only P (handler e)) ->
  sends_only P (try_catch body handler).
Proof.
  intros Hb Hh st. unfold try_catch. specialize (Hb st).
  destruct (body st) as [[a|e|] st']; cbn [snd] in *; try exact Hb.
  eapply extends_trans; [exact Hb | apply Hh].
Qed.

(** A [try]/[catch] whose handler returns never raises, and runs out of
    fuel only when its body does. *)
Lemma try_catch_returns {A : Type} (body : M A) (f : thrown -> A)
    (st : state) :
  match fst (try_catch body (fun e => ret (f e)) st) with
  | Returned _ => True
  | Raised _ => False
  | OutOfFuel => fst (body st) = OutOfFuel
  end.
Proof.
  unfold try_catch. destruct (body st) as [[a|e|] st']; cbn; auto.
Qed.

Lemma bind_out_of_fuel {A B : Type} (m : M A) (k : A -> M B) (st : state) :
  (forall a st', fst (k a st') <> OutOfFuel) ->
  fst (bind m k st) = OutOfFuel -> fst (m st) = OutOfFuel.
Proof.
  intros Hk. unfold bind. destruct (m st) as [[a|e|] st']; cbn; auto.
  - intros H. destruct (Hk a st' H).
  - discriminate.
Qed.

Lemma fuel_free_ret {A : Type} (a : A) : fuel_free (ret a).
Proof. intros st. discriminate. Qed.

Lemma fuel_free_lift {A : Type} (c : completion A) : fuel_free (lift c).
Proof. intros st. destruct c; discriminate. Qed.

Lemma fuel_free_Date_now : fuel_free Date_now.
Proof.
  intros st. unfold Date_now. destruct (clock (world st)). discriminate.
Qed.

Lemma fuel_free_call {A : Type} (ev : event)
    (f : World -> completion A * World) :
  fuel_free (call ev f).
Proof.
  intros st. unfold call. destruct (f (world st)) as [[a|e] w]; discriminate.
Qed.

Lemma fuel_free_bind {A B : Type} (m : M A) (k : A -> M B) :
  fuel_free m -> (forall a, fuel_free (k a)) -> fuel_free (bind m k).
Proof.
  intros Hm Hk st. unfold bind. specialize (Hm st).
  destruct (m st) as [[a|e|] st']; cbn in *;
    [apply Hk | discriminate | exfalso; apply Hm; reflexivity].
Qed.

Variable env : EnvironmentVariables.

Lemma scan_loop_sends_only (P : event -> Prop) :
  (forall input, P (EvScan input)) ->
  forall fuel items key, sends_only P (PublicUrl.scan_loop env fuel items key).
Proof.
  intros HP. induction fuel as [|fuel IH]; intros items key.
  - apply sends_only_out_of_fuel.
  - cbn [PublicUrl.scan_loop].
    apply sends_only_bind; [apply sends_only_call, HP|].
    intros response. apply sends_only_bind.
    + destruct (Items response) as [page|]; [|apply sends_only_ret].
      apply sends_only_bind; [apply sends_only_lift|].
      intros unmarshalled. apply sends_only_ret.
    + intros items'.
      destruct (LastEvaluatedKey response) as [k|];
        [apply IH | apply sends_only_ret].
Qed.

Lemma scanTodoItems_sends_only (P : event -> Prop) (fuel : nat) :
  (forall input, P (EvScan input)) ->
  sends_only P (PublicUrl.scanTodoItems env fuel).
Proof. intros HP. apply scan_loop_sends_only, HP. Qed.

(** More fuel does not change a scan that came to an end. *)
Lemma scan_loop_more_fuel (fuel : nat) :
  forall items key st,
    fst (PublicUrl.scan_loop env fuel items key st) <> OutOfFuel ->
    PublicUrl.scan_loop env (S fuel) items key st
    = PublicUrl.scan_loop env fuel items key st.
Proof.
  induction fuel as [|fuel IH]; intros items key st H.
  - exfalso. apply H. reflexivity.
  - revert H. cbn [PublicUrl.scan_loop]. unfold bind.
    destruct (call _ _ st) as [[response|e|] st1]; try reflexivity.
    destruct (Items response) as [page|].
    + unfold lift. destruct (map_unmarshall page) as [unmarshalled|e];
        cbn [ret raise]; try reflexivity.
      destruct (LastEvaluatedKey response) as [k|]; [|reflexivity].
      intros H. apply IH. exact H.
    + cbn [ret].
      destruct (LastEvaluatedKey response) as [k|]; [|reflexivity].
      intros H. apply IH. exact H.
Qed.

Lemma scanTodoItems_more_fuel (fuel extra : nat) (st : state) :
  fst (PublicUrl.scanTodoItems env fuel st) <> OutOfFuel ->
  PublicUrl.scanTodoItems env (extra + fuel) st
  = PublicUrl.scanTodoItems env fuel st.
Proof.
  intros H. induction extra as [|extra IH]; [reflexivity|].
  cbn [Nat.add]. unfold PublicUrl.scanTodoItems in *.
  rewrite scan_loop_more_fuel; [exact IH|]. rewrite IH. exact H.
Qed.

Lemma scan_variants_agree (fuel : nat) :
  Presigned.scanTodoItems env fuel = PublicUrl.scanTodoItems env fuel.
Proof. reflexivity. Qed.

Lemma uploadToS3_sends_only (P : event -> Prop) (csvContent : jsstring) :
  (forall input, P (EvPut input)) ->
  sends_only P (PublicUrl.uploadToS3 env csvContent).
Proof.
  intros HP. unfold PublicUrl.uploadToS3.
  apply sends_only_bind; [apply sends_only_Date_now|]. intros now.
  apply sends_only_bind; [apply sends_only_call, HP|]. intros _.
  apply sends_only_ret.
Qed.

Lemma uploadToS3_presigned_sends_only (P : event -> Prop)
    (csvContent : jsstring) :
  (forall input, P (EvPut input)) ->
  sends_only P (Presigned.uploadToS3 env csvContent).
Proof.
  intros HP. unfold Presigned.uploadToS3.
  apply sends_only_bind; [apply sends_only_Date_now|]. intros now.
  apply sends_only_bind; [apply sends_only_call, HP|]. intros _.
  apply sends_only_ret.
Qed.

Lemma uploadToS3_fuel_free (csvContent : jsstring) :
  fuel_free (PublicUrl.uploadToS3 env csvContent).
Proof.
  unfold PublicUrl.uploadToS3.
  apply fuel_free_bind; [apply fuel_free_Date_now|]. intros now.
  apply fuel_free_bind; [apply fuel_free_call|]. intros _.
  apply fuel_free_ret.
Qed.

Lemma uploadToS3_presigned_fuel_free (csvContent : jsstring) :
  fuel_free (Presigned.uploadToS3 env csvContent).
Proof.
  unfold Presigned.uploadToS3.
  apply fuel_free_bind; [apply fuel_free_Date_now|]. intros now.
  apply fuel_free_bind; [apply fuel_free_call|]. intros _.
  apply fuel_free_ret.
Qed.

Lemma sendNotification_fuel_free (fileName url : jsstring) :
  fuel_free (PublicUrl.sendNotification env fileName url).
Proof.
  unfold PublicUrl.sendNotification.
  apply fuel_free_bind; [apply fuel_free_Date_now|]. intros now.
  apply fuel_free_call.
Qed.

Lemma sendNotification_presigned_fuel_free (fileName url : jsstring) :
  fuel_free (Presigned.sendNotification env fileName url).
Proof.
  unfold Presigned.sendNotification.
  apply fuel_free_bind; [apply fuel_free_Date_now|]. intros t.
  apply fuel_free_bind; [apply fuel_free_Date_now|]. intros now.
  apply fuel_free_call.
Qed.

Lemma generatePresignedUrl_fuel_free (key : jsstring) :
  fuel_free (Presigned.generatePresignedUrl env key).
Proof.
  unfold Presigned.generatePresignedUrl.
  apply fuel_free_bind; [apply fuel_free_call|]. intros url.
  apply fuel_free_ret.
Qed.

(** The coordinator returns; it can only fail to when the scan loop does
    not come to an end within its budget. *)
Lemma exportTodoItems_never_raises (fuel : nat) (st : state) :
  match fst (PublicUrl.exportTodoItems env fuel st) with
  | Returned _ => True
  | Raised _ => False
  | OutOfFuel => fst (PublicUrl.scanTodoItems env fuel st) = OutOfFuel
  end.
Proof.
  unfold PublicUrl.exportTodoItems.
  match goal with
  | |- context [try_catch ?b (fun error => ret (@?f error))] =>
      pose proof (try_catch_returns b f st) as H
  end.
  destruct (fst (try_catch _ _ st)); try exact H.
  revert H. apply bind_out_of_fuel. intros todoItems st'.
  destruct (Nat.eqb (List.length todoItems) 0); [discriminate|].
  apply fuel_free_bind; [apply uploadToS3_fuel_free|]. intros upload.
  apply fuel_free_bind; [apply sendNotification_fuel_free|]. intros _.
  apply fuel_free_ret.
Qed.

Lemma exportTodoItems_presigned_never_raises (fuel : nat) (st : state) :
  match fst (Presigned.exportTodoItems env fuel st) with
  | Returned _ => True
  | Raised _ => False
  | OutOfFuel => fst (Presigned.scanTodoItems env fuel st) = OutOfFuel
  end.
Proof.
  unfold Presigned.exportTodoItems.
  match goal with
  | |- context [try_catch ?b (fun error => ret (@?f error))] =>
      pose proof (try_catch_returns b f st) as H
  end.
  destruct (fst (try_catch _ _ st)); try exact H.
  revert H. apply bind_out_of_fuel. intros todoItems st'.
  destruct (Nat.eqb (List.length todoItems) 0); [discriminate|].
  apply fuel_free_bind; [apply uploadToS3_presigned_fuel_free|]. intros key.
  apply fuel_free_bind; [apply generatePresignedUrl_fuel_free|]. intros url.
  apply fuel_free_bind; [apply sendNotification_presigned_fuel_free|].
  intros _. apply fuel_free_ret.
Qed.

(** Once the scan loop ends within its budget the coordinator returns, and
    a larger budget changes nothing. *)
Lemma exportTodoItems_returns (fuel : nat) (st : state) :
  fst (PublicUrl.scanTodoItems env fuel st) <> OutOfFuel ->
  exists r st',
    forall extra,
      PublicUrl.exportTodoItems env (extra + fuel) st = (Returned r, st').
Proof.
  intros H.
  assert (E : forall extra,
             PublicUrl.exportTodoItems env (extra + fuel) st
             = PublicUrl.exportTodoItems env fuel st).
  { intros extra. unfold PublicUrl.exportTodoItems, try_catch, bind.
    rewrite scanTodoItems_more_fuel by exact H. reflexivity. }
  pose proof (exportTodoItems_never_raises fuel st) as Hr.
  destruct (PublicUrl.exportTodoItems env fuel st) as [[r|e|] st'] eqn:Ex;
    cbn [fst] in Hr.
  - exists r, st'. exact E.
  - contradiction.
  - contradiction.
Qed.

Lemma exportTodoItems_presigned_returns (fuel : nat) (st : state) :
  fst (Presigned.scanTodoItems env fuel st) <> OutOfFuel ->
  exists r st',
    forall extra,
      Presigned.exportTodoItems env (extra + fuel) st = (Returned r, st').
Proof.
  intros H.
  assert (E : forall extra,
             Presigned.exportTodoItems env (extra + fuel) st
             = Presigned.exportTodoItems env fuel st).
  { intros extra. unfold Presigned.exportTodoItems, try_catch, bind.
    change (Presigned.scanTodoItems env (extra + fuel))
      with (PublicUrl.scanTodoItems env (extra + fuel)).
    change (Presigned.scanTodoItems env fuel)
      with (PublicUrl.scanTodoItems env fuel).
    rewrite scanTodoItems_more_fuel by exact H. reflexivity. }
  pose proof (exportTodoItems_presigned_never_raises fuel st) as Hr.
  destruct (Presigned.exportTodoItems env fuel st) as [[r|e|] st'] eqn:Ex;
    cbn [fst] in Hr.
  - exists r, st'. exact E.
  - contradiction.
  - contradiction.
Qed.

End Run.

End RunFacts.

(** ** The encoder on values beyond the safe integers *)

Module BigFacts.
Import JS Types Runtime JSFacts HeaderFacts Big.

Section Induction.
Variable P : bigdata -> Prop.
Hypothesis P_undefined : P BUndefined.
Hypothesis P_null : P BNull.
Hypothesis P_boolean : forall b, P (BBoolean b).
Hypothesis P_number : forall text, P (BNumber text).
Hypothesis P_bigint : forall digits, P (BBigInt digits).
Hypothesis P_string : forall s, P (BString s).
Hypothesis P_array : forall elems, Forall P elems -> P (BArray elems).
Hypothesis P_object :
  forall props, Forall (fun kv => P (snd kv)) props -> P (BObject props).

Fixpoint bigdata_nested_ind (d : bigdata) : P d :=
  match d with
  | BUndefined => P_undefined
  | BNull => P_null
  | BBoolean b => P_boolean b
  | BNumber text => P_number text
  | BBigInt digits => P_bigint digits
  | BString s => P_string s
  | BArray elems =>
      P_array elems
        ((fix all (l : list bigdata) : Forall P l :=
            match l with
            | [] => Forall_nil P
            | e :: l' => Forall_cons e (bigdata_nested_ind e) (all l')
            end) elems)
  | BObject props =>
      P_object props
        ((fix all (l : list (jsstring * bigdata))
            : Forall (fun kv => P (snd kv)) l :=
            match l with
            | [] => Forall_nil _
            | kv :: l' =>
                Forall_cons kv (bigdata_nested_ind (snd kv)) (all l')
            end) props)
  end.

End Induction.

Section DataInduction.
Variable P : jsdata -> Prop.
Hypothesis P_undefined : P DUndefined.
Hypothesis P_null : P DNull.
Hypothesis P_boolean : forall b, P (DBoolean b).
Hypothesis P_number : forall text, P (DNumber text).
Hypothesis P_string : forall s, P (DString s).
Hypothesis P_array : forall elems, Forall P elems -> P (DArray elems).
Hypothesis P_object :
  forall props, Forall (fun kv => P (snd kv)) props -> P (DObject props).

Fixpoint jsdata_nested_ind (d : jsdata) : P d :=
  match d with
  | DUndefined => P_undefined
  | DNull => P_null
  | DBoolean b => P_boolean b
  | DNumber text => P_number text
  | DString s => P_string s
  | DArray elems =>
      P_array elems
        ((fix all (l : list jsdata) : Forall P l :=
            match l with
            | [] => Forall_nil P
            | e :: l' => Forall_cons e (jsdata_nested_ind e) (all l')
            end) elems)
  | DObject props =>
      P_object props
        ((fix all (l : list (jsstring * jsdata))
            : Forall (fun kv => P (snd kv)) l :=
            match l with
            | [] => Forall_nil _
            | kv :: l' =>
                Forall_cons kv (jsdata_nested_ind (snd kv)) (all l')
            end) props)
  end.

End DataInduction.

(** *** When [JSON.stringify] throws *)

Lemma SerializeJSONProperty_cases (d : bigdata) : serializes d.
Proof.
  induction d as [| | b | text | digits | s | elems IH | props IH]
    using bigdata_nested_ind; unfold serializes;
    cbn [holds_bigint SerializeJSONProperty];
    try (eexists; split; [reflexivity | discriminate]);
    try reflexivity.
  - (* arrays *)
    match goal with
    | |- context [match ?each elems with Normal _ => _ | Throw _ => _ end] =>
        set (each_ := each)
    end.
    assert (H : if existsb holds_bigint elems
                then each_ elems = Throw cannot_serialize
                else exists partial, each_ elems = Normal partial).
    { induction IH as [|e l He Hl IHl]; [eexists; reflexivity|].
      cbn [existsb]. unfold serializes in He.
      change (each_ (e :: l))
        with (match SerializeJSONProperty e with
              | Throw err => Throw err
              | Normal r =>
                  match each_ l with
                  | Throw err => Throw err
                  | Normal partial =>
                      Normal (match r with
                              | Some s => s
                              | None => lit "null"
                              end :: partial)
                  end
              end).
      destruct (holds_bigint e); cbn [orb].
      - rewrite He. reflexivity.
      - destruct He as [r [-> _]].
        destruct (existsb holds_bigint l).
        + rewrite IHl. reflexivity.
        + destruct IHl as [partial ->]. eexists. reflexivity. }
    destruct (existsb holds_bigint elems).
    + rewrite H. reflexivity.
    + destruct H as [partial ->]. eexists. split; [reflexivity|].
      intros _. eexists. reflexivity.
  - (* objects *)
    match goal with
    | |- context [match ?each props with Normal _ => _ | Throw _ => _ end] =>
        set (each_ := each)
    end.
    assert (H : if existsb (fun '(_, e) => holds_bigint e) props
                then each_ props = Throw cannot_serialize
                else exists partial, each_ props = Normal partial).
    { induction IH as [|[k e] l He Hl IHl]; [eexists; reflexivity|].
      cbn [existsb]. cbn [snd] in He. unfold serializes in He.
      change (each_ ((k, e) :: l))
        with (match SerializeJSONProperty e with
              | Throw err => Throw err
              | Normal r =>
                  match each_ l with
                  | Throw err => Throw err
                  | Normal partial =>
                      Normal (match r with
                              | Some s =>
                                  (QuoteJSONString k ++ [58%N] ++ s)
                                  :: partial
                              | None => partial
                              end)
                  end
              end).
      destruct (holds_bigint e); cbn [orb].
      - rewrite He. reflexivity.
      - destruct He as [r [-> _]].
        destruct (existsb (fun '(_, e0) => holds_bigint e0) l).
        + rewrite IHl. reflexivity.
        + destruct IHl as [partial ->]. eexists. reflexivity. }
    destruct (existsb (fun '(_, e) => holds_bigint e) props).
    + rewrite H. reflexivity.
    + destruct H as [partial ->]. eexists. split; [reflexivity|].
      intros _. eexists. reflexivity.
Qed.

Lemma SerializeJSONProperty_throws (d : bigdata) :
  holds_bigint d = true -> SerializeJSONProperty d = Throw cannot_serialize.
Proof.
  intros H. pose proof (SerializeJSONProperty_cases d) as S.
  unfold serializes in S. rewrite H in S. exact S.
Qed.


Lemma SerializeJSONProperty_error (d : bigdata) (e : thrown) :
  SerializeJSONProperty d = Throw e -> e = cannot_serialize.
Proof.
  intros H. pose proof (SerializeJSONProperty_cases d) as S.
  unfold serializes in S. destruct (holds_bigint d).
  - rewrite S in H. injection H as <-. reflexivity.
  - destruct S as [r [E _]]. rewrite E in H. discriminate.
Qed.

(** *** The cell of an array or object *)

Lemma cell_composite (item : BigItem) (header : jsstring) (d : bigdata) :
  assoc header item = Some d ->
  is_composite d = true ->
  cell item header
  = match SerializeJSONProperty d with
    | Throw err => Throw err
    | Normal (Some s) => Normal ([QUOTE] ++ replace_quotes s ++ [QUOTE])
    | Normal None => Normal ([QUOTE] ++ replace_quotes [] ++ [QUOTE])
    end.
Proof.
  intros Ha Hc. unfold cell, Get. rewrite Ha.
  destruct d; try discriminate; cbn [typeof JSON_stringify];
    change (string_eqb (lit "object") (lit "object")) with true; cbn match;
    match goal with
    | |- context [SerializeJSONProperty ?d] =>
        destruct (SerializeJSONProperty d) as [[s|]|err]; reflexivity
    end.
Qed.

Lemma cell_error (item : BigItem) (header : jsstring) (e : thrown) :
  cell item header = Throw e -> e = cannot_serialize.
Proof.
  unfold cell. destruct (Get item header) as [d|src].
  - destruct d; cbn [typeof JSON_stringify String];
      try discriminate;
      try (change (string_eqb (lit "object") (lit "object")) with true;
           cbn match;
           match goal with
           | |- context [SerializeJSONProperty ?d] =>
               destruct (SerializeJSONProperty d) as [[s|]|err] eqn:E;
               try discriminate;
               intros H; injection H as <-;
               exact (SerializeJSONProperty_error _ _ E)
           end);
      vm_compute; discriminate.
  - vm_compute. discriminate.
Qed.

(** *** A throwing cell makes the encoder throw *)

Lemma row_cells_throws (item : BigItem) (headers : list jsstring)
    (header : jsstring) :
  In header headers ->
  cell item header = Throw cannot_serialize ->
  row_cells item headers = Throw cannot_serialize.
Proof.
  intros Hin Hc. induction headers as [|h hs IH]; [contradiction|].
  cbn [row_cells]. destruct (cell item h) as [c|e] eqn:E.
  - destruct Hin as [->|Hin]; [rewrite Hc in E; discriminate|].
    rewrite (IH Hin). reflexivity.
  - rewrite (cell_error _ _ _ E). reflexivity.
Qed.

Lemma row_cells_error (item : BigItem) (headers : list jsstring)
    (e : thrown) :
  row_cells item headers = Throw e -> e = cannot_serialize.
Proof.
  induction headers as [|h hs IH]; cbn [row_cells]; [discriminate|].
  destruct (cell item h) as [c|e'] eqn:E.
  - destruct (row_cells item hs) as [row|e'']; [discriminate|].
    intros H. injection H as <-. apply IH. reflexivity.
  - intros H. injection H as <-. exact (cell_error _ _ _ E).
Qed.

Lemma push_rows_throws (items : list BigItem) (headers : list jsstring)
    (item : BigItem) :
  In item items ->
  row_cells item headers = Throw cannot_serialize ->
  forall csvRows, push_rows items headers csvRows = Throw cannot_serialize.
Proof.
  intros Hin Hr. induction items as [|i rest IH]; [contradiction|].
  intros csvRows. cbn [push_rows].
  destruct (row_cells i headers) as [row|e] eqn:E.
  - destruct Hin as [->|Hin]; [rewrite Hr in E; discriminate|].
    apply IH. exact Hin.
  - rewrite (row_cells_error _ _ _ E). reflexivity.
Qed.

(** *** The headers *)

Lemma headers_names_only (items : list BigItem) :
  Big.headers items = PublicUrl.headers (map names_only items).
Proof.
  unfold Big.headers, PublicUrl.headers. f_equal. f_equal.
  generalize Set_new as acc.
  induction items as [|item items IH]; intros acc; [reflexivity|].
  cbn [map fold_left]. rewrite IH. f_equal. f_equal.
  unfold Big.Object_keys, JS.Object_keys, names_only.
  rewrite map_map. reflexivity.
Qed.

Lemma big_headers_In (items : list BigItem) (x : jsstring) :
  In x (Big.headers items)
  <-> exists item, In item items /\ In x (Big.Object_keys item).
Proof.
  rewrite headers_names_only, headers_In. split.
  - intros [item' [Hin Hx]]. apply in_map_iff in Hin as [item [<- Hin]].
    exists item. split; [exact Hin|].
    unfold JS.Object_keys, names_only in Hx. rewrite map_map in Hx.
    exact Hx.
  - intros [item [Hin Hx]]. exists (names_only item). split.
    + apply in_map. exact Hin.
    + unfold JS.Object_keys, names_only. rewrite map_map. exact Hx.
Qed.

Lemma assoc_key {A : Type} (k : jsstring) (v : A)
    (l : list (jsstring * A)) :
  assoc k l = Some v -> In k (map fst l).
Proof.
  induction l as [|[k' v'] l IH]; cbn [assoc map fst]; [discriminate|].
  destruct (string_eqb k k') eqn:E.
  - apply string_eqb_eq in E. subst k'. intros _. left. reflexivity.
  - intros H. right. apply IH. exact H.
Qed.

Lemma convertToCSV_throws (items : list BigItem) (item : BigItem)
    (header : jsstring) :
  In item items ->
  In header (Big.Object_keys item) ->
  cell item header = Throw cannot_serialize ->
  convertToCSV items = Throw cannot_serialize.
Proof.
  intros Hin Hk Hc. unfold convertToCSV.
  destruct items as [|i rest]; [contradiction|].
  cbn [List.length Nat.eqb].
  rewrite (push_rows_throws (i :: rest) (Big.headers (i :: rest)) item Hin);
    [reflexivity|].
  apply (row_cells_throws item _ header); [|exact Hc].
  apply big_headers_In. exists item. split; assumption.
Qed.

(** *** Records that hold no BigInt *)

Lemma of_data_no_bigint (d : jsdata) : holds_bigint (of_data d) = false.
Proof.
  induction d as [| | b | text | s | elems IH | props IH]
    using jsdata_nested_ind; cbn [of_data holds_bigint]; try reflexivity.
  - induction IH as [|e l He Hl IHl]; [reflexivity|].
    cbn [map existsb]. rewrite He, IHl. reflexivity.
  - induction IH as [|[k e] l He Hl IHl]; [reflexivity|].
    cbn [map existsb]. cbn [snd] in He. rewrite He, IHl. reflexivity.
Qed.

Lemma SerializeJSONProperty_of_data (d : jsdata) :
  Big.SerializeJSONProperty (of_data d)
  = Normal (JS.SerializeJSONProperty d).
Proof.
  induction d as [| | b | text | s | elems IH | props IH]
    using jsdata_nested_ind;
    cbn [of_data Big.SerializeJSONProperty JS.SerializeJSONProperty];
    try reflexivity.
  - match goal with
    | |- match ?each _ with Normal _ => _ | Throw _ => _ end
         = Normal (Some (_ ++ join _ (?each' _) ++ _)) =>
        assert (H : each (map of_data elems) = Normal (each' elems))
    end.
    { induction IH as [|e l He Hl IHl]; [reflexivity|].
      cbn [map]. rewrite He, IHl. reflexivity. }
    rewrite H. reflexivity.
  - match goal with
    | |- match ?each _ with Normal _ => _ | Throw _ => _ end
         = Normal (Some (_ ++ join _ (?each' _) ++ _)) =>
        assert (H : each (map (fun '(k, e) => (k, of_data e)) props)
                    = Normal (each' props))
    end.
    { induction IH as [|[k e] l He Hl IHl]; [reflexivity|].
      cbn [map]. cbn [snd] in He. rewrite He, IHl.
      destruct (JS.SerializeJSONProperty e); reflexivity. }
    rewrite H. reflexivity.
Qed.

Lemma ToString_of_data (d : jsdata) :
  Big.ToString_data (of_data d) = JS.ToString_data d.
Proof.
  induction d as [| | b | text | s | elems IH | props IH]
    using jsdata_nested_ind;
    cbn [of_data Big.ToString_data JS.ToString_data]; try reflexivity.
  f_equal. induction IH as [|e l He Hl IHl]; [reflexivity|].
  cbn [map]. rewrite IHl. destruct e; try reflexivity; rewrite <- He;
    reflexivity.
Qed.

Lemma assoc_of_item (item : TodoItem) (P : jsstring) :
  assoc P (of_item item) = option_map of_data (assoc P item).
Proof.
  induction item as [|[k e] item IH]; [reflexivity|].
  cbn [of_item map assoc]. destruct (string_eqb P k); [reflexivity|].
  exact IH.
Qed.

Lemma Get_of_item (item : TodoItem) (P : jsstring) :
  Big.Get (of_item item) P = of_val (JS.Get item P).
Proof.
  unfold Big.Get, JS.Get. rewrite assoc_of_item.
  destruct (assoc P item); cbn [option_map]; [reflexivity|].
  destruct (assoc P Object_prototype); reflexivity.
Qed.

Lemma cell_of_item (item : TodoItem) (header : jsstring) :
  Big.cell (of_item item) header = Normal (PublicUrl.cell item header).
Proof.
  unfold Big.cell, PublicUrl.cell. rewrite Get_of_item.
  destruct (JS.Get item header) as [d|src]; [|reflexivity].
  destruct d; cbn [of_val of_data]; try reflexivity.
  - (* arrays *)
    cbn [Big.typeof JS.typeof Big.JSON_stringify JS.JSON_stringify].
    change (string_eqb (lit "object") (lit "object")) with true. cbn match.
    change (BArray (map of_data elems)) with (of_data (DArray elems)).
    rewrite SerializeJSONProperty_of_data.
    destruct (JS.SerializeJSONProperty (DArray elems)); reflexivity.
  - cbn [Big.typeof JS.typeof Big.JSON_stringify JS.JSON_stringify].
    change (string_eqb (lit "object") (lit "object")) with true. cbn match.
    change (BObject (map (fun '(k, e) => (k, of_data e)) props))
      with (of_data (DObject props)).
    rewrite SerializeJSONProperty_of_data.
    destruct (JS.SerializeJSONProperty (DObject props)); reflexivity.
Qed.

Lemma headers_of_item (items : list TodoItem) :
  Big.headers (map of_item items) = PublicUrl.headers items.
Proof.
  unfold Big.headers, PublicUrl.headers. f_equal. f_equal.
  generalize Set_new as acc.
  induction items as [|item items IH]; intros acc; [reflexivity|].
  cbn [map fold_left]. rewrite IH. f_equal. f_equal.
  unfold Big.Object_keys, JS.Object_keys, of_item.
  rewrite map_map. apply map_ext. intros [k e]. reflexivity.
Qed.

Lemma row_cells_of_item (item : TodoItem) (headers : list jsstring) :
  row_cells (of_item item) headers
  = Normal (map (PublicUrl.cell item) headers).
Proof.
  induction headers as [|h hs IH]; [reflexivity|].
  cbn [row_cells map]. rewrite cell_of_item, IH. reflexivity.
Qed.

Lemma push_rows_of_item (items : list TodoItem) (headers : list jsstring) :
  forall csvRows,
    push_rows (map of_item items) headers csvRows
    = Normal
        (fold_left
           (fun csvRows item =>
              csvRows ++ [join [COMMA] (map (PublicUrl.cell item) headers)])
           items csvRows).
Proof.
  induction items as [|item items IH]; intros csvRows; [reflexivity|].
  cbn [map push_rows fold_left]. rewrite row_cells_of_item. apply IH.
Qed.

Lemma convertToCSV_of_item (items : list TodoItem) :
  Big.convertToCSV (map of_item items)
  = Normal (PublicUrl.convertToCSV items).
Proof.
  unfold Big.convertToCSV, PublicUrl.convertToCSV.
  rewrite length_map. destruct (Nat.eqb (List.length items) 0);
    [reflexivity|].
  rewrite headers_of_item, push_rows_of_item. reflexivity.
Qed.

(** *** Which records make the encoder throw *)

Lemma cell_throws_inv (item : BigItem) (header : jsstring) (e : thrown) :
  cell item header = Throw e ->
  exists d,
    assoc header item = Some d /\
    is_composite d = true /\ holds_bigint d = true.
Proof.
  unfold cell, Get. destruct (assoc header item) as [d|] eqn:Ha.
  - intros H. exists d. split; [reflexivity|].
    destruct d; cbn [typeof JSON_stringify String] in H;
      try discriminate;
      try (exfalso; revert H; vm_compute; discriminate);
      (split; [reflexivity|]);
      change (string_eqb (lit "object") (lit "object")) with true in H;
      cbn match in H;
      match type of H with
      | context [SerializeJSONProperty ?d] =>
          pose proof (SerializeJSONProperty_cases d) as S;
          unfold serializes in S;
          destruct (holds_bigint d); [reflexivity|];
          destruct S as [r [E _]]; rewrite E in H;
          destruct r; discriminate
      end.
  - destruct (assoc header Object_prototype) as [[d0|src]|];
      cbn [of_val]; [| vm_compute; discriminate | discriminate].
    intros H. exfalso. revert H.
    destruct d0; cbn [of_data typeof JSON_stringify String];
      try discriminate; try (vm_compute; discriminate);
      change (string_eqb (lit "object") (lit "object")) with true;
      cbn match.
    + change (BArray (map of_data elems)) with (of_data (DArray elems)).
      rewrite SerializeJSONProperty_of_data.
      destruct (JS.SerializeJSONProperty (DArray elems)); discriminate.
    + change (BObject (map (fun '(k, e) => (k, of_data e)) props))
        with (of_data (DObject props)).
      rewrite SerializeJSONProperty_of_data.
      destruct (JS.SerializeJSONProperty (DObject props)); discriminate.
Qed.

Lemma row_cells_throws_inv (item : BigItem) (headers : list jsstring)
    (e : thrown) :
  row_cells item headers = Throw e ->
  exists header, In header headers /\ cell item header = Throw e.
Proof.
  induction headers as [|h hs IH]; cbn [row_cells]; [discriminate|].
  destruct (cell item h) as [c|e'] eqn:E.
  - destruct (row_cells item hs) as [row|e'']; [discriminate|].
    intros H. injection H as <-.
    destruct (IH eq_refl) as [header [Hin Hc]].
    exists header. split; [right; exact Hin | exact Hc].
  - intros H. injection H as <-. exists h. split; [left; reflexivity|].
    exact E.
Qed.

Lemma push_rows_throws_inv (items : list BigItem) (headers : list jsstring)
    (e : thrown) :
  forall csvRows,
    push_rows items headers csvRows = Throw e ->
    exists item, In item items /\ row_cells item headers = Throw e.
Proof.
  induction items as [|i rest IH]; intros csvRows; cbn [push_rows];
    [discriminate|].
  destruct (row_cells i headers) as [row|e'] eqn:E.
  - intros H. destruct (IH _ H) as [item [Hin Hr]].
    exists item. split; [right; exact Hin | exact Hr].
  - intros H. injection H as <-. exists i. split; [left; reflexivity|].
    exact E.
Qed.

(** *** Every value without a BigInt is data of [jsdata] *)

Lemma of_data_onto (d : bigdata) :
  holds_bigint d = false -> exists d0, of_data d0 = d.
Proof.
  induction d as [| | b | text | digits | s | elems IH | props IH]
    using bigdata_nested_ind; cbn [holds_bigint]; intros H.
  - exists DUndefined. reflexivity.
  - exists DNull. reflexivity.
  - exists (DBoolean b). reflexivity.
  - exists (DNumber text). reflexivity.
  - discriminate.
  - exists (DString s). reflexivity.
  - assert (E : exists l0, map of_data l0 = elems).
    { induction IH as [|e l He Hl IHl]; [exists []; reflexivity|].
      cbn [existsb] in H. apply orb_false_elim in H as [H1 H2].
      destruct (He H1) as [e0 <-]. destruct (IHl H2) as [l0 <-].
      exists (e0 :: l0). reflexivity. }
    destruct E as [l0 <-]. exists (DArray l0). reflexivity.
  - assert (E : exists l0, map (fun '(k, e) => (k, of_data e)) l0 = props).
    { induction IH as [|[k e] l He Hl IHl]; [exists []; reflexivity|].
      cbn [existsb] in H. apply orb_false_elim in H as [H1 H2].
      cbn [snd] in He.
      destruct (He H1) as [e0 <-]. destruct (IHl H2) as [l0 <-].
      exists ((k, e0) :: l0). reflexivity. }
    destruct E as [l0 <-]. exists (DObject l0). reflexivity.
Qed.

Lemma of_item_onto (item : BigItem) :
  Forall (fun kv => holds_bigint (snd kv) = false) item ->
  exists item0, of_item item0 = item.
Proof.
  induction 1 as [|[k e] l He Hl IHl]; [exists []; reflexivity|].
  cbn [snd] in He. destruct (of_data_onto e He) as [e0 <-].
  destruct IHl as [l0 <-]. exists ((k, e0) :: l0). reflexivity.
Qed.

End BigFacts.
(** * The claims of the specification *)

Import JS Types Runtime Spec Examples JSFacts HeaderFacts EncoderFacts RunFacts.

(** ** C1: the header list *)

(** C1, as stated, fails: on a record whose field names are U+FF5E and
    U+1F600 the header list puts U+1F600 first (its leading surrogate
    0xD83D is below 0xFF5E), which is not ascending code-point order. *)
Lemma headers_not_in_code_point_order :
  ~ StronglySorted Spec.codepoint_lt (PublicUrl.headers items_two_planes).
Proof.
  assert (E : PublicUrl.headers items_two_planes
               = [key_grinning_face; key_fullwidth_tilde])
    by (vm_compute; reflexivity).
  rewrite E. intros H.
  inversion H as [|a l _ Hall]; subst.
  inversion Hall as [|b l' Hlt _]; subst.
  unfold Spec.codepoint_lt in Hlt.
  assert (F : Spec.codepoint_ltb key_grinning_face key_fullwidth_tilde = false)
    by (vm_compute; reflexivity).
  congruence.
Qed.

(** C1 (amended): the header list derived in convertToCSV is invariant
    under permutation of the record list, has no duplicate, and is strictly
    ascending in the lexicographic order of UTF-16 code units; that order
    is code-point order when no field name holds a surrogate code unit.
    Both handler variants derive the same list. *)
Theorem headers_invariant_unique_sorted (R R' : list TodoItem) :
  Permutation R R' ->
  PublicUrl.headers R' = PublicUrl.headers R /\
  NoDup (PublicUrl.headers R) /\
  StronglySorted string_lt (PublicUrl.headers R) /\
  (Forall surrogate_free (PublicUrl.headers R) ->
   StronglySorted Spec.codepoint_lt (PublicUrl.headers R)) /\
  Presigned.headers R = PublicUrl.headers R.
Proof.
  intros HP. repeat split.
  - apply headers_permutation, HP.
  - apply headers_NoDup.
  - apply headers_sorted.
  - intros Hb. apply sorted_lt_codepoints; [exact Hb | apply headers_sorted].
Qed.

Lemma headers_invariant_unique_sorted_witness :
  PublicUrl.headers (rev items_example) = PublicUrl.headers items_example /\
  NoDup (PublicUrl.headers items_example) /\
  StronglySorted string_lt (PublicUrl.headers items_example) /\
  (Forall surrogate_free (PublicUrl.headers items_example) ->
   StronglySorted Spec.codepoint_lt (PublicUrl.headers items_example)) /\
  Presigned.headers items_example = PublicUrl.headers items_example.
Proof.
  apply (headers_invariant_unique_sorted items_example (rev items_example)).
  apply Permutation_rev.
Defined.

Example headers_example :
  PublicUrl.headers items_example = [lit "id"; lit "priority"; lit "status"].
Proof. vm_compute. reflexivity. Qed.

(** ** C2: rows and cells of the document *)

(** C2 fails on the code: in the second record the field constructor is
    absent, yet its cell is not the empty cell.  The property read finds
    the function inherited from the object prototype, which is neither
    null nor undefined, and the row carries its source text. *)
Theorem convertToCSV_absent_field_inherited :
  PublicUrl.headers items_inherited_name = [lit "constructor"; lit "id"] /\
  assoc (lit "constructor") [ (lit "id", DString (lit "1")) ] = None /\
  PublicUrl.cell [ (lit "id", DString (lit "1")) ] (lit "constructor")
  = quoted "function Object() { [native code] }" /\
  PublicUrl.convertToCSV items_inherited_name
  = quoted "constructor" ++ [COMMA] ++ quoted "id" ++ [LF]
    ++ quoted "x" ++ [COMMA] ++ [QUOTE; QUOTE] ++ [LF]
    ++ quoted "function Object() { [native code] }" ++ [COMMA]
    ++ quoted "1" ++ [LF].
Proof. repeat split; vm_compute; reflexivity. Qed.

(** ** C3: quoting and escaping *)

(** C3: every cell of the document, header cells included, is its content
    between two double quotes whatever the content is; the content of a
    data cell is the text of the value with each double quote replaced by
    two; the value [he_said_hi] (he said, then hi between quotes) gives
    the cell in which each of its two quotes is doubled. *)
Theorem convertToCSV_quotes_every_cell (items : list TodoItem) :
  items <> [] ->
  PublicUrl.convertToCSV items
  = join [LF]
      (map (fun contents => join [COMMA] (map wrap_quotes contents))
         (PublicUrl.headers items
          :: map (fun item =>
                    map (fun header => replace_quotes (Spec.cell_text item header))
                      (PublicUrl.headers items))
               items))
    ++ [LF] /\
  (forall a b : jsstring,
      replace_quotes (a ++ QUOTE :: b)
      = replace_quotes a ++ [QUOTE; QUOTE] ++ replace_quotes b) /\
  (forall s : jsstring, ~ In QUOTE s -> replace_quotes s = s) /\
  PublicUrl.cell [ (lit "note", DString he_said_hi) ] (lit "note")
  = [QUOTE] ++ lit "he said " ++ [QUOTE; QUOTE] ++ lit "hi"
    ++ [QUOTE; QUOTE] ++ [QUOTE].
Proof.
  intros Hne. split; [|split; [|split]].
  - rewrite convertToCSV_rows by exact Hne. cbn [map].
    do 3 f_equal.
    rewrite map_map. apply map_ext. intros item.
    rewrite map_map. f_equal. apply map_ext. intros h.
    apply cell_quote_cell.
  - apply replace_quotes_at_quote.
  - apply replace_quotes_id.
  - vm_compute. reflexivity.
Qed.

Lemma convertToCSV_quotes_every_cell_witness :
  PublicUrl.convertToCSV items_example
  = join [LF]
      (map (fun contents => join [COMMA] (map wrap_quotes contents))
         (PublicUrl.headers items_example
          :: map (fun item =>
                    map (fun header => replace_quotes (Spec.cell_text item header))
                      (PublicUrl.headers items_example))
               items_example))
    ++ [LF] /\
  (forall a b : jsstring,
      replace_quotes (a ++ QUOTE :: b)
      = replace_quotes a ++ [QUOTE; QUOTE] ++ replace_quotes b) /\
  (forall s : jsstring, ~ In QUOTE s -> replace_quotes s = s) /\
  PublicUrl.cell [ (lit "note", DString he_said_hi) ] (lit "note")
  = [QUOTE] ++ lit "he said " ++ [QUOTE; QUOTE] ++ lit "hi"
    ++ [QUOTE; QUOTE] ++ [QUOTE].
Proof.
  apply (convertToCSV_quotes_every_cell items_example). discriminate.
Defined.

(** ** C6: objects and arrays *)

Import BigFacts.




(** ** C7: decoding the document *)

(** C7 fails on the code: the header row is written without doubling the
    quotes of a field name, so for that single field name it reads as the
    two cells a and b, and decoding does not give back the header list. *)
Theorem decode_loses_quoted_header :
  PublicUrl.headers items_quoted_name = [key_with_quotes] /\
  PublicUrl.convertToCSV items_quoted_name
  = quoted "a" ++ [COMMA] ++ quoted "b" ++ [LF] ++ quoted "1" ++ [LF] /\
  Spec.decode (PublicUrl.convertToCSV items_quoted_name)
  = Some [ [lit "a"; lit "b"]; [lit "1"] ].
Proof. repeat split; vm_compute; reflexivity. Qed.

(** ** C9: the two encoders *)

(** C9: the encoders of the two handler variants return the same document
    for every record list (and derive the same headers and cells). *)
Theorem convertToCSV_variants_agree (items : list TodoItem) :
  Presigned.convertToCSV items = PublicUrl.convertToCSV items /\
  Presigned.headers items = PublicUrl.headers items /\
  (forall item header,
      Presigned.cell item header = PublicUrl.cell item header).
Proof.
  split; [|split].
  - unfold Presigned.convertToCSV, PublicUrl.convertToCSV. reflexivity.
  - unfold Presigned.headers, PublicUrl.headers. reflexivity.
  - intros item header. unfold Presigned.cell, PublicUrl.cell. reflexivity.
Qed.

(** ** C10: the empty string and the missing field *)

(** C10 fails on the code: a field holding the empty string gives the
    empty cell, but an absent field does not always give the same.  In the
    first record of the second list the field constructor is absent, and
    its cell carries the source text of the function inherited from the
    object prototype; the two lists, which differ only in that this record
    holds the empty string there in the first list, have different
    documents. *)
Theorem empty_string_differs_from_absent_inherited :
  PublicUrl.cell
    [ (lit "id", DString (lit "1")); (lit "constructor", DString []) ]
    (lit "constructor")
  = [QUOTE; QUOTE] /\
  assoc (lit "constructor") [ (lit "id", DString (lit "1")) ] = None /\
  PublicUrl.cell [ (lit "id", DString (lit "1")) ] (lit "constructor")
  = quoted "function Object() { [native code] }" /\
  PublicUrl.convertToCSV items_empty_constructor
  = quoted "constructor" ++ [COMMA] ++ quoted "id" ++ [LF]
    ++ [QUOTE; QUOTE] ++ [COMMA] ++ quoted "1" ++ [LF]
    ++ quoted "x" ++ [COMMA] ++ quoted "2" ++ [LF] /\
  PublicUrl.convertToCSV items_no_constructor
  = quoted "constructor" ++ [COMMA] ++ quoted "id" ++ [LF]
    ++ quoted "function Object() { [native code] }" ++ [COMMA]
    ++ quoted "1" ++ [LF]
    ++ quoted "x" ++ [COMMA] ++ quoted "2" ++ [LF] /\
  PublicUrl.convertToCSV items_empty_constructor
  <> PublicUrl.convertToCSV items_no_constructor.
Proof.
  repeat split; try (vm_compute; reflexivity).
  vm_compute. discriminate.
Qed.

(** ** C4: an empty table *)

Lemma export_with_encoder {SV : Services} (env : EnvironmentVariables)
    (fuel : nat) :
  export_with env PublicUrl.convertToCSV fuel
  = PublicUrl.exportTodoItems env fuel.
Proof. reflexivity. Qed.

Lemma export_presigned_with_encoder {SV : Services}
    (env : EnvironmentVariables) (fuel : nat) :
  export_presigned_with env Presigned.convertToCSV fuel
  = Presigned.exportTodoItems env fuel.
Proof. reflexivity. Qed.

(** C4, as stated, fails: on an empty table the scan returns no record and
    the coordinator returns an outcome other than the one C4 names (its
    file name is empty-export.csv and its message No items found in the
    table). *)
Lemma empty_export_outcome_differs :
  fst (PublicUrl.scanTodoItems Fake.env 1 (Fake.start [] None None))
  = Returned [] /\
  fst (PublicUrl.exportTodoItems Fake.env 1 (Fake.start [] None None))
  <> Returned claimed_empty_outcome.
Proof.
  split; [vm_compute; reflexivity|].
  assert (E : fst (PublicUrl.exportTodoItems Fake.env 1
                     (Fake.start [] None None))
              = Returned empty_export_outcome)
    by (vm_compute; reflexivity).
  rewrite E. intros H. injection H as H. vm_compute in H. discriminate.
Qed.

(** C4 (amended): when the fetch stage returns zero records, either
    coordinator returns success with file name empty-export.csv and message
    No items found in the table (no key, no URL), in the state the fetch
    stage ended in: the only requests of the run are scan requests, so
    nothing is stored, signed or published, and the outcome does not depend
    on the encoder. *)
Theorem empty_fetch_ends_the_run {SV : Services} (env : EnvironmentVariables)
    (fuel : nat) (st st' : state) :
  PublicUrl.scanTodoItems env fuel st = (Returned [], st') ->
  PublicUrl.exportTodoItems env fuel st = (Returned empty_export_outcome, st') /\
  Presigned.exportTodoItems env fuel st = (Returned empty_export_outcome, st') /\
  (forall encode,
      export_with env encode fuel st = (Returned empty_export_outcome, st') /\
      export_presigned_with env encode fuel st
      = (Returned empty_export_outcome, st')) /\
  extends is_scan st st'.
Proof.
  intros Hscan.
  assert (Hw : forall encode,
             export_with env encode fuel st
             = (Returned empty_export_outcome, st') /\
             export_presigned_with env encode fuel st
             = (Returned empty_export_outcome, st')).
  { intros encode. unfold export_with, export_presigned_with.
    change (Presigned.scanTodoItems env fuel)
      with (PublicUrl.scanTodoItems env fuel).
    unfold try_catch, bind. rewrite Hscan. split; reflexivity. }
  split; [|split; [|split]].
  - rewrite <- export_with_encoder. apply Hw.
  - rewrite <- export_presigned_with_encoder. apply Hw.
  - exact Hw.
  - pose proof (scanTodoItems_sends_only env is_scan fuel
                  (fun _ => I) st) as H.
    rewrite Hscan in H. exact H.
Qed.

Lemma empty_fetch_ends_the_run_witness :
  let st := Fake.start [] None None in
  let st' := snd (PublicUrl.scanTodoItems Fake.env 1 st) in
  PublicUrl.exportTodoItems Fake.env 1 st = (Returned empty_export_outcome, st') /\
  Presigned.exportTodoItems Fake.env 1 st = (Returned empty_export_outcome, st') /\
  (forall encode,
      export_with Fake.env encode 1 st = (Returned empty_export_outcome, st') /\
      export_presigned_with Fake.env encode 1 st
      = (Returned empty_export_outcome, st')) /\
  extends is_scan st st'.
Proof.
  apply (empty_fetch_ends_the_run Fake.env 1 (Fake.start [] None None)).
  reflexivity.
Defined.

(** ** C5: failures stay inside the coordinator *)

(** C5: when the storage write fails, the coordinator returns the failure
    outcome carrying the message of the fault and no notification request
    is sent; and the coordinator never raises: whenever the scan loop comes
    to an end within its budget it returns an ExportResult, the same for
    every larger budget.  Both variants. *)
Theorem storage_failure_is_returned {SV : Services}
    (env : EnvironmentVariables) (fuel : nat) (st st1 st2 : state)
    (items : list TodoItem) (e : thrown) :
  PublicUrl.scanTodoItems env fuel st = (Returned items, st1) ->
  items <> [] ->
  PublicUrl.uploadToS3 env (PublicUrl.convertToCSV items) st1
  = (Raised e, st2) ->
  (PublicUrl.exportTodoItems env fuel st = (Returned (failure_outcome e), st2) /\
   extends not_publish st st2) /\
  (forall st2',
      Presigned.uploadToS3 env (Presigned.convertToCSV items) st1
      = (Raised e, st2') ->
      Presigned.exportTodoItems env fuel st
      = (Returned (failure_outcome e), st2') /\
      extends not_publish st st2') /\
  (forall fuel0 st0,
      match fst (PublicUrl.exportTodoItems env fuel0 st0) with
      | Returned _ => True
      | Raised _ => False
      | OutOfFuel => fst (PublicUrl.scanTodoItems env fuel0 st0) = OutOfFuel
      end) /\
  (forall fuel0 st0,
      match fst (Presigned.exportTodoItems env fuel0 st0) with
      | Returned _ => True
      | Raised _ => False
      | OutOfFuel => fst (Presigned.scanTodoItems env fuel0 st0) = OutOfFuel
      end) /\
  (forall fuel0 st0,
      fst (PublicUrl.scanTodoItems env fuel0 st0) <> OutOfFuel ->
      (exists r st',
          forall extra,
            PublicUrl.exportTodoItems env (extra + fuel0) st0
            = (Returned r, st')) /\
      (exists r st',
          forall extra,
            Presigned.exportTodoItems env (extra + fuel0) st0
            = (Returned r, st'))).
Proof.
  intros Hscan Hne Hup.
  assert (Hs : extends not_publish st st1).
  { pose proof (scanTodoItems_sends_only env not_publish fuel
                  (fun _ => I) st) as H.
    rewrite Hscan in H. exact H. }
  destruct items as [|item items]; [contradiction|].
  split; [|split; [|split; [|split]]].
  - split.
    + unfold PublicUrl.exportTodoItems, try_catch, bind.
      rewrite Hscan. cbn [List.length Nat.eqb]. rewrite Hup.
      destruct e; reflexivity.
    + eapply extends_trans; [exact Hs|].
      pose proof (uploadToS3_sends_only env not_publish
                    (PublicUrl.convertToCSV (item :: items))
                    (fun _ => I) st1) as H.
      rewrite Hup in H. exact H.
  - intros st2' Hup'. split.
    + unfold Presigned.exportTodoItems, try_catch, bind.
      change (Presigned.scanTodoItems env fuel)
        with (PublicUrl.scanTodoItems env fuel).
      rewrite Hscan. cbn [List.length Nat.eqb].
      rewrite Hup'. destruct e; reflexivity.
    + eapply extends_trans; [exact Hs|].
      pose proof (uploadToS3_presigned_sends_only env not_publish
                    (Presigned.convertToCSV (item :: items))
                    (fun _ => I) st1) as H.
      rewrite Hup' in H. exact H.
  - intros fuel0 st0. apply exportTodoItems_never_raises.
  - intros fuel0 st0. apply exportTodoItems_presigned_never_raises.
  - intros fuel0 st0 H. split.
    + apply exportTodoItems_returns, H.
    + apply exportTodoItems_presigned_returns, H.
Qed.

Lemma storage_failure_is_returned_witness :
  let st := Fake.start [items_example] (Some access_denied) None in
  let st1 := snd (PublicUrl.scanTodoItems Fake.env 1 st) in
  let st2 :=
    snd (PublicUrl.uploadToS3 Fake.env (PublicUrl.convertToCSV items_example)
           st1) in
  PublicUrl.exportTodoItems Fake.env 1 st
  = (Returned (failure_outcome access_denied), st2) /\
  extends not_publish st st2.
Proof.
  intros st st1 st2.
  refine (proj1 (storage_failure_is_returned Fake.env 1 st st1 st2
                   items_example access_denied _ _ _)).
  - vm_compute. reflexivity.
  - discriminate.
  - vm_compute. reflexivity.
Defined.

(** ** C8: the artifact key *)

Lemma replace_colon_dot_spec (s : jsstring) :
  List.length (replace_colon_dot s) = List.length s /\
  Forall (fun c => c <> COLON /\ c <> FULL_STOP) (replace_colon_dot s) /\
  (forall i c,
      nth_error s i = Some c ->
      nth_error (replace_colon_dot s) i
      = Some (if N.eqb c COLON || N.eqb c FULL_STOP then HYPHEN else c)).
Proof.
  unfold replace_colon_dot. split; [apply length_map|]. split.
  - apply Forall_forall. intros c Hc.
    apply in_map_iff in Hc as [c0 [<- _]].
    destruct (N.eqb_spec c0 58); [split; discriminate|].
    destruct (N.eqb_spec c0 46); [split; discriminate|].
    split; assumption.
  - intros i c H. rewrite nth_error_map, H. reflexivity.
Qed.

Lemma uploadToS3_request {SV : Services} (env : EnvironmentVariables)
    (csvContent : jsstring) (st : state) :
  exists input,
    trace (snd (PublicUrl.uploadToS3 env csvContent st))
    = trace st ++ [EvPut input] /\
    Key input = artifact_key (fst (clock (world st))) /\
    Body input = csvContent /\
    Bucket input = S3_BUCKET_NAME env /\
    (forall key url st',
        PublicUrl.uploadToS3 env csvContent st = (Returned (key, url), st') ->
        key = Key input).
Proof.
  unfold PublicUrl.uploadToS3, bind, Date_now, call.
  destruct (clock (world st)) as [t w]. cbn [world trace fst].
  eexists. split; [|split; [|split; [|split]]].
  - destruct (s3Client_send _ w) as [[[]|e] w']; reflexivity.
  - reflexivity.
  - reflexivity.
  - reflexivity.
  - intros key url st'.
    destruct (s3Client_send _ w) as [[[]|e] w']; cbn [lift ret raise];
      intros H; [injection H as <- _ _; reflexivity | discriminate].
Qed.

Lemma uploadToS3_presigned_request {SV : Services}
    (env : EnvironmentVariables) (csvContent : jsstring) (st : state) :
  exists input,
    trace (snd (Presigned.uploadToS3 env csvContent st))
    = trace st ++ [EvPut input] /\
    Key input = artifact_key (fst (clock (world st))) /\
    Body input = csvContent /\
    Bucket input = S3_BUCKET_NAME env /\
    (forall key st',
        Presigned.uploadToS3 env csvContent st = (Returned key, st') ->
        key = Key input).
Proof.
  unfold Presigned.uploadToS3, bind, Date_now, call.
  destruct (clock (world st)) as [t w]. cbn [world trace fst].
  eexists. split; [|split; [|split; [|split]]].
  - destruct (s3Client_send _ w) as [[[]|e] w']; reflexivity.
  - reflexivity.
  - reflexivity.
  - reflexivity.
  - intros key st'.
    destruct (s3Client_send _ w) as [[[]|e] w']; cbn [lift ret raise];
      intros H; [injection H as <- _; reflexivity | discriminate].
Qed.

Lemma uploadToS3_key_form {SV : Services} (env : EnvironmentVariables)
    (csvContent : jsstring) :
  sends_only put_has_artifact_key (PublicUrl.uploadToS3 env csvContent) /\
  sends_only put_has_artifact_key (Presigned.uploadToS3 env csvContent).
Proof.
  split; intros st.
  - destruct (uploadToS3_request env csvContent st) as [input [Ht [Hk _]]].
    exists [EvPut input]. split; [exact Ht|].
    repeat constructor. exists (fst (clock (world st))). exact Hk.
  - destruct (uploadToS3_presigned_request env csvContent st)
      as [input [Ht [Hk _]]].
    exists [EvPut input]. split; [exact Ht|].
    repeat constructor. exists (fst (clock (world st))). exact Hk.
Qed.

(** C8: the storage step sends exactly one storage request, whose key is
    the prefix todo-export- followed by the ISO-8601 text of the time read
    from the clock at that step, with every colon and full stop replaced
    by a hyphen, followed by .csv; that key is the one returned to the
    coordinator, and every storage request of a run of either coordinator
    carries a key of this form. *)
Theorem artifact_key_format {SV : Services} (env : EnvironmentVariables) :
  (forall csvContent st,
      exists input,
        trace (snd (PublicUrl.uploadToS3 env csvContent st))
        = trace st ++ [EvPut input] /\
        Key input = artifact_key (fst (clock (world st))) /\
        (forall key url st',
            PublicUrl.uploadToS3 env csvContent st
            = (Returned (key, url), st') ->
            key = Key input)) /\
  (forall csvContent st,
      exists input,
        trace (snd (Presigned.uploadToS3 env csvContent st))
        = trace st ++ [EvPut input] /\
        Key input = artifact_key (fst (clock (world st))) /\
        (forall key st',
            Presigned.uploadToS3 env csvContent st = (Returned key, st') ->
            key = Key input)) /\
  (forall fuel st,
      extends put_has_artifact_key st
        (snd (PublicUrl.exportTodoItems env fuel st)) /\
      extends put_has_artifact_key st
        (snd (Presigned.exportTodoItems env fuel st))) /\
  (forall t,
      artifact_key t
      = lit "todo-export-" ++ replace_colon_dot (toISOString t) ++ lit ".csv" /\
      List.length (replace_colon_dot (toISOString t))
      = List.length (toISOString t) /\
      Forall (fun c => c <> COLON /\ c <> FULL_STOP)
        (replace_colon_dot (toISOString t)) /\
      (forall i c,
          nth_error (toISOString t) i = Some c ->
          nth_error (replace_colon_dot (toISOString t)) i
          = Some (if N.eqb c COLON || N.eqb c FULL_STOP then HYPHEN else c))) /\
  toISOString 1705314600123 = lit "2024-01-15T10:30:00.123Z" /\
  artifact_key 1705314600123 = lit "todo-export-2024-01-15T10-30-00-123Z.csv".
Proof.
  split; [|split; [|split; [|split; [|split]]]].
  - intros csvContent st.
    destruct (uploadToS3_request env csvContent st)
      as [input [Ht [Hk [_ [_ Hr]]]]].
    exists input. auto.
  - intros csvContent st.
    destruct (uploadToS3_presigned_request env csvContent st)
      as [input [Ht [Hk [_ [_ Hr]]]]].
    exists input. auto.
  - intros fuel st. split.
    + unfold PublicUrl.exportTodoItems.
      apply sends_only_try_catch; [|intros e; apply sends_only_ret].
      apply sends_only_bind;
        [apply scanTodoItems_sends_only; intros input; exact I|].
      intros todoItems.
      destruct (Nat.eqb (List.length todoItems) 0); [apply sends_only_ret|].
      apply sends_only_bind; [apply uploadToS3_key_form|].
      intros upload. apply sends_only_bind; [|intros _; apply sends_only_ret].
      unfold PublicUrl.sendNotification.
      apply sends_only_bind; [apply sends_only_Date_now|]. intros now.
      apply sends_only_call. exact I.
    + unfold Presigned.exportTodoItems.
      apply sends_only_try_catch; [|intros e; apply sends_only_ret].
      apply sends_only_bind;
        [apply (scanTodoItems_sends_only env); intros input; exact I|].
      intros todoItems.
      destruct (Nat.eqb (List.length todoItems) 0); [apply sends_only_ret|].
      apply sends_only_bind; [apply uploadToS3_key_form|].
      intros key. apply sends_only_bind.
      { unfold Presigned.generatePresignedUrl.
        apply sends_only_bind; [apply sends_only_call; exact I|].
        intros url. apply sends_only_ret. }
      intros url. apply sends_only_bind; [|intros _; apply sends_only_ret].
      unfold Presigned.sendNotification.
      apply sends_only_bind; [apply sends_only_Date_now|]. intros t.
      apply sends_only_bind; [apply sends_only_Date_now|]. intros now.
      apply sends_only_call. exact I.
  - intros t. split; [reflexivity|]. apply replace_colon_dot_spec.
  - vm_compute. reflexivity.
  - vm_compute. reflexivity.
Qed.

(** ** Further properties of the encoder and of the coordinator *)

(** X1: the document of a non-empty record list is the header row followed
    by one row per record in input order, the rows joined by newlines and
    ended by one newline, every row of as many cells as there are headers;
    and the cell of a field that is null, undefined, or absent under a name
    the object prototype does not define is the empty cell. *)
Theorem document_rows_and_empty_cells (items : list TodoItem) :
  items <> [] ->
  (exists rows : list (list jsstring),
      PublicUrl.convertToCSV items
      = join [LF] (map (join [COMMA]) rows) ++ [LF] /\
      List.length rows = S (List.length items) /\
      Forall (fun row =>
                List.length row = List.length (PublicUrl.headers items))
        rows /\
      rows
      = map wrap_quotes (PublicUrl.headers items)
        :: map (fun item => map (PublicUrl.cell item) (PublicUrl.headers items))
             items) /\
  (forall item header,
      assoc header item = Some DNull \/
      assoc header item = Some DUndefined \/
      (assoc header item = None /\ inherited header = false) ->
      PublicUrl.cell item header = [QUOTE; QUOTE]).
Proof.
  intros Hne. split.
  - apply convertToCSV_shape, Hne.
  - apply cell_empty_value.
Qed.

Lemma document_rows_and_empty_cells_witness :
  (exists rows : list (list jsstring),
      PublicUrl.convertToCSV items_example
      = join [LF] (map (join [COMMA]) rows) ++ [LF] /\
      List.length rows = S (List.length items_example) /\
      Forall (fun row =>
                List.length row
                = List.length (PublicUrl.headers items_example))
        rows /\
      rows
      = map wrap_quotes (PublicUrl.headers items_example)
        :: map (fun item =>
                  map (PublicUrl.cell item) (PublicUrl.headers items_example))
             items_example) /\
  (forall item header,
      assoc header item = Some DNull \/
      assoc header item = Some DUndefined \/
      (assoc header item = None /\ inherited header = false) ->
      PublicUrl.cell item header = [QUOTE; QUOTE]).
Proof.
  apply (document_rows_and_empty_cells items_example). discriminate.
Defined.

(** X2: when no field name holds a double quote, decoding the document of
    a non-empty record list gives back the header list followed, record by
    record, by the text of each cell; for a field holding a string, a
    number or a boolean that text is the string conversion of its value. *)
Theorem decode_recovers_document (items : list TodoItem) :
  items <> [] ->
  Forall (fun h => ~ In QUOTE h) (PublicUrl.headers items) ->
  Spec.decode (PublicUrl.convertToCSV items)
  = Some (PublicUrl.headers items
          :: map (fun item =>
                    map (Spec.cell_text item) (PublicUrl.headers items))
               items) /\
  (forall item header d,
      assoc header item = Some d -> Spec.is_scalar d = true ->
      Spec.cell_text item header = ToString_data d).
Proof.
  intros Hne Hq. split.
  - apply decode_convertToCSV; assumption.
  - apply cell_text_scalar.
Qed.

Lemma decode_recovers_document_witness :
  Spec.decode (PublicUrl.convertToCSV items_example)
  = Some (PublicUrl.headers items_example
          :: map (fun item =>
                    map (Spec.cell_text item) (PublicUrl.headers items_example))
               items_example) /\
  (forall item header d,
      assoc header item = Some d -> Spec.is_scalar d = true ->
      Spec.cell_text item header = ToString_data d).
Proof.
  apply (decode_recovers_document items_example); [discriminate|].
  change (PublicUrl.headers items_example)
    with [lit "id"; lit "priority"; lit "status"].
  repeat constructor; intros H; vm_compute in H; intuition discriminate.
Defined.

(** X3: when the notification fails after the document was stored, the
    coordinator returns the failure outcome carrying the message of the
    fault, and the storage request stays in the run: the stored file is
    left behind. *)
Theorem notification_failure_leaves_artifact {SV : Services}
    (env : EnvironmentVariables) (fuel : nat) (st st1 st2 st3 : state)
    (items : list TodoItem) (key url : jsstring) (e : thrown) :
  PublicUrl.scanTodoItems env fuel st = (Returned items, st1) ->
  items <> [] ->
  PublicUrl.uploadToS3 env (PublicUrl.convertToCSV items) st1
  = (Returned (key, url), st2) ->
  PublicUrl.sendNotification env key url st2 = (Raised e, st3) ->
  PublicUrl.exportTodoItems env fuel st = (Returned (failure_outcome e), st3) /\
  exists input before after,
    trace st3 = trace st ++ before ++ [EvPut input] ++ after /\
    Key input = key /\
    Body input = PublicUrl.convertToCSV items.
Proof.
  intros Hscan Hne Hup Hsend.
  destruct items as [|item items]; [contradiction|].
  split.
  - unfold PublicUrl.exportTodoItems, try_catch, bind.
    rewrite Hscan. cbn [List.length Nat.eqb]. rewrite Hup.
    cbn [fst snd]. rewrite Hsend. destruct e; reflexivity.
  - pose proof (scanTodoItems_sends_only env (fun _ => True) fuel
                  (fun _ => I) st) as [before [Hb _]].
    rewrite Hscan in Hb. cbn [snd] in Hb.
    destruct (uploadToS3_request env (PublicUrl.convertToCSV (item :: items))
                st1) as [input [Ht [_ [Hbody [_ Hkey]]]]].
    rewrite Hup in Ht. cbn [snd] in Ht.
    assert (Hafter : sends_only (fun _ => True)
                       (PublicUrl.sendNotification env key url)).
    { unfold PublicUrl.sendNotification.
      apply sends_only_bind; [apply sends_only_Date_now|]. intros now.
      apply sends_only_call. exact I. }
    destruct (Hafter st2) as [after [Ha _]].
    rewrite Hsend in Ha. cbn [snd] in Ha.
    exists input, before, after. split; [|split].
    + rewrite Ha, Ht, Hb, <- !app_assoc. reflexivity.
    + symmetry. eapply Hkey. exact Hup.
    + exact Hbody.
Qed.

Lemma notification_failure_leaves_artifact_witness :
  let st := Fake.start [items_example] None (Some access_denied) in
  let st1 := snd (PublicUrl.scanTodoItems Fake.env 1 st) in
  let up :=
    PublicUrl.uploadToS3 Fake.env (PublicUrl.convertToCSV items_example) st1 in
  let st3 :=
    snd (PublicUrl.sendNotification Fake.env
           (artifact_key 1705314600123)
           (lit "https://exports.s3.amazonaws.com/"
            ++ artifact_key 1705314600123)
           (snd up)) in
  PublicUrl.exportTodoItems Fake.env 1 st
  = (Returned (failure_outcome access_denied), st3).
Proof.
  intros st st1 up st3.
  refine (proj1 (notification_failure_leaves_artifact Fake.env 1 st st1
                   (snd up) st3 items_example
                   (artifact_key 1705314600123)
                   (lit "https://exports.s3.amazonaws.com/"
                    ++ artifact_key 1705314600123)
                   access_denied _ _ _ _)).
  - vm_compute. reflexivity.
  - discriminate.
  - vm_compute. reflexivity.
  - vm_compute. reflexivity.
Defined.

(** * Further properties of the code *)

Import Behaviour Scenarios.

(** ** The encoder *)

Lemma assoc_In {A : Type} (k : jsstring) (v : A) (l : list (jsstring * A)) :
  assoc k l = Some v -> In (k, v) l.
Proof.
  induction l as [|[k' v'] l IH]; cbn [assoc]; [discriminate|].
  destruct (string_eqb k k') eqn:E.
  - apply string_eqb_eq in E. subst k'. intros H. injection H as ->.
    left. reflexivity.
  - intros H. right. apply IH, H.
Qed.

Lemma assoc_None_keys {A : Type} (k : jsstring) (l : list (jsstring * A)) :
  assoc k l = None <-> ~ In k (map fst l).
Proof.
  induction l as [|[k' v'] l IH]; cbn [assoc map fst].
  - split; [intros _ [] | reflexivity].
  - destruct (string_eqb k k') eqn:E.
    + apply string_eqb_eq in E. subst k'. split; [discriminate|].
      intros H. exfalso. apply H. left. reflexivity.
    + rewrite IH. split.
      * intros H [Hk|Hin]; [|exact (H Hin)].
        subst k'. rewrite string_eqb_refl in E. discriminate.
      * intros H Hin. apply H. right. exact Hin.
Qed.

Lemma assoc_NoDup_In {A : Type} (k : jsstring) (v : A)
    (l : list (jsstring * A)) :
  NoDup (map fst l) -> In (k, v) l -> assoc k l = Some v.
Proof.
  induction l as [|[k' v'] l IH]; cbn [assoc map fst]; intros Hnd Hin;
    [contradiction|].
  inversion Hnd as [|? ? Hnotin Hnd']; subst.
  destruct Hin as [E|Hin].
  - injection E as -> ->. rewrite string_eqb_refl. reflexivity.
  - destruct (string_eqb k k') eqn:E; [|apply IH; assumption].
    apply string_eqb_eq in E. subst k'. exfalso. apply Hnotin.
    apply (in_map fst) in Hin. exact Hin.
Qed.

(** A property read depends on the properties of a record, not on the
    order they are listed in. *)
Lemma assoc_permutation {A : Type} (k : jsstring) (l l' : list (jsstring * A)) :
  NoDup (map fst l) -> Permutation l l' -> assoc k l' = assoc k l.
Proof.
  intros Hnd HP.
  assert (Hnd' : NoDup (map fst l')).
  { eapply Permutation_NoDup; [apply Permutation_map; exact HP | exact Hnd]. }
  destruct (assoc k l) as [v|] eqn:E.
  - apply assoc_NoDup_In; [exact Hnd'|].
    eapply Permutation_in; [exact HP | apply assoc_In, E].
  - apply assoc_None_keys. apply assoc_None_keys in E. intros Hin. apply E.
    eapply Permutation_in; [symmetry; apply Permutation_map; exact HP|].
    exact Hin.
Qed.

(** X4: a field name is a header of the document exactly when some record
    of the list has a property of that name, whatever its value (null and
    undefined included); in particular no header is invented and none is
    lost. *)
Theorem headers_are_the_field_names (items : list TodoItem) (name : jsstring) :
  In name (PublicUrl.headers items)
  <-> exists item value, In item items /\ In (name, value) item.
Proof.
  rewrite headers_In. split.
  - intros [item [Hi Hk]]. unfold Object_keys in Hk.
    apply in_map_iff in Hk as [[k v] [E Hin]]. cbn in E. subst k.
    exists item, v. split; assumption.
  - intros [item [v [Hi Hin]]]. exists item. split; [exact Hi|].
    unfold Object_keys. apply (in_map fst) in Hin. exact Hin.
Qed.

Lemma cell_same_properties (item item' : TodoItem) (header : jsstring) :
  same_properties item item' ->
  PublicUrl.cell item' header = PublicUrl.cell item header.
Proof.
  intros [Hnd HP]. unfold PublicUrl.cell, Get.
  rewrite (assoc_permutation header item item' Hnd HP). reflexivity.
Qed.

Lemma Forall2_In_left {A B : Type} (R : A -> B -> Prop) (l : list A)
    (l' : list B) (x : A) :
  Forall2 R l l' -> In x l -> exists y, In y l' /\ R x y.
Proof.
  induction 1 as [|a b l l' Hab HF IH]; intros Hin; [contradiction|].
  destruct Hin as [<-|Hin].
  - exists b. split; [left; reflexivity | exact Hab].
  - destruct (IH Hin) as [y [Hy HR]]. exists y. split; [right|]; assumption.
Qed.

Lemma Forall2_In_right {A B : Type} (R : A -> B -> Prop) (l : list A)
    (l' : list B) (y : B) :
  Forall2 R l l' -> In y l' -> exists x, In x l /\ R x y.
Proof.
  induction 1 as [|a b l l' Hab HF IH]; intros Hin; [contradiction|].
  destruct Hin as [<-|Hin].
  - exists a. split; [left; reflexivity | exact Hab].
  - destruct (IH Hin) as [x [Hx HR]]. exists x. split; [right|]; assumption.
Qed.

Lemma headers_same_properties (items items' : list TodoItem) :
  Forall2 same_properties items items' ->
  PublicUrl.headers items' = PublicUrl.headers items.
Proof.
  intros HF. apply headers_same_keys. intros x. split.
  - intros [item' [Hi Hx]].
    destruct (Forall2_In_right _ _ _ _ HF Hi) as [item [Hin [_ HP]]].
    exists item. split; [exact Hin|].
    unfold Object_keys in *. eapply Permutation_in; [|exact Hx].
    symmetry. apply Permutation_map, HP.
  - intros [item [Hi Hx]].
    destruct (Forall2_In_left _ _ _ _ HF Hi) as [item' [Hin [_ HP]]].
    exists item'. split; [exact Hin|].
    unfold Object_keys in *. eapply Permutation_in; [|exact Hx].
    apply Permutation_map, HP.
Qed.

(** X5: the document does not depend on the order in which the properties
    of a record are enumerated: two record lists whose records hold, one by
    one, the same properties have the same document. *)
Theorem document_ignores_property_order (items items' : list TodoItem) :
  Forall2 same_properties items items' ->
  PublicUrl.convertToCSV items' = PublicUrl.convertToCSV items.
Proof.
  intros HF.
  destruct HF as [|item item' items items' H1 HF].
  - reflexivity.
  - assert (HF' : Forall2 same_properties (item :: items) (item' :: items'))
      by (constructor; assumption).
    rewrite !convertToCSV_rows by discriminate.
    rewrite (headers_same_properties _ _ HF').
    do 3 f_equal.
    clear H1 HF. generalize (PublicUrl.headers (item :: items)) as hs.
    intros hs. induction HF' as [|a b l l' Hab HF IH]; [reflexivity|].
    cbn [map]. f_equal; [|exact IH].
    f_equal. apply map_ext. intros h. apply cell_same_properties, Hab.
Qed.

Lemma document_ignores_property_order_witness :
  PublicUrl.convertToCSV
    [ [ (lit "status", DString (lit "pending")); (lit "id", DString (lit "1")) ];
      [ (lit "priority", DString (lit "high")); (lit "id", DString (lit "2")) ] ]
  = PublicUrl.convertToCSV items_example.
Proof.
  apply (document_ignores_property_order items_example).
  repeat constructor; cbn; intuition discriminate.
Defined.

(** The document of a record list that is not empty is not the text that
    stands for no data. *)
Lemma document_is_not_the_placeholder (items : list TodoItem) :
  items <> [] ->
  PublicUrl.convertToCSV items <> PublicUrl.convertToCSV [].
Proof.
  intros Hne. rewrite convertToCSV_rows by exact Hne.
  destruct items as [|item items]; [contradiction|].
  destruct (PublicUrl.headers (item :: items)) as [|h hs].
  - cbn [map join]. destruct items; cbn; discriminate.
  - cbn [map]. destruct hs; destruct items; cbn; discriminate.
Qed.

(** ** The fetch stage *)

Lemma scan_loop_step {SV : Services} (env : EnvironmentVariables)
    (fuel : nat) (items : list TodoItem) (key : option AttributeMap)
    (st : state) (response : ScanCommandOutput AttributeMap) (w1 : World)
    (page : list TodoItem) :
  dynamoClient_send
    {| TableName := DYNAMODB_TABLE_NAME env; ExclusiveStartKey := key |}
    (world st)
  = (Normal response, w1) ->
  Store.page_of response = Normal page ->
  PublicUrl.scan_loop env (S fuel) items key st
  = match LastEvaluatedKey response with
    | Some next => PublicUrl.scan_loop env fuel (items ++ page) (Some next)
    | None => ret (items ++ page)
    end
      {| world := w1;
         trace :=
           trace st
           ++ [EvScan {| TableName := DYNAMODB_TABLE_NAME env;
                         ExclusiveStartKey := key |}] |}.
Proof.
  intros Hsend Hpage. cbn [PublicUrl.scan_loop].
  unfold bind at 1. unfold call. rewrite Hsend. cbn [lift ret].
  unfold bind at 1. unfold Store.page_of in Hpage.
  destruct (Items response) as [raw|].
  - unfold bind at 1. rewrite Hpage. cbn [lift ret]. reflexivity.
  - injection Hpage as <-. cbn [ret]. rewrite app_nil_r. reflexivity.
Qed.

Lemma scan_loop_answers {SV : Services} (env : EnvironmentVariables)
    (w w' : World) (key : option AttributeMap)
    (pages : list (list TodoItem)) :
  Store.answers (DYNAMODB_TABLE_NAME env) w key pages w' ->
  forall (fuel : nat) (items : list TodoItem) (st : state),
    world st = w ->
    List.length pages <= fuel ->
    exists evs,
      PublicUrl.scan_loop env fuel items key st
      = (Returned (items ++ List.concat pages),
         {| world := w'; trace := trace st ++ evs |}) /\
      List.length evs = List.length pages /\
      Forall (scans_table (DYNAMODB_TABLE_NAME env)) evs.
Proof.
  induction 1 as [w w' key response page Hsend Hpage Hlast
                 |w w1 w' key response next page pages Hsend Hpage Hnext
                    Hrest IH];
    intros fuel items st Hw Hfuel; subst w;
    (destruct fuel as [|fuel]; [cbn in Hfuel; lia|]);
    rewrite (scan_loop_step env fuel items key st response _ page Hsend Hpage).
  - rewrite Hlast. eexists. split; [|split].
    + cbn [List.concat]. rewrite app_nil_r. reflexivity.
    + reflexivity.
    + repeat constructor.
  - rewrite Hnext.
    destruct (IH fuel (items ++ page)
                {| world := w1;
                   trace :=
                     trace st
                     ++ [EvScan {| TableName := DYNAMODB_TABLE_NAME env;
                                   ExclusiveStartKey := key |}] |}
                eq_refl ltac:(cbn in Hfuel; lia))
      as [evs [Hrun [Hlen Hall]]].
    exists (EvScan {| TableName := DYNAMODB_TABLE_NAME env;
                      ExclusiveStartKey := key |} :: evs).
    split; [|split].
    + rewrite Hrun. cbn [trace List.concat].
      rewrite <- !app_assoc. reflexivity.
    + cbn [List.length]. rewrite Hlen. reflexivity.
    + constructor; [reflexivity | exact Hall].
Qed.

(** X6: when the table answers the scan, resumed at each continuation key
    it hands out, with a finite run of pages, [scanTodoItems] given a budget
    of at least that many iterations returns all their records in order,
    sending exactly one scan request per page, each for the configured
    table. *)
Theorem scan_collects_every_page {SV : Services} (env : EnvironmentVariables)
    (fuel : nat) (st : state) (pages : list (list TodoItem)) (w' : World) :
  Store.answers (DYNAMODB_TABLE_NAME env) (world st) None pages w' ->
  List.length pages <= fuel ->
  exists evs,
    PublicUrl.scanTodoItems env fuel st
    = (Returned (List.concat pages),
       {| world := w'; trace := trace st ++ evs |}) /\
    Presigned.scanTodoItems env fuel st = PublicUrl.scanTodoItems env fuel st /\
    List.length evs = List.length pages /\
    Forall (scans_table (DYNAMODB_TABLE_NAME env)) evs.
Proof.
  intros Hans Hfuel.
  destruct (scan_loop_answers env _ _ _ _ Hans fuel [] st eq_refl Hfuel)
    as [evs [Hrun [Hlen Hall]]].
  exists evs. split; [exact Hrun|]. split; [reflexivity|].
  split; assumption.
Qed.

Lemma scan_collects_every_page_witness :
  exists evs,
    PublicUrl.scanTodoItems Fake.env 2 (Fake.start pages_example None None)
    = (Returned (List.concat pages_example),
       {| world :=
            world (snd (PublicUrl.scanTodoItems Fake.env 2
                          (Fake.start pages_example None None)));
          trace := trace (Fake.start pages_example None None) ++ evs |}) /\
    Presigned.scanTodoItems Fake.env 2 (Fake.start pages_example None None)
    = PublicUrl.scanTodoItems Fake.env 2 (Fake.start pages_example None None) /\
    List.length evs = List.length pages_example /\
    Forall (scans_table (DYNAMODB_TABLE_NAME Fake.env)) evs.
Proof.
  apply (scan_collects_every_page Fake.env 2
           (Fake.start pages_example None None) pages_example).
  - eapply Store.answers_more.
    + reflexivity.
    + reflexivity.
    + reflexivity.
    + eapply Store.answers_last; reflexivity.
  - cbn. lia.
Defined.

(** X7: when the fetch stage raises (the table cannot be reached, a page
    cannot be converted), either coordinator returns the failure outcome
    carrying the message of the fault, in the state the fetch stage ended
    in: the records fetched so far are dropped and nothing is stored,
    signed or published. *)
Theorem fetch_failure_is_returned {SV : Services} (env : EnvironmentVariables)
    (fuel : nat) (st st1 : state) (e : thrown) :
  PublicUrl.scanTodoItems env fuel st = (Raised e, st1) ->
  PublicUrl.exportTodoItems env fuel st = (Returned (failure_outcome e), st1) /\
  Presigned.exportTodoItems env fuel st = (Returned (failure_outcome e), st1) /\
  extends is_scan st st1.
Proof.
  intros Hscan. split; [|split].
  - unfold PublicUrl.exportTodoItems, try_catch, bind. rewrite Hscan.
    destruct e; reflexivity.
  - unfold Presigned.exportTodoItems, try_catch, bind.
    change (Presigned.scanTodoItems env fuel)
      with (PublicUrl.scanTodoItems env fuel).
    rewrite Hscan. destruct e; reflexivity.
  - pose proof (scanTodoItems_sends_only env is_scan fuel (fun _ => I) st) as H.
    rewrite Hscan in H. exact H.
Qed.

Lemma fetch_failure_is_returned_witness :
  let st1 := snd (@PublicUrl.scanTodoItems Store.outage Fake.env 3 outage_start) in
  @PublicUrl.exportTodoItems Store.outage Fake.env 3 outage_start
  = (Returned (failure_outcome Store.unreachable), st1) /\
  @Presigned.exportTodoItems Store.outage Fake.env 3 outage_start
  = (Returned (failure_outcome Store.unreachable), st1) /\
  extends is_scan outage_start st1.
Proof.
  intros st1.
  apply (@fetch_failure_is_returned Store.outage Fake.env 3 outage_start st1
           Store.unreachable).
  reflexivity.
Defined.

(** ** The later stages *)

Lemma sendNotification_request {SV : Services} (env : EnvironmentVariables)
    (fileName url : jsstring) (st : state) :
  exists input,
    trace (snd (PublicUrl.sendNotification env fileName url st))
    = trace st ++ [EvPublish input] /\
    TopicArn input = SNS_TOPIC_ARN env /\
    Subject input = lit "Todo Export Complete".
Proof.
  unfold PublicUrl.sendNotification, bind, Date_now, call.
  destruct (clock (world st)) as [t w]. cbn [world trace].
  eexists. split; [|split].
  - destruct (snsClient_send _ w) as [[[]|e] w']; reflexivity.
  - reflexivity.
  - reflexivity.
Qed.

Lemma sendNotification_presigned_request {SV : Services}
    (env : EnvironmentVariables) (fileName url : jsstring) (st : state) :
  exists input,
    trace (snd (Presigned.sendNotification env fileName url st))
    = trace st ++ [EvPublish input] /\
    TopicArn input = SNS_TOPIC_ARN env /\
    Subject input = lit "Todo Export Complete".
Proof.
  unfold Presigned.sendNotification, bind, Date_now, call.
  destruct (clock (world st)) as [t w]. cbn [world trace].
  destruct (clock w) as [t' w1]. cbn [world trace].
  eexists. split; [|split].
  - destruct (snsClient_send _ w1) as [[[]|e] w']; reflexivity.
  - reflexivity.
  - reflexivity.
Qed.

Lemma generatePresignedUrl_request {SV : Services}
    (env : EnvironmentVariables) (key : jsstring) (st : state) :
  trace (snd (Presigned.generatePresignedUrl env key st))
  = trace st
    ++ [EvSign {| GetBucket := S3_BUCKET_NAME env; GetKey := key |} 300].
Proof.
  unfold Presigned.generatePresignedUrl, bind, call.
  destruct (getSignedUrl _ _ (world st)) as [[url|e] w']; reflexivity.
Qed.

(** X8: when the scan returns records and the storage write and the
    notification both succeed, the public-URL coordinator returns success
    with the artifact key as file name and key and with the URL
    https://BUCKET.s3.amazonaws.com/KEY; after the scan requests the run
    sends exactly one storage request, for the configured bucket, with the
    document of the scanned records as body and content type text/csv, and
    then exactly one notification, to the configured topic. *)
Theorem export_success_public {SV : Services} (env : EnvironmentVariables)
    (fuel : nat) (st st1 st2 st3 : state) (items : list TodoItem)
    (key url : jsstring) :
  PublicUrl.scanTodoItems env fuel st = (Returned items, st1) ->
  items <> [] ->
  PublicUrl.uploadToS3 env (PublicUrl.convertToCSV items) st1
  = (Returned (key, url), st2) ->
  PublicUrl.sendNotification env key url st2 = (Returned tt, st3) ->
  PublicUrl.exportTodoItems env fuel st
  = (Returned (success_outcome key url), st3) /\
  key = artifact_key (fst (clock (world st1))) /\
  url = lit "https://" ++ S3_BUCKET_NAME env ++ lit ".s3.amazonaws.com/" ++ key /\
  exists scans put publish,
    trace st3 = trace st ++ scans ++ [EvPut put; EvPublish publish] /\
    Forall is_scan scans /\
    Bucket put = S3_BUCKET_NAME env /\
    Key put = key /\
    Body put = PublicUrl.convertToCSV items /\
    ContentType put = lit "text/csv" /\
    ContentDisposition put
    = lit "attachment; filename=" ++ [QUOTE] ++ key ++ [QUOTE] /\
    TopicArn publish = SNS_TOPIC_ARN env /\
    Subject publish = lit "Todo Export Complete".
Proof.
  intros Hscan Hne Hup Hsend.
  destruct items as [|item items]; [contradiction|].
  split; [|split; [|split]].
  - unfold PublicUrl.exportTodoItems, try_catch, bind.
    rewrite Hscan. cbn [List.length Nat.eqb]. rewrite Hup.
    cbn [fst snd]. rewrite Hsend. reflexivity.
  - destruct (uploadToS3_request env (PublicUrl.convertToCSV (item :: items))
                st1) as [input [_ [Hk [_ [_ Hr]]]]].
    rewrite (Hr key url st2 Hup). exact Hk.
  - revert Hup. unfold PublicUrl.uploadToS3, bind, Date_now, call.
    destruct (clock (world st1)) as [t w]. cbn [world trace].
    destruct (s3Client_send _ w) as [[[]|e] w']; cbn [lift ret raise];
      intros H; [injection H as <- <- _; reflexivity | discriminate].
  - pose proof (scanTodoItems_sends_only env is_scan fuel (fun _ => I) st)
      as [scans [Hs Hall]].
    rewrite Hscan in Hs. cbn [snd] in Hs.
    assert (Hput : exists put,
               trace st2 = trace st1 ++ [EvPut put] /\
               Bucket put = S3_BUCKET_NAME env /\
               Key put = key /\
               Body put = PublicUrl.convertToCSV (item :: items) /\
               ContentType put = lit "text/csv" /\
               ContentDisposition put
               = lit "attachment; filename=" ++ [QUOTE] ++ key ++ [QUOTE]).
    { revert Hup. unfold PublicUrl.uploadToS3, bind, Date_now, call.
      destruct (clock (world st1)) as [t w]. cbn [world trace].
      destruct (s3Client_send _ w) as [[[]|e] w']; cbn [lift ret raise];
        intros H; [|discriminate].
      injection H as <- _ <-. eexists. cbn [trace].
      split; [reflexivity|]. repeat split. }
    destruct Hput as [put [Ht [Hb [Hk [Hbody [Hct Hcd]]]]]].
    destruct (sendNotification_request env key url st2)
      as [publish [Hp [Htop Hsub]]].
    rewrite Hsend in Hp. cbn [snd] in Hp.
    exists scans, put, publish.
    split; [rewrite Hp, Ht, Hs, <- !app_assoc; reflexivity|].
    repeat split; assumption.
Qed.

Lemma export_success_public_witness :
  let st := Fake.start [items_example] None None in
  let st1 := snd (PublicUrl.scanTodoItems Fake.env 1 st) in
  let key := artifact_key 1705314600123 in
  let url := lit "https://exports.s3.amazonaws.com/" ++ key in
  let st2 :=
    snd (PublicUrl.uploadToS3 Fake.env (PublicUrl.convertToCSV items_example)
           st1) in
  let st3 := snd (PublicUrl.sendNotification Fake.env key url st2) in
  PublicUrl.exportTodoItems Fake.env 1 st
  = (Returned (success_outcome key url), st3).
Proof.
  intros st st1 key url st2 st3.
  refine (proj1 (export_success_public Fake.env 1 st st1 st2 st3
                   items_example key url _ _ _ _)).
  - vm_compute. reflexivity.
  - discriminate.
  - vm_compute. reflexivity.
  - vm_compute. reflexivity.
Defined.

(** X9: when every stage succeeds, the pre-signed-URL coordinator returns
    success with the artifact key as file name and key and with the URL the
    signer returned; after the scan requests the run sends, in this order,
    one storage request with the document of the scanned records, one
    signing request for the same bucket and key with a lifetime of 300
    seconds, and one notification to the configured topic. *)
Theorem export_success_presigned {SV : Services} (env : EnvironmentVariables)
    (fuel : nat) (st st1 st2 st3 st4 : state) (items : list TodoItem)
    (key url : jsstring) :
  Presigned.scanTodoItems env fuel st = (Returned items, st1) ->
  items <> [] ->
  Presigned.uploadToS3 env (Presigned.convertToCSV items) st1
  = (Returned key, st2) ->
  Presigned.generatePresignedUrl env key st2 = (Returned url, st3) ->
  Presigned.sendNotification env key url st3 = (Returned tt, st4) ->
  Presigned.exportTodoItems env fuel st
  = (Returned (success_outcome key url), st4) /\
  key = artifact_key (fst (clock (world st1))) /\
  exists scans put publish,
    trace st4
    = trace st ++ scans
      ++ [EvPut put;
          EvSign {| GetBucket := S3_BUCKET_NAME env; GetKey := key |} 300;
          EvPublish publish] /\
    Forall is_scan scans /\
    Bucket put = S3_BUCKET_NAME env /\
    Key put = key /\
    Body put = Presigned.convertToCSV items /\
    TopicArn publish = SNS_TOPIC_ARN env /\
    Subject publish = lit "Todo Export Complete".
Proof.
  intros Hscan Hne Hup Hsign Hsend.
  destruct items as [|item items]; [contradiction|].
  destruct (uploadToS3_presigned_request env
              (Presigned.convertToCSV (item :: items)) st1)
    as [put [Ht [Hk [Hbody [Hb Hr]]]]].
  rewrite Hup in Ht. cbn [snd] in Ht.
  pose proof (Hr key st2 Hup) as Hkey.
  split; [|split].
  - unfold Presigned.exportTodoItems, try_catch, bind.
    rewrite Hscan. cbn [List.length Nat.eqb]. rewrite Hup, Hsign, Hsend.
    reflexivity.
  - rewrite Hkey. exact Hk.
  - pose proof (scanTodoItems_sends_only env is_scan fuel (fun _ => I) st)
      as [scans [Hs Hall]].
    change (PublicUrl.scanTodoItems env fuel)
      with (Presigned.scanTodoItems env fuel) in Hs.
    rewrite Hscan in Hs. cbn [snd] in Hs.
    pose proof (generatePresignedUrl_request env key st2) as Hg.
    rewrite Hsign in Hg. cbn [snd] in Hg.
    destruct (sendNotification_presigned_request env key url st3)
      as [publish [Hp [Htop Hsub]]].
    rewrite Hsend in Hp. cbn [snd] in Hp.
    exists scans, put, publish.
    split; [rewrite Hp, Hg, Ht, Hs, <- !app_assoc; reflexivity|].
    repeat split; try assumption. symmetry. exact Hkey.
Qed.

Lemma export_success_presigned_witness :
  let st := Fake.start [items_example] None None in
  let st1 := snd (Presigned.scanTodoItems Fake.env 1 st) in
  let key := artifact_key 1705314600123 in
  let url := lit "https://signed.example/" ++ key in
  let st2 :=
    snd (Presigned.uploadToS3 Fake.env (Presigned.convertToCSV items_example)
           st1) in
  let st3 := snd (Presigned.generatePresignedUrl Fake.env key st2) in
  let st4 := snd (Presigned.sendNotification Fake.env key url st3) in
  Presigned.exportTodoItems Fake.env 1 st
  = (Returned (success_outcome key url), st4).
Proof.
  intros st st1 key url st2 st3 st4.
  refine (proj1 (export_success_presigned Fake.env 1 st st1 st2 st3 st4
                   items_example key url _ _ _ _ _)).
  - vm_compute. reflexivity.
  - discriminate.
  - vm_compute. reflexivity.
  - vm_compute. reflexivity.
  - vm_compute. reflexivity.
Defined.

(** X10: when signing the URL fails after the document was stored, the
    pre-signed-URL coordinator returns the failure outcome carrying the
    message of the fault; the run ends with the storage request and the
    signing request, so the stored file is left behind and nothing is
    published. *)
Theorem signing_failure_is_returned {SV : Services}
    (env : EnvironmentVariables) (fuel : nat) (st st1 st2 st3 : state)
    (items : list TodoItem) (key : jsstring) (e : thrown) :
  Presigned.scanTodoItems env fuel st = (Returned items, st1) ->
  items <> [] ->
  Presigned.uploadToS3 env (Presigned.convertToCSV items) st1
  = (Returned key, st2) ->
  Presigned.generatePresignedUrl env key st2 = (Raised e, st3) ->
  Presigned.exportTodoItems env fuel st = (Returned (failure_outcome e), st3) /\
  exists scans put,
    trace st3
    = trace st ++ scans
      ++ [EvPut put;
          EvSign {| GetBucket := S3_BUCKET_NAME env; GetKey := key |} 300] /\
    Forall is_scan scans /\
    Key put = key /\
    Body put = Presigned.convertToCSV items.
Proof.
  intros Hscan Hne Hup Hsign.
  destruct items as [|item items]; [contradiction|].
  destruct (uploadToS3_presigned_request env
              (Presigned.convertToCSV (item :: items)) st1)
    as [put [Ht [Hk [Hbody [Hb Hr]]]]].
  rewrite Hup in Ht. cbn [snd] in Ht.
  pose proof (Hr key st2 Hup) as Hkey.
  split.
  - unfold Presigned.exportTodoItems, try_catch, bind.
    rewrite Hscan. cbn [List.length Nat.eqb]. rewrite Hup, Hsign.
    destruct e; reflexivity.
  - pose proof (scanTodoItems_sends_only env is_scan fuel (fun _ => I) st)
      as [scans [Hs Hall]].
    change (PublicUrl.scanTodoItems env fuel)
      with (Presigned.scanTodoItems env fuel) in Hs.
    rewrite Hscan in Hs. cbn [snd] in Hs.
    pose proof (generatePresignedUrl_request env key st2) as Hg.
    rewrite Hsign in Hg. cbn [snd] in Hg.
    exists scans, put.
    split; [rewrite Hg, Ht, Hs, <- !app_assoc; reflexivity|].
    repeat split; try assumption. symmetry. exact Hkey.
Qed.

Lemma signing_failure_is_returned_witness :
  let st1 := snd (Presigned.scanTodoItems Fake.env 1 signer_down) in
  let key := artifact_key 1705314600123 in
  let st2 :=
    snd (Presigned.uploadToS3 Fake.env (Presigned.convertToCSV items_example)
           st1) in
  let st3 := snd (Presigned.generatePresignedUrl Fake.env key st2) in
  Presigned.exportTodoItems Fake.env 1 signer_down
  = (Returned (failure_outcome access_denied), st3).
Proof.
  intros st1 key st2 st3.
  refine (proj1 (signing_failure_is_returned Fake.env 1 signer_down st1 st2
                   st3 items_example key access_denied _ _ _ _)).
  - vm_compute. reflexivity.
  - discriminate.
  - vm_compute. reflexivity.
  - vm_compute. reflexivity.
Defined.

(** ** What every run sends *)

Lemma scan_loop_sends_scans {SV : Services} (env : EnvironmentVariables)
    (P : event -> Prop) :
  (forall key,
      P (EvScan {| TableName := DYNAMODB_TABLE_NAME env;
                   ExclusiveStartKey := key |})) ->
  forall fuel items key, sends_only P (PublicUrl.scan_loop env fuel items key).
Proof.
  intros HP. induction fuel as [|fuel IH]; intros items key.
  - apply sends_only_out_of_fuel.
  - cbn [PublicUrl.scan_loop].
    apply sends_only_bind; [apply sends_only_call, HP|].
    intros response. apply sends_only_bind.
    + destruct (Items response) as [page|]; [|apply sends_only_ret].
      apply sends_only_bind; [apply sends_only_lift|].
      intros unmarshalled. apply sends_only_ret.
    + intros items'.
      destruct (LastEvaluatedKey response) as [k|];
        [apply IH | apply sends_only_ret].
Qed.

Lemma put_as_configured {SV : Services} (env : EnvironmentVariables)
    (items : list TodoItem) (key disposition : jsstring) :
  items <> [] ->
  request_as_configured env
    (EvPut {| Bucket := S3_BUCKET_NAME env;
              Key := key;
              Body := PublicUrl.convertToCSV items;
              ContentType := lit "text/csv";
              ContentDisposition := disposition |}).
Proof.
  intros Hne. cbn [request_as_configured Bucket ContentType Body].
  split; [reflexivity|]. split; [reflexivity|]. split.
  - exists items. split; [exact Hne | reflexivity].
  - apply document_is_not_the_placeholder, Hne.
Qed.

(** X11: every request of every run of either coordinator is as
    configured: scans go to the configured table, storage and signing
    requests to the configured bucket (signing with a lifetime of 300
    seconds), notifications to the configured topic; and the body of a
    storage request is always the document of a record list that is not
    empty, never the text that stands for no data. *)
Theorem every_request_is_as_configured {SV : Services}
    (env : EnvironmentVariables) (fuel : nat) (st : state) :
  extends (request_as_configured env) st
    (snd (PublicUrl.exportTodoItems env fuel st)) /\
  extends (request_as_configured env) st
    (snd (Presigned.exportTodoItems env fuel st)).
Proof.
  split.
  - unfold PublicUrl.exportTodoItems.
    apply sends_only_try_catch; [|intros e; apply sends_only_ret].
    apply sends_only_bind.
    { apply scan_loop_sends_scans. intros key. reflexivity. }
    intros todoItems.
    destruct todoItems as [|item items]; [apply sends_only_ret|].
    cbn [List.length Nat.eqb].
    apply sends_only_bind.
    { unfold PublicUrl.uploadToS3.
      apply sends_only_bind; [apply sends_only_Date_now|]. intros now.
      apply sends_only_bind; [|intros _; apply sends_only_ret].
      apply sends_only_call. apply put_as_configured. discriminate. }
    intros upload. apply sends_only_bind; [|intros _; apply sends_only_ret].
    unfold PublicUrl.sendNotification.
    apply sends_only_bind; [apply sends_only_Date_now|]. intros now.
    apply sends_only_call. split; reflexivity.
  - unfold Presigned.exportTodoItems.
    apply sends_only_try_catch; [|intros e; apply sends_only_ret].
    apply sends_only_bind.
    { apply (scan_loop_sends_scans env). intros key. reflexivity. }
    intros todoItems.
    destruct todoItems as [|item items]; [apply sends_only_ret|].
    cbn [List.length Nat.eqb].
    apply sends_only_bind.
    { unfold Presigned.uploadToS3.
      apply sends_only_bind; [apply sends_only_Date_now|]. intros now.
      apply sends_only_bind; [|intros _; apply sends_only_ret].
      apply sends_only_call.
      change (Presigned.convertToCSV (item :: items))
        with (PublicUrl.convertToCSV (item :: items)).
      apply put_as_configured. discriminate. }
    intros key. apply sends_only_bind.
    { unfold Presigned.generatePresignedUrl.
      apply sends_only_bind; [|intros url; apply sends_only_ret].
      apply sends_only_call. split; reflexivity. }
    intros url. apply sends_only_bind; [|intros _; apply sends_only_ret].
    unfold Presigned.sendNotification.
    apply sends_only_bind; [apply sends_only_Date_now|]. intros t.
    apply sends_only_bind; [apply sends_only_Date_now|]. intros now.
    apply sends_only_call. split; reflexivity.
Qed.

(** ** The Lambda entry points *)

Lemma or_default_empty (v : option jsstring) :
  Runtime.not_string (Config.or_default v []) = unset_or_empty v.
Proof. destruct v as [[|c s]|]; reflexivity. Qed.

(** X12: when the bucket name or the topic ARN is unset or empty in the
    process environment, both entry points raise the configuration error
    (the one about the bucket when both are missing) before doing anything
    else: no request is sent and the clock is not read, whatever the
    event. *)
Theorem missing_configuration_raises {SV : Services} (p : Config.ProcessEnv)
    (fuel : nat) (event : SQSEvent) (any : AnyEvent) (st : state) :
  unset_or_empty (Config.env_S3_BUCKET_NAME p)
  || unset_or_empty (Config.env_SNS_TOPIC_ARN p) = true ->
  let e :=
    if unset_or_empty (Config.env_S3_BUCKET_NAME p)
    then bucket_required else topic_required in
  PublicUrl.handler (Config.env p) fuel event st = (Raised e, st) /\
  Presigned.handler (Config.env p) fuel any st = (Raised e, st).
Proof.
  intros H e. subst e.
  unfold PublicUrl.handler, Presigned.handler.
  cbn [Config.env S3_BUCKET_NAME SNS_TOPIC_ARN].
  rewrite !or_default_empty.
  destruct (unset_or_empty (Config.env_S3_BUCKET_NAME p)).
  - split; reflexivity.
  - cbn [orb] in H. rewrite H. split; reflexivity.
Qed.

Lemma missing_configuration_raises_witness :
  let st := Fake.start [items_example] None None in
  PublicUrl.handler (Config.env env_without_topic) 1
    {| Records := [ {| messageId := lit "m1"; messageBody := lit "go" |} ] |} st
  = (Raised topic_required, st) /\
  Presigned.handler (Config.env env_without_topic) 1 AnyOther st
  = (Raised topic_required, st).
Proof.
  intros st.
  apply (missing_configuration_raises env_without_topic 1
           {| Records := [ {| messageId := lit "m1"; messageBody := lit "go" |} ] |}
           AnyOther st).
  reflexivity.
Defined.

Lemma process_records_step {SV : Services} (env : EnvironmentVariables)
    (fuel : nat) (record : SQSRecord) (rest : list SQSRecord)
    (st st1 : state) (result : ExportResult) :
  PublicUrl.exportTodoItems env fuel st = (Returned result, st1) ->
  PublicUrl.process_records env fuel (record :: rest) st
  = PublicUrl.process_records env fuel rest st1.
Proof.
  intros H. cbn [PublicUrl.process_records].
  unfold bind at 1. unfold try_catch. unfold bind at 1. rewrite H.
  destruct (success result); reflexivity.
Qed.

Lemma process_records_never_raises {SV : Services}
    (env : EnvironmentVariables) (fuel : nat) (records : list SQSRecord) :
  forall st,
    match fst (PublicUrl.process_records env fuel records st) with
    | Returned _ => True
    | Raised _ => False
    | OutOfFuel =>
        exists st0, fst (PublicUrl.scanTodoItems env fuel st0) = OutOfFuel
    end.
Proof.
  induction records as [|record rest IH]; intros st; [exact I|].
  pose proof (exportTodoItems_never_raises env fuel st) as Hex.
  destruct (PublicUrl.exportTodoItems env fuel st) as [[result|e|] st1] eqn:E;
    cbn [fst] in Hex.
  - rewrite (process_records_step env fuel record rest st st1 result E).
    apply IH.
  - contradiction.
  - cbn [PublicUrl.process_records].
    unfold bind at 1. unfold try_catch. unfold bind at 1. rewrite E.
    cbn [fst]. exists st. exact Hex.
Qed.

(** X13: with a bucket name and a topic ARN configured, the SQS entry
    point never raises, so a failed export never makes Lambda retry the
    message: an export that returns, with success or with failure alike,
    is followed by the exports for the remaining records, and the entry
    point returns unless a scan loop does not come to an end within its
    budget. *)
Theorem handler_never_raises {SV : Services} (env : EnvironmentVariables)
    (fuel : nat) (record : SQSRecord) (rest : list SQSRecord)
    (st st1 : state) (result : ExportResult) :
  S3_BUCKET_NAME env <> [] ->
  SNS_TOPIC_ARN env <> [] ->
  PublicUrl.exportTodoItems env fuel st = (Returned result, st1) ->
  PublicUrl.handler env fuel {| Records := record :: rest |} st
  = PublicUrl.handler env fuel {| Records := rest |} st1 /\
  (forall event st0,
      match fst (PublicUrl.handler env fuel event st0) with
      | Returned _ => True
      | Raised _ => False
      | OutOfFuel =>
          exists st2, fst (PublicUrl.scanTodoItems env fuel st2) = OutOfFuel
      end).
Proof.
  intros Hb Ht Hex.
  assert (Hh : forall event,
             PublicUrl.handler env fuel event
             = PublicUrl.process_records env fuel (Records event)).
  { intros event. unfold PublicUrl.handler.
    destruct (S3_BUCKET_NAME env); [contradiction|].
    destruct (SNS_TOPIC_ARN env); [contradiction|]. reflexivity. }
  split.
  - rewrite !Hh. cbn [Records].
    apply (process_records_step env fuel record rest st st1 result Hex).
  - intros event st0. rewrite Hh. apply process_records_never_raises.
Qed.

Lemma handler_never_raises_witness :
  let st := Fake.start [items_example] (Some access_denied) None in
  let st1 := snd (PublicUrl.exportTodoItems Fake.env 1 st) in
  PublicUrl.handler Fake.env 1 sqs_two st
  = PublicUrl.handler Fake.env 1
      {| Records := [ {| messageId := lit "m2"; messageBody := lit "go" |} ] |}
      st1.
Proof.
  intros st st1.
  refine (proj1 (handler_never_raises Fake.env 1
                   {| messageId := lit "m1"; messageBody := lit "go" |}
                   [ {| messageId := lit "m2"; messageBody := lit "go" |} ]
                   st st1 (failure_outcome access_denied) _ _ _)).
  - discriminate.
  - discriminate.
  - vm_compute. reflexivity.
Defined.

Lemma manual_response_body (result : ExportResult) :
  manual_response result
  = if success result
    then {| statusCode := 200;
            body :=
              stringify_object
                [ (lit "message",
                   DString (lit "Export completed successfully"));
                  (lit "fileName", optional (fileName result));
                  (lit "downloadUrl", optional (downloadUrl result)) ] |}
    else {| statusCode := 500;
            body :=
              stringify_object
                [ (lit "message", DString (lit "Export failed"));
                  (lit "error", optional (error result)) ] |}.
Proof.
  unfold manual_response.
  destruct (success result).
  - destruct (fileName result) as [f|], (downloadUrl result) as [u|];
      reflexivity.
  - destruct (error result) as [m|]; reflexivity.
Qed.

(** X14: with a bucket name and a topic ARN configured, an invocation
    whose event is not an SQS batch (no Records array, or an empty one)
    runs one export and answers with its outcome: status 200 and a JSON
    body with the message, the file name and the download URL (each left
    out when the outcome has none) when the export succeeded, status 500
    and a JSON body with the message and the error otherwise. *)
Theorem manual_invocation_response {SV : Services}
    (env : EnvironmentVariables) (fuel : nat) (event : AnyEvent)
    (st st1 : state) (result : ExportResult) :
  S3_BUCKET_NAME env <> [] ->
  SNS_TOPIC_ARN env <> [] ->
  event = AnyOther \/ event = AnyRecords [] ->
  Presigned.exportTodoItems env fuel st = (Returned result, st1) ->
  Presigned.handler env fuel event st
  = (Returned (manual_response result), st1).
Proof.
  intros Hb Ht Hev Hex. unfold Presigned.handler.
  destruct (S3_BUCKET_NAME env); [contradiction|].
  destruct (SNS_TOPIC_ARN env); [contradiction|].
  cbn [not_string].
  rewrite manual_response_body.
  destruct Hev as [-> | ->]; unfold try_catch, bind; rewrite Hex;
    destruct (success result); reflexivity.
Qed.

Lemma manual_invocation_response_witness :
  let st := Fake.start [] None None in
  Presigned.handler Fake.env 1 (AnyRecords []) st
  = (Returned (manual_response empty_export_outcome),
     snd (Presigned.exportTodoItems Fake.env 1 st)).
Proof.
  intros st.
  apply (manual_invocation_response Fake.env 1 (AnyRecords []) st).
  - discriminate.
  - discriminate.
  - right. reflexivity.
  - vm_compute. reflexivity.
Defined.

Lemma process_records_presigned_step {SV : Services}
    (env : EnvironmentVariables) (fuel : nat) (record : SQSRecord)
    (rest : list SQSRecord) (st st1 : state) (result : ExportResult) :
  Presigned.exportTodoItems env fuel st = (Returned result, st1) ->
  Presigned.process_records env fuel (record :: rest) st
  = Presigned.process_records env fuel rest st1.
Proof.
  intros H. cbn [Presigned.process_records].
  unfold bind at 1. unfold try_catch. unfold bind at 1. rewrite H.
  destruct (success result); reflexivity.
Qed.

Lemma process_records_presigned_never_raises {SV : Services}
    (env : EnvironmentVariables) (fuel : nat) (records : list SQSRecord) :
  forall st,
    match fst (Presigned.process_records env fuel records st) with
    | Returned _ => True
    | Raised _ => False
    | OutOfFuel =>
        exists st0, fst (Presigned.scanTodoItems env fuel st0) = OutOfFuel
    end.
Proof.
  induction records as [|record rest IH]; intros st; [exact I|].
  pose proof (exportTodoItems_presigned_never_raises env fuel st) as Hex.
  destruct (Presigned.exportTodoItems env fuel st) as [[result|e|] st1] eqn:E;
    cbn [fst] in Hex.
  - rewrite (process_records_presigned_step env fuel record rest st st1
               result E).
    apply IH.
  - contradiction.
  - cbn [Presigned.process_records].
    unfold bind at 1. unfold try_catch. unfold bind at 1. rewrite E.
    cbn [fst]. exists st. exact Hex.
Qed.

(** X15: with a bucket name and a topic ARN configured, the entry point
    of the pre-signed-URL handler, invoked with a batch of one or more SQS
    records, never raises and answers status 200 with the message All SQS
    messages processed successfully, whether the exports succeeded or
    failed; it returns unless a scan loop does not come to an end within
    its budget. *)
Theorem batch_invocation_response {SV : Services} (env : EnvironmentVariables)
    (fuel : nat) (record : SQSRecord) (rest : list SQSRecord) (st : state) :
  S3_BUCKET_NAME env <> [] ->
  SNS_TOPIC_ARN env <> [] ->
  match fst (Presigned.handler env fuel (AnyRecords (record :: rest)) st) with
  | Returned response => response = batch_response
  | Raised _ => False
  | OutOfFuel =>
      exists st0, fst (Presigned.scanTodoItems env fuel st0) = OutOfFuel
  end.
Proof.
  intros Hb Ht. unfold Presigned.handler.
  destruct (S3_BUCKET_NAME env); [contradiction|].
  destruct (SNS_TOPIC_ARN env); [contradiction|].
  cbn [not_string]. unfold bind at 1.
  pose proof (process_records_presigned_never_raises env fuel
                (record :: rest) st) as H.
  destruct (Presigned.process_records env fuel (record :: rest) st)
    as [[[]|e|] st1]; cbn [fst] in *.
  - reflexivity.
  - contradiction.
  - exact H.
Qed.

Lemma batch_invocation_response_witness :
  match
    fst (Presigned.handler Fake.env 1
           (AnyRecords (Records sqs_two))
           (Fake.start [items_example] (Some access_denied) None))
  with
  | Returned response => response = batch_response
  | Raised _ => False
  | OutOfFuel =>
      exists st0 : @state Fake.services,
        fst (Presigned.scanTodoItems Fake.env 1 st0) = OutOfFuel
  end.
Proof.
  apply (batch_invocation_response Fake.env 1
           {| messageId := lit "m1"; messageBody := lit "go" |}
           [ {| messageId := lit "m2"; messageBody := lit "go" |} ]
           (Fake.start [items_example] (Some access_denied) None));
    discriminate.
Defined.

(** ** The artifact key and the clock *)

Module CalendarFacts.
Import Calendar.
Local Open Scope Z_scope.

Ltac Zify.zify_post_hook ::= Z.div_mod_to_equations.

Lemma civil_bounds day :
  0 <= day < 2932897 ->
  let '(y, m, d) := civil_from_days day in
  1970 <= y <= 9999 /\ 1 <= m <= 12 /\ 1 <= d <= 31.
Proof.
  intros H. unfold civil_from_days.
  set (z := day + 719468).
  set (era := z / 146097).
  set (doe := z - era * 146097).
  set (yoe := (doe - doe / 1460 + doe / 36524 - doe / 146096) / 365).
  set (doy := doe - (365 * yoe + yoe / 4 - yoe / 100)).
  set (mp := (5 * doy + 2) / 153).
  assert (Hdoe : 0 <= doe <= 146096) by (subst doe era z; lia).
  assert (Hyoe : 0 <= yoe <= 399) by (subst yoe; lia).
  assert (Hdoy : 0 <= doy <= 365) by (subst doy yoe; lia).
  assert (Hmp : 0 <= mp <= 11) by (subst mp; lia).
  destruct (mp <? 10) eqn:E1.
  - destruct (mp + 3 <=? 2) eqn:E2; [lia|].
    split; [|split; [lia|subst mp; lia]].
    subst yoe era z doe. lia.
  - destruct (mp - 9 <=? 2) eqn:E2; [|lia].
    split; [|split; [lia|subst mp; lia]].
    subst mp doy yoe era z doe. lia.
Qed.

Lemma civil_structure day :
  0 <= day < 2932897 ->
  let '(y, m, d) := civil_from_days day in
  exists y' mp,
    0 <= mp <= 11 /\
    m = (if mp <? 10 then mp + 3 else mp - 9) /\
    y = (if mp <? 10 then y' else y' + 1) /\
    1 <= d /\
    month_start mp + d - 1 < month_start (mp + 1) /\
    G y' + month_start mp + d - 1 < G (y' + 1) /\
    day + 719468 = G y' + month_start mp + d - 1.
Proof.
  intros H. unfold civil_from_days.
  set (z := day + 719468).
  set (era := z / 146097).
  set (doe := z - era * 146097).
  set (yoe := (doe - doe / 1460 + doe / 36524 - doe / 146096) / 365).
  set (doy := doe - (365 * yoe + yoe / 4 - yoe / 100)).
  set (mp := (5 * doy + 2) / 153).
  assert (Hdoe : 0 <= doe <= 146096) by (subst doe era z; lia).
  assert (Hyoe : 0 <= yoe <= 399) by (subst yoe; lia).
  assert (Hdoy : 0 <= doy <= 365) by (subst doy yoe; lia).
  assert (Hmp : 0 <= mp <= 11) by (subst mp; lia).
  assert (Hyear : doe < 365 * (yoe + 1) + (yoe + 1) / 4 - (yoe + 1) / 100
                        + (yoe + 1) / 400) by (subst yoe; lia).
  assert (HG : G (yoe + era * 400) = era * 146097 + 365 * yoe + yoe / 4 - yoe / 100)
    by (unfold G; lia).
  assert (HG1 : G (yoe + era * 400 + 1) = era * 146097 + 365 * (yoe + 1) + (yoe + 1) / 4 - (yoe + 1) / 100 + (yoe + 1) / 400)
    by (unfold G; lia).
  exists (yoe + era * 400), mp.
  split; [exact Hmp|].
  split; [destruct (mp <? 10); reflexivity|].
  split.
  { destruct (mp <? 10) eqn:E1.
    - destruct (mp + 3 <=? 2) eqn:E2; [lia|reflexivity].
    - destruct (mp - 9 <=? 2) eqn:E2; [reflexivity|lia]. }
  unfold month_start. fold mp.
  split; [subst mp; lia|].
  split; [subst mp; lia|].
  split.
  - rewrite HG1. rewrite HG. subst doy. lia.
  - rewrite HG. subst doy doe. lia.
Qed.

Lemma G_mono y1 y2 : y1 <= y2 -> G y1 <= G y2.
Proof. unfold G. intros H. lia. Qed.

Lemma month_start_mono a b : a <= b -> month_start a <= month_start b.
Proof. unfold month_start. intros H. lia. Qed.

Lemma civil_from_days_mono day1 day2 :
  0 <= day1 -> day1 < day2 -> day2 < 2932897 ->
  date_lt (civil_from_days day1) (civil_from_days day2).
Proof.
  intros H0 H1 H2.
  pose proof (civil_structure day1 ltac:(lia)) as S1.
  pose proof (civil_structure day2 ltac:(lia)) as S2.
  destruct (civil_from_days day1) as [[y1 m1] d1].
  destruct (civil_from_days day2) as [[y2 m2] d2].
  destruct S1 as [y1' [mp1 [Hmp1 [Hm1 [Hy1 [Hd1 [Hms1 [Hg1 He1]]]]]]]].
  destruct S2 as [y2' [mp2 [Hmp2 [Hm2 [Hy2 [Hd2 [Hms2 [Hg2 He2]]]]]]]].
  unfold date_lt.
  assert (Hs1 : 0 <= month_start mp1) by (unfold month_start; lia).
  assert (Hs2 : 0 <= month_start mp2) by (unfold month_start; lia).
  destruct (Z.lt_trichotomy y1' y2') as [Hy|[Hy|Hy]].
  - destruct (mp1 <? 10) eqn:E1, (mp2 <? 10) eqn:E2; lia.
  - subst y2'.
    destruct (Z.lt_trichotomy mp1 mp2) as [Hm|[Hm|Hm]].
    + destruct (mp1 <? 10) eqn:E1, (mp2 <? 10) eqn:E2; lia.
    + subst mp2. destruct (mp1 <? 10) eqn:E1; lia.
    + pose proof (month_start_mono (mp2 + 1) mp1 ltac:(lia)). lia.
  - pose proof (G_mono (y2' + 1) y1' ltac:(lia)). lia.
Qed.

(** strings *)
Lemma string_ltb_app_same (p u v : jsstring) :
  string_ltb (p ++ u) (p ++ v) = string_ltb u v.
Proof.
  induction p as [|c p IH]; [reflexivity|].
  cbn [app string_ltb]. rewrite N.ltb_irrefl. destruct u, v; exact IH.
Qed.

Lemma length_digits (w : nat) (n : Z) : List.length (digits w n) = w.
Proof.
  revert n; induction w as [|w IH]; intros n; [reflexivity|].
  cbn [digits]. rewrite length_app, IH. cbn. lia.
Qed.

Lemma digits_ltb (w : nat) :
  forall (a b : Z) (u v : jsstring),
    (0 <= a < 10 ^ Z.of_nat w)%Z -> (0 <= b < 10 ^ Z.of_nat w)%Z ->
    (a < b)%Z ->
    string_ltb (digits w a ++ u) (digits w b ++ v) = true.
Proof.
  induction w as [|w IH]; intros a b u v Ha Hb Hab.
  - cbn in Ha, Hb. lia.
  - rewrite Nat2Z.inj_succ, Z.pow_succ_r in Ha, Hb by lia.
    cbn [digits]. rewrite <- !app_assoc.
    destruct (Z.lt_trichotomy (a / 10) (b / 10)) as [H|[H|H]].
    + apply IH; lia.
    + rewrite H, string_ltb_app_same. cbn [app string_ltb].
      destruct u, v;
        (destruct (N.ltb_spec (Z.to_N (48 + a mod 10)) (Z.to_N (48 + b mod 10)));
         [reflexivity | lia]).
    + lia.
Qed.

Lemma replace_colon_dot_digits (w : nat) (n : Z) :
  replace_colon_dot (digits w n) = digits w n.
Proof.
  revert n; induction w as [|w IH]; intros n; [reflexivity|].
  cbn [digits]. unfold replace_colon_dot in *. rewrite map_app, IH.
  cbn [map]. do 2 f_equal.
  destruct (N.eqb_spec (Z.to_N (48 + n mod 10)) 58); [lia|].
  destruct (N.eqb_spec (Z.to_N (48 + n mod 10)) 46); [lia|].
  reflexivity.
Qed.

Lemma render_ltb (l1 l2 : list (nat * Z * jsstring)) (u : jsstring) :
  Forall2 (fun f g => fst (fst f) = fst (fst g) /\ snd f = snd g) l1 l2 ->
  Forall in_width l1 -> Forall in_width l2 ->
  string_ltb (render l1 ++ u) (render l2 ++ u)
  = lex_ltb (map (fun f => snd (fst f)) l1) (map (fun f => snd (fst f)) l2).
Proof.
  induction 1 as [|[[w a] s] [[w' b] s'] l1 l2 [Hw Hs] HF IH];
    intros H1 H2.
  - cbn. apply string_ltb_irrefl.
  - cbn in Hw, Hs. subst w' s'.
    inversion H1 as [|? ? Ha H1']; inversion H2 as [|? ? Hb H2']; subst.
    unfold in_width in Ha, Hb. cbn in Ha, Hb.
    unfold render in *. cbn [flat_map map fst snd lex_ltb].
    rewrite <- !app_assoc.
    destruct (Z.ltb_spec a b) as [Hab|Hab].
    + apply digits_ltb; assumption.
    + destruct (Z.ltb_spec b a) as [Hba|Hba].
      * apply string_ltb_asym. apply digits_ltb; assumption.
      * assert (a = b) by lia. subst b.
        rewrite !string_ltb_app_same. apply IH; assumption.
Qed.

Lemma artifact_key_render (t : Z) :
  0 <= t < END_OF_TIME ->
  artifact_key t = lit "todo-export-" ++ render (stamp_fields t) ++ lit ".csv".
Proof.
  intros Ht. unfold END_OF_TIME in Ht.
  assert (Hd : 0 <= t / 86400000 < 2932897) by lia.
  pose proof (civil_bounds _ Hd) as Hb.
  unfold artifact_key, stamp_fields, stamp, toISOString.
  destruct (civil_from_days (t / 86400000)) as [[y m] d].
  destruct Hb as (Hy & Hm & Hday).
  replace ((0 <=? y) && (y <=? 9999))%bool with true
    by (symmetry; apply andb_true_intro; split; apply Z.leb_le; lia).
  unfold render. cbn [flat_map fst snd].
  unfold replace_colon_dot. rewrite !map_app.
  fold (replace_colon_dot (digits 4 y)) (replace_colon_dot (digits 2 m))
       (replace_colon_dot (digits 2 d))
       (replace_colon_dot (digits 2 (t mod 86400000 / 3600000)))
       (replace_colon_dot (digits 2 ((t mod 86400000 / 60000) mod 60)))
       (replace_colon_dot (digits 2 ((t mod 86400000 / 1000) mod 60)))
       (replace_colon_dot (digits 3 ((t mod 86400000) mod 1000))).
  rewrite !replace_colon_dot_digits.
  rewrite <- ?app_assoc, ?app_nil_r. reflexivity.
Qed.

Lemma stamp_fields_in_width (t : Z) :
  0 <= t < END_OF_TIME -> Forall in_width (stamp_fields t).
Proof.
  intros Ht. unfold END_OF_TIME in Ht.
  assert (Hd : 0 <= t / 86400000 < 2932897) by lia.
  pose proof (civil_bounds _ Hd) as Hb.
  unfold stamp_fields, stamp.
  destruct (civil_from_days (t / 86400000)) as [[y m] d].
  destruct Hb as (Hy & Hm & Hday).
  assert (Hms : 0 <= t mod 86400000 < 86400000) by lia.
  set (ms := t mod 86400000) in *. clearbody ms.
  repeat constructor; unfold in_width; cbn [fst snd];
    change (10 ^ Z.of_nat 4) with 10000;
    change (10 ^ Z.of_nat 2) with 100;
    change (10 ^ Z.of_nat 3) with 1000; lia.
Qed.

Lemma stamp_fields_shape (t1 t2 : Z) :
  Forall2 (fun f g => fst (fst f) = fst (fst g) /\ snd f = snd g)
    (stamp_fields t1) (stamp_fields t2).
Proof.
  unfold stamp_fields, stamp.
  destruct (civil_from_days (t1 / 86400000)) as [[y1 m1] d1].
  destruct (civil_from_days (t2 / 86400000)) as [[y2 m2] d2].
  repeat constructor.
Qed.

Lemma stamp_fields_values (t : Z) :
  map (fun f => snd (fst f)) (stamp_fields t) = stamp t.
Proof.
  unfold stamp_fields, stamp.
  destruct (civil_from_days (t / 86400000)) as [[y m] d]. reflexivity.
Qed.

Lemma time_of_day_mono (a b : Z) :
  0 <= a -> a < b -> b < 86400000 ->
  lex_ltb [a / 3600000; (a / 60000) mod 60; (a / 1000) mod 60; a mod 1000]
          [b / 3600000; (b / 60000) mod 60; (b / 1000) mod 60; b mod 1000]
  = true.
Proof.
  intros Ha Hab Hb. cbn [lex_ltb].
  repeat match goal with
         | |- context [?x <? ?y] => destruct (Z.ltb_spec x y)
         end; try reflexivity; exfalso; lia.
Qed.

Lemma stamp_mono (t1 t2 : Z) :
  0 <= t1 -> t1 < t2 -> t2 < END_OF_TIME ->
  lex_ltb (stamp t1) (stamp t2) = true.
Proof.
  unfold END_OF_TIME. intros H1 H12 H2.
  assert (Hms1 : 0 <= t1 mod 86400000 < 86400000) by lia.
  assert (Hms2 : 0 <= t2 mod 86400000 < 86400000) by lia.
  assert (Hsplit : t1 / 86400000 < t2 / 86400000 \/
                   (t1 / 86400000 = t2 / 86400000 /\
                    t1 mod 86400000 < t2 mod 86400000)) by lia.
  unfold stamp. destruct Hsplit as [Hday | [Hday Hms]].
  - assert (Hlt : date_lt (civil_from_days (t1 / 86400000))
                          (civil_from_days (t2 / 86400000)))
      by (apply civil_from_days_mono; lia).
    destruct (civil_from_days (t1 / 86400000)) as [[y1 m1] d1].
    destruct (civil_from_days (t2 / 86400000)) as [[y2 m2] d2].
    unfold date_lt in Hlt. cbn [lex_ltb].
    clear - Hlt.
    destruct (Z.ltb_spec y1 y2); [reflexivity|].
    destruct (Z.ltb_spec y2 y1); [exfalso; lia|].
    destruct (Z.ltb_spec m1 m2); [reflexivity|].
    destruct (Z.ltb_spec m2 m1); [exfalso; lia|].
    destruct (Z.ltb_spec d1 d2); [reflexivity|].
    exfalso; lia.
  - rewrite Hday.
    destruct (civil_from_days (t2 / 86400000)) as [[y m] d].
    change (lex_ltb (?a :: ?l1) (?b :: ?l2))
      with (if a <? b then true else if b <? a then false else lex_ltb l1 l2).
    rewrite !Z.ltb_irrefl.
    change (lex_ltb (m :: ?l1) (m :: ?l2))
      with (if m <? m then true else if m <? m then false else lex_ltb l1 l2).
    rewrite !Z.ltb_irrefl.
    change (lex_ltb (d :: ?l1) (d :: ?l2))
      with (if d <? d then true else if d <? d then false else lex_ltb l1 l2).
    rewrite !Z.ltb_irrefl.
    apply time_of_day_mono; lia.
Qed.

Lemma artifact_key_ltb (t1 t2 : Z) :
  0 <= t1 -> t1 < t2 -> t2 < END_OF_TIME ->
  string_ltb (artifact_key t1) (artifact_key t2) = true.
Proof.
  intros H1 H12 H2.
  rewrite !artifact_key_render by lia.
  rewrite string_ltb_app_same, render_ltb.
  - rewrite !stamp_fields_values. apply stamp_mono; assumption.
  - apply stamp_fields_shape.
  - apply stamp_fields_in_width; lia.
  - apply stamp_fields_in_width; lia.
Qed.

Lemma artifact_key_length (t : Z) :
  0 <= t < END_OF_TIME -> List.length (artifact_key t) = 40%nat.
Proof.
  intros Ht. rewrite artifact_key_render by assumption.
  unfold stamp_fields, stamp, render.
  destruct (civil_from_days (t / 86400000)) as [[y m] d].
  cbn [flat_map fst snd]. rewrite !length_app, !length_digits. reflexivity.
Qed.

Ltac Zify.zify_post_hook ::= idtac.

End CalendarFacts.


Import Calendar CalendarFacts.

Lemma uploads_key {SV : Services} (env : EnvironmentVariables) (st : state)
    (key : jsstring) :
  uploads env st key -> key = artifact_key (fst (clock (world st))).
Proof.
  intros [(csvContent & url & st' & R) | (csvContent & st' & R)].
  - destruct (uploadToS3_request env csvContent st)
      as (input & _ & K & _ & _ & E).
    rewrite (E _ _ _ R). exact K.
  - destruct (uploadToS3_presigned_request env csvContent st)
      as (input & _ & K & _ & _ & E).
    rewrite (E _ _ R). exact K.
Qed.

(** X16: the artifact keys follow the clock. When two uploads, of either
    handler, read clock values between the epoch and the end of the year
    9999, their keys have 40 code units each, the first key sorts before
    the second in code-unit order exactly when the first clock value is
    the smaller one, and the keys are equal exactly when the clock values
    are: exports of different milliseconds never overwrite each other,
    exports of the same millisecond do, and listing the bucket by key
    lists the exports in the order they were made. *)
Theorem upload_keys_follow_the_clock {SV : Services}
    (env : EnvironmentVariables) (st1 st2 : state) (key1 key2 : jsstring) :
  uploads env st1 key1 ->
  uploads env st2 key2 ->
  (0 <= fst (clock (world st1)) < END_OF_TIME)%Z ->
  (0 <= fst (clock (world st2)) < END_OF_TIME)%Z ->
  (string_ltb key1 key2 = true
   <-> (fst (clock (world st1)) < fst (clock (world st2)))%Z) /\
  (key1 = key2 <-> fst (clock (world st1)) = fst (clock (world st2))) /\
  List.length key1 = 40 /\ List.length key2 = 40.
Proof.
  intros U1 U2 H1 H2.
  apply uploads_key in U1, U2. subst key1 key2.
  set (t1 := fst (clock (world st1))) in *.
  set (t2 := fst (clock (world st2))) in *.
  clearbody t1 t2.
  assert (Lt : forall a b, (0 <= a)%Z -> (a < b)%Z -> (b < END_OF_TIME)%Z ->
               string_ltb (artifact_key a) (artifact_key b) = true)
    by (intros a b; apply artifact_key_ltb).
  split; [|split; [|split; apply artifact_key_length; assumption]].
  - split.
    + intros L. destruct (Z.lt_trichotomy t1 t2) as [H|[H|H]].
      * exact H.
      * subst t2. rewrite string_ltb_irrefl in L. discriminate.
      * assert (L' := Lt t2 t1 (proj1 H2) H (proj2 H1)).
        apply string_ltb_asym in L'. congruence.
    + intros H. apply Lt; [apply H1 | exact H | apply H2].
  - split.
    + intros E. destruct (Z.lt_trichotomy t1 t2) as [H|[H|H]].
      * assert (L := Lt t1 t2 (proj1 H1) H (proj2 H2)).
        rewrite E, string_ltb_irrefl in L. discriminate.
      * exact H.
      * assert (L := Lt t2 t1 (proj1 H2) H (proj2 H1)).
        rewrite E, string_ltb_irrefl in L. discriminate.
    + intros ->. reflexivity.
Qed.

Lemma upload_keys_follow_the_clock_witness :
  let st1 := Fake.start [] None None in
  let run1 := PublicUrl.uploadToS3 Fake.env (lit "a") st1 in
  let st2 := snd run1 in
  let run2 := Presigned.uploadToS3 Fake.env (lit "b") st2 in
  let key1 := artifact_key 1705314600123 in
  let key2 := artifact_key 1705314600124 in
  (string_ltb key1 key2 = true
   <-> (fst (clock (world st1)) < fst (clock (world st2)))%Z) /\
  (key1 = key2 <-> fst (clock (world st1)) = fst (clock (world st2))) /\
  List.length key1 = 40 /\ List.length key2 = 40.
Proof.
  intros st1 run1 st2 run2 key1 key2.
  apply (upload_keys_follow_the_clock Fake.env st1 st2 key1 key2).
  - left. exists (lit "a"), (snd (fst (match fst run1 with
                                       | Returned r => (r, tt)
                                       | _ => (([], []), tt)
                                       end))), st2.
    vm_compute. reflexivity.
  - right. exists (lit "b"), (snd run2). vm_compute. reflexivity.
  - vm_compute. split; [discriminate | reflexivity].
  - vm_compute. split; [discriminate | reflexivity].
Defined.

(** ** The JSON texts of the notification and of the response *)

Module ReaderFacts.
Import Reader.

Ltac Zify.zify_post_hook ::= Z.div_mod_to_equations.

Lemma hex_value_digit (n : N) :
  (n < 16)%N -> hex_value (hex_digit n) = Some n.
Proof.
  intros H. unfold hex_digit, hex_value.
  destruct (N.ltb_spec n 10).
  - replace (N.leb 48 (48 + n) && N.leb (48 + n) 57) with true.
    + f_equal. lia.
    + symmetry. apply andb_true_intro. split; apply N.leb_le; lia.
  - replace (N.leb 48 (87 + n) && N.leb (87 + n) 57) with false.
    + replace (N.leb 97 (87 + n) && N.leb (87 + n) 102) with true.
      * f_equal. lia.
      * symmetry. apply andb_true_intro. split; apply N.leb_le; lia.
    + symmetry. apply andb_false_iff. right. apply N.leb_gt. lia.
Qed.

Lemma hex_digits_value (c : N) :
  (c < 65536)%N ->
  (4096 * ((c / 4096) mod 16) + 256 * ((c / 256) mod 16)
   + 16 * ((c / 16) mod 16) + c mod 16 = c)%N.
Proof.
  intros H. apply N2Z.inj.
  rewrite !N2Z.inj_add, !N2Z.inj_mul, !N2Z.inj_mod, !N2Z.inj_div.
  assert (Hz : (0 <= Z.of_N c < 65536)%Z) by lia.
  clear H. revert Hz. generalize (Z.of_N c). intros z Hz.
  change (Z.of_N 16) with 16%Z. change (Z.of_N 256) with 256%Z.
  change (Z.of_N 4096) with 4096%Z. lia.
Qed.

Lemma read_string_unicode (c : N) (text s r : jsstring) :
  (c < 65536)%N ->
  read_string text = Some (s, r) ->
  read_string (UnicodeEscape c ++ text) = Some (c :: s, r).
Proof.
  intros Hc Ht. unfold UnicodeEscape.
  change (read_string ([BACKSLASH; 117%N; ?h1; ?h2; ?h3; ?h4] ++ text))
    with (match hex_value h1, hex_value h2, hex_value h3, hex_value h4,
                read_string text with
          | Some a, Some b, Some c, Some d, Some (s, r) =>
              Some ((4096 * a + 256 * b + 16 * c + d)%N :: s, r)
          | _, _, _, _, _ => None
          end).
  rewrite !hex_value_digit by (apply N.mod_lt; discriminate).
  rewrite Ht. do 2 f_equal. f_equal. apply hex_digits_value. exact Hc.
Qed.

Lemma read_string_simple (e u : N) (text s r : jsstring) :
  N.eqb e 117 = false ->
  simple_escape e = Some u ->
  read_string text = Some (s, r) ->
  read_string (BACKSLASH :: e :: text) = Some (u :: s, r).
Proof.
  intros He Hu Ht.
  change (read_string (BACKSLASH :: e :: text))
    with (if N.eqb e 117 then
            match text with
            | h1 :: h2 :: h3 :: h4 :: rest =>
                match hex_value h1, hex_value h2, hex_value h3,
                      hex_value h4, read_string rest with
                | Some a, Some b, Some c, Some d, Some (s, r) =>
                    Some ((4096 * a + 256 * b + 16 * c + d)%N :: s, r)
                | _, _, _, _, _ => None
                end
            | _ => None
            end
          else
            match simple_escape e, read_string text with
            | Some u, Some (s, r) => Some (u :: s, r)
            | _, _ => None
            end).
  rewrite He, Hu, Ht. reflexivity.
Qed.

Lemma read_string_plain (c : N) (text s r : jsstring) :
  c <> QUOTE -> c <> BACKSLASH -> (32 <= c)%N ->
  read_string text = Some (s, r) ->
  read_string (c :: text) = Some (c :: s, r).
Proof.
  intros Hq Hb Hc Ht. cbn [read_string].
  destruct (N.eqb_spec c QUOTE); [contradiction|].
  destruct (N.eqb_spec c BACKSLASH); [contradiction|].
  destruct (N.ltb_spec c 32); [lia|].
  rewrite Ht. reflexivity.
Qed.

Lemma read_string_unit (c : N) (text s r : jsstring) :
  is_leading_surrogate c = false ->
  read_string text = Some (s, r) ->
  read_string (json_escape_unit c ++ text) = Some (c :: s, r).
Proof.
  intros Hl Ht. unfold json_escape_unit.
  destruct (N.eqb_spec c 8) as [->|H8];
    [exact (read_string_simple 98 8 text s r eq_refl eq_refl Ht)|].
  destruct (N.eqb_spec c 9) as [->|H9];
    [exact (read_string_simple 116 9 text s r eq_refl eq_refl Ht)|].
  destruct (N.eqb_spec c 10) as [->|H10];
    [exact (read_string_simple 110 10 text s r eq_refl eq_refl Ht)|].
  destruct (N.eqb_spec c 12) as [->|H12];
    [exact (read_string_simple 102 12 text s r eq_refl eq_refl Ht)|].
  destruct (N.eqb_spec c 13) as [->|H13];
    [exact (read_string_simple 114 13 text s r eq_refl eq_refl Ht)|].
  destruct (N.eqb_spec c QUOTE) as [->|Hq];
    [exact (read_string_simple QUOTE QUOTE text s r eq_refl eq_refl Ht)|].
  destruct (N.eqb_spec c BACKSLASH) as [->|Hb];
    [exact (read_string_simple BACKSLASH BACKSLASH text s r eq_refl eq_refl Ht)|].
  rewrite Hl. cbn [orb].
  destruct (N.ltb_spec c 32) as [Hc|Hc]; cbn [orb].
  - apply read_string_unicode; [lia | exact Ht].
  - destruct (is_trailing_surrogate c) eqn:Tr.
    + apply read_string_unicode; [|exact Ht].
      unfold is_trailing_surrogate in Tr.
      apply andb_prop in Tr as [_ Tr]. apply N.leb_le in Tr. lia.
    + apply read_string_plain; assumption.
Qed.

Lemma read_string_json_escape (s rest : jsstring) :
  read_string (json_escape s ++ QUOTE :: rest) = Some (s, rest).
Proof.
  remember (List.length s) as n eqn:Hn.
  assert (Hle : List.length s <= n) by lia. clear Hn.
  revert s Hle. induction n as [|n IH]; intros s Hle.
  - destruct s; [reflexivity | cbn in Hle; lia].
  - destruct s as [|c s']; [reflexivity|].
    cbn [List.length] in Hle. cbn [json_escape].
    destruct (is_leading_surrogate c) eqn:L.
    + assert (Hc : (55296 <= c <= 56319)%N).
      { unfold is_leading_surrogate in L. apply andb_prop in L as [L1 L2].
        apply N.leb_le in L1, L2. lia. }
      destruct s' as [|d s''].
      * apply read_string_unicode; [lia | reflexivity].
      * destruct (is_trailing_surrogate d) eqn:T.
        -- assert (Hd : (56320 <= d <= 57343)%N).
           { unfold is_trailing_surrogate in T.
             apply andb_prop in T as [T1 T2].
             apply N.leb_le in T1, T2. lia. }
           cbn [app]. cbn [List.length] in Hle.
           apply read_string_plain;
             [unfold QUOTE; lia | unfold BACKSLASH; lia | lia |].
           apply read_string_plain;
             [unfold QUOTE; lia | unfold BACKSLASH; lia | lia |].
           apply IH. lia.
        -- rewrite <- app_assoc. apply read_string_unicode; [lia|].
           apply IH. lia.
    + rewrite <- app_assoc. apply read_string_unit; [exact L|].
      apply IH. lia.
Qed.

Lemma skip_whitespace_app (ws text : jsstring) :
  forallb is_whitespace ws = true ->
  skip_whitespace (ws ++ text) = skip_whitespace text.
Proof.
  induction ws as [|c ws IH]; [reflexivity|].
  cbn [forallb app skip_whitespace]. intros H.
  apply andb_prop in H as [Hc Hws]. rewrite Hc. apply IH. exact Hws.
Qed.

Lemma read_quoted_QuoteJSONString (ws s rest : jsstring) :
  forallb is_whitespace ws = true ->
  read_quoted (ws ++ QuoteJSONString s ++ rest) = Some (s, rest).
Proof.
  intros H. unfold read_quoted, QuoteJSONString.
  rewrite skip_whitespace_app by exact H.
  rewrite <- !app_assoc. cbn [app skip_whitespace].
  change (is_whitespace QUOTE) with false. cbn match.
  rewrite N.eqb_refl. apply read_string_json_escape.
Qed.

Lemma read_unit_here (c : N) (ws rest : jsstring) :
  forallb is_whitespace ws = true ->
  is_whitespace c = false ->
  read_unit c (ws ++ c :: rest) = Some rest.
Proof.
  intros H Hc. unfold read_unit. rewrite skip_whitespace_app by exact H.
  cbn [skip_whitespace]. rewrite Hc, N.eqb_refl. reflexivity.
Qed.

Lemma read_unit_now (c : N) (rest : jsstring) :
  is_whitespace c = false -> read_unit c ([c] ++ rest) = Some rest.
Proof. intros H. exact (read_unit_here c [] rest eq_refl H). Qed.

Lemma read_unit_other (c d : N) (ws rest : jsstring) :
  forallb is_whitespace ws = true ->
  is_whitespace d = false ->
  N.eqb d c = false ->
  read_unit c (ws ++ d :: rest) = None.
Proof.
  intros H Hd Hdc. unfold read_unit. rewrite skip_whitespace_app by exact H.
  cbn [skip_whitespace]. rewrite Hd, Hdc. reflexivity.
Qed.

Lemma read_members_text (pre mid post : jsstring) :
  forallb is_whitespace pre = true ->
  forallb is_whitespace mid = true ->
  forallb is_whitespace post = true ->
  forall (props : list (jsstring * jsstring)) (fuel : nat),
    props <> [] ->
    List.length props <= fuel ->
    read_members fuel
      (pre ++ join ([COMMA] ++ pre) (map (member_text mid) props)
       ++ post ++ [125%N])
    = Some props.
Proof.
  intros Hpre Hmid Hpost.
  induction props as [|[k v] rest IH]; intros fuel Hne Hfuel;
    [contradiction|].
  destruct fuel as [|fuel]; [cbn in Hfuel; lia|].
  cbn [List.length] in Hfuel.
  assert (Hhead : forall tail,
             read_members (S fuel)
               (pre ++ member_text mid (k, v) ++ tail)
             = match read_unit COMMA tail with
               | Some text4 =>
                   match read_members fuel text4 with
                   | Some members => Some ((k, v) :: members)
                   | None => None
                   end
               | None =>
                   match read_unit 125 tail with
                   | Some text4 =>
                       match skip_whitespace text4 with
                       | [] => Some [(k, v)]
                       | _ :: _ => None
                       end
                   | None => None
                   end
               end).
  { intros tail. unfold member_text. cbn [fst snd read_members].
    rewrite <- !app_assoc.
    rewrite read_quoted_QuoteJSONString by exact Hpre.
    rewrite (read_unit_now 58 _ eq_refl).
    rewrite read_quoted_QuoteJSONString by exact Hmid.
    reflexivity. }
  destruct rest as [|kv' rest'].
  - cbn [map join]. rewrite Hhead.
    rewrite (read_unit_other COMMA 125 post [] Hpost eq_refl eq_refl).
    rewrite (read_unit_here 125 post [] Hpost eq_refl). reflexivity.
  - change (join ([COMMA] ++ pre) (map (member_text mid) ((k, v) :: kv' :: rest')))
      with (member_text mid (k, v) ++ ([COMMA] ++ pre)
            ++ join ([COMMA] ++ pre) (map (member_text mid) (kv' :: rest'))).
    rewrite <- !app_assoc. rewrite Hhead.
    rewrite (read_unit_now COMMA _ eq_refl).
    rewrite IH; [reflexivity | discriminate | lia].
Qed.

Lemma length_join_members (sep mid : jsstring)
    (props : list (jsstring * jsstring)) :
  List.length props
  <= List.length (join sep (map (member_text mid) props)).
Proof.
  induction props as [|kv rest IH]; [cbn; lia|].
  assert (H1 : 1 <= List.length (member_text mid kv)).
  { unfold member_text, QuoteJSONString. cbn [app List.length]. lia. }
  destruct rest as [|kv' rest'].
  - cbn [map join List.length]. exact H1.
  - change (join sep (map (member_text mid) (kv :: kv' :: rest')))
      with (member_text mid kv ++ sep
            ++ join sep (map (member_text mid) (kv' :: rest'))).
    rewrite !length_app. cbn [List.length] in *. lia.
Qed.

Lemma read_object_text (pre mid post : jsstring)
    (props : list (jsstring * jsstring)) :
  forallb is_whitespace pre = true ->
  forallb is_whitespace mid = true ->
  forallb is_whitespace post = true ->
  props <> [] ->
  read_object (object_text pre mid post props) = Some props.
Proof.
  intros Hpre Hmid Hpost Hne. unfold read_object, object_text.
  rewrite (read_unit_now 123 _ eq_refl).
  destruct props as [|[k v] rest]; [contradiction|].
  assert (Hno : read_unit 125
                  (pre ++ join ([COMMA] ++ pre)
                            (map (member_text mid) ((k, v) :: rest))
                   ++ post ++ [125%N]) = None).
  { assert (E : exists tail,
               join ([COMMA] ++ pre) (map (member_text mid) ((k, v) :: rest))
               = QUOTE :: tail).
    { destruct rest; cbn [map join]; unfold member_text, QuoteJSONString;
        cbn [app fst]; eexists; reflexivity. }
    destruct E as [tail ->]. cbn [app].
    apply read_unit_other; [exact Hpre | reflexivity | reflexivity]. }
  rewrite Hno.
  apply read_members_text; try assumption.
  rewrite !length_app.
  pose proof (length_join_members ([COMMA] ++ pre) mid ((k, v) :: rest)).
  lia.
Qed.

Lemma JSON_stringify_2_reads_back (props : list (jsstring * jsstring)) :
  read_object (JSON_stringify_2 props) = Some props.
Proof.
  destruct props as [|kv rest]; [reflexivity|].
  change (JSON_stringify_2 (kv :: rest))
    with (object_text [LF; 32%N; 32%N] [32%N] [LF] (kv :: rest)).
  apply read_object_text; try reflexivity. discriminate.
Qed.

Ltac Zify.zify_post_hook ::= idtac.

End ReaderFacts.

Import Reader ReaderFacts.

(** X17: the message of the notification either handler publishes is a
    JSON text that reads back as the object it was written from: the
    subject, the message text built from the file name and the download
    URL, the download URL and the file name exactly as they were passed
    in, whatever code units they hold (quotes, backslashes, line breaks,
    lone surrogates), then the time stamp of the clock value read and, for
    the pre-signed-URL handler, before it the expiry, which is the first
    clock value read plus 300000 milliseconds and is also the expiry the
    message text names. *)
Theorem notification_message_reads_back {SV : Services}
    (env : EnvironmentVariables) (fileName url : jsstring) (st : state) :
  (exists publish,
      trace (snd (PublicUrl.sendNotification env fileName url st))
      = trace st ++ [EvPublish publish] /\
      read_object (Message publish)
      = Some [ (lit "subject", lit "Todo Export Complete");
               (lit "message", notification_text fileName url);
               (lit "downloadUrl", url);
               (lit "fileName", fileName);
               (lit "timestamp", toISOString (fst (clock (world st)))) ]) /\
  (exists publish,
      trace (snd (Presigned.sendNotification env fileName url st))
      = trace st ++ [EvPublish publish] /\
      read_object (Message publish)
      = Some [ (lit "subject", lit "Todo Export Complete");
               (lit "message",
                notification_text_presigned fileName url
                  (toISOString (fst (clock (world st)) + 300000)));
               (lit "downloadUrl", url);
               (lit "fileName", fileName);
               (lit "expiresAt",
                toISOString (fst (clock (world st)) + 300000));
               (lit "timestamp",
                toISOString
                  (fst (clock (snd (clock (world st)))))) ]).
Proof.
  split.
  - unfold PublicUrl.sendNotification, bind, Date_now, call.
    destruct (clock (world st)) as [t w]. cbn [world trace fst].
    eexists. split.
    + destruct (snsClient_send _ w) as [[[]|e] w']; reflexivity.
    + cbn [Message]. unfold notification_text.
      apply JSON_stringify_2_reads_back.
  - unfold Presigned.sendNotification, bind, Date_now, call.
    destruct (clock (world st)) as [t w]. cbn [world trace fst snd].
    destruct (clock w) as [t' w1]. cbn [world trace fst].
    eexists. split.
    + destruct (snsClient_send _ w1) as [[[]|e] w']; reflexivity.
    + cbn [Message]. unfold notification_text_presigned.
      apply JSON_stringify_2_reads_back.
Qed.

Lemma success_body_text (f u : option jsstring) :
  stringify_object
    [ (lit "message", DString (lit "Export completed successfully"));
      (lit "fileName", optional f);
      (lit "downloadUrl", optional u) ]
  = object_text [] [] []
      ((lit "message", lit "Export completed successfully")
       :: present "fileName" f ++ present "downloadUrl" u).
Proof.
  destruct f, u;
    unfold stringify_object, object_text, member_text;
    cbn [SerializeJSONProperty optional present app map fst snd join];
    reflexivity.
Qed.

Lemma failure_body_text (e : option jsstring) :
  stringify_object
    [ (lit "message", DString (lit "Export failed"));
      (lit "error", optional e) ]
  = object_text [] [] []
      ((lit "message", lit "Export failed") :: present "error" e).
Proof.
  destruct e;
    unfold stringify_object, object_text, member_text;
    cbn [SerializeJSONProperty optional present app map fst snd join];
    reflexivity.
Qed.

Lemma batch_body_text :
  stringify_object
    [ (lit "message",
       DString (lit "All SQS messages processed successfully")) ]
  = object_text [] [] []
      [(lit "message", lit "All SQS messages processed successfully")].
Proof.
  unfold stringify_object, object_text, member_text;
  cbn [SerializeJSONProperty optional present app map fst snd join];
  reflexivity.
Qed.

(** X18: whenever the entry point of the pre-signed-URL handler returns a
    response, its body is a JSON text that reads back as an object whose
    first member is the message, and the status code tells which: 200 with
    the batch message alone, 200 with the success message followed by the
    file name and the download URL of a successful outcome (each left out
    when the outcome has none), or 500 with the message Export failed
    followed by the error of a failed outcome. The response for an
    exception escaping the export is never produced. *)
Theorem response_body_reads_back {SV : Services}
    (env : EnvironmentVariables) (fuel : nat) (event : AnyEvent)
    (st st' : state) (response : HandlerResponse) :
  Presigned.handler env fuel event st = (Returned response, st') ->
  (statusCode response = 200%Z /\
   (read_object (body response)
    = Some [(lit "message", lit "All SQS messages processed successfully")]
    \/ exists result,
        success result = true /\
        read_object (body response)
        = Some ((lit "message", lit "Export completed successfully")
                :: present "fileName" (fileName result)
                ++ present "downloadUrl" (downloadUrl result)))) \/
  (statusCode response = 500%Z /\
   exists result,
     success result = false /\
     read_object (body response)
     = Some ((lit "message", lit "Export failed")
             :: present "error" (error result))).
Proof.
  unfold Presigned.handler.
  destruct (not_string (S3_BUCKET_NAME env)); [discriminate|].
  destruct (not_string (SNS_TOPIC_ARN env)); [discriminate|].
  rewrite batch_body_text.
  destruct event as [|[|record rest]].
  3: { unfold bind.
       destruct (Presigned.process_records env fuel (record :: rest) st)
         as [[[]|e|] st1]; cbn [ret]; intros H; try discriminate.
       injection H as <- _. left. split; [reflexivity|]. left.
       cbn [body]. apply read_object_text; try reflexivity. discriminate. }
  all: unfold try_catch, bind;
    pose proof (exportTodoItems_presigned_never_raises env fuel st) as Hex;
    destruct (Presigned.exportTodoItems env fuel st) as [[result|e|] st1];
    cbn [fst] in Hex; [|contradiction|discriminate];
    rewrite success_body_text, failure_body_text;
    destruct (success result) eqn:Hs; cbn [ret]; intros H;
    injection H as <- _;
    [ left; split; [reflexivity|]; right; exists result;
      split; [exact Hs|]; cbn [body];
      apply read_object_text; try reflexivity; discriminate
    | right; split; [reflexivity|]; exists result;
      split; [exact Hs|]; cbn [body];
      apply read_object_text; try reflexivity; discriminate ].
Qed.

Lemma response_body_reads_back_witness :
  let st := Fake.start [] None None in
  let run := Presigned.handler Fake.env 1 AnyOther st in
  let response :=
    {| statusCode := 200;
       body :=
         stringify_object
           [ (lit "message", DString (lit "Export completed successfully"));
             (lit "fileName", DString (lit "empty-export.csv"));
             (lit "downloadUrl", DUndefined) ] |} in
  (statusCode response = 200%Z /\
   (read_object (body response)
    = Some [(lit "message", lit "All SQS messages processed successfully")]
    \/ exists result,
        success result = true /\
        read_object (body response)
        = Some ((lit "message", lit "Export completed successfully")
                :: present "fileName" (fileName result)
                ++ present "downloadUrl" (downloadUrl result)))) \/
  (statusCode response = 500%Z /\
   exists result,
     success result = false /\
     read_object (body response)
     = Some ((lit "message", lit "Export failed")
             :: present "error" (error result))).
Proof.
  intros st run response.
  apply (response_body_reads_back Fake.env 1 AnyOther st (snd run) response).
  vm_compute. reflexivity.
Defined.

(** ** The empty string and the missing field *)

(** X19: a field holding the empty string is encoded as the empty cell,
    as is a null field and a field that is absent under a name the object
    prototype does not define; two different record lists, one with the
    empty string and one without the field, have the same document, so
    the encoding is not injective. *)
Theorem empty_string_cell_not_injective (item item' : TodoItem)
    (header : jsstring) :
  assoc header item = Some (DString []) ->
  assoc header item' = Some DNull \/
  (assoc header item' = None /\ inherited header = false) ->
  PublicUrl.cell item header = [QUOTE; QUOTE] /\
  PublicUrl.cell item' header = PublicUrl.cell item header /\
  items_empty_note <> items_no_note /\
  PublicUrl.convertToCSV items_empty_note
  = PublicUrl.convertToCSV items_no_note.
Proof.
  intros He Ha.
  assert (E : PublicUrl.cell item header = [QUOTE; QUOTE]).
  { unfold PublicUrl.cell, Get. rewrite He. reflexivity. }
  split; [exact E|]. split; [|split].
  - rewrite E. apply cell_empty_value.
    destruct Ha as [H|H]; [left; exact H | right; right; exact H].
  - discriminate.
  - vm_compute. reflexivity.
Qed.

Lemma empty_string_cell_not_injective_witness :
  PublicUrl.cell [ (lit "id", DString (lit "1")); (lit "note", DString []) ]
    (lit "note") = [QUOTE; QUOTE] /\
  PublicUrl.cell [ (lit "id", DString (lit "1")) ] (lit "note")
  = PublicUrl.cell [ (lit "id", DString (lit "1")); (lit "note", DString []) ]
      (lit "note") /\
  items_empty_note <> items_no_note /\
  PublicUrl.convertToCSV items_empty_note
  = PublicUrl.convertToCSV items_no_note.
Proof.
  apply (empty_string_cell_not_injective
           [ (lit "id", DString (lit "1")); (lit "note", DString []) ]
           [ (lit "id", DString (lit "1")) ] (lit "note")).
  - reflexivity.
  - right. split; reflexivity.
Defined.

(** ** The encoder and numbers beyond the safe integers *)

(** X20: the encoder throws exactly when some field of some record holds
    an array or object with a BigInt in it, and what it throws is then the
    TypeError of JSON.stringify; on every other record list it returns a
    document.  A BigInt that is itself the value of a field does no harm:
    its cell is its digits between quotes. *)
Theorem convertToCSV_throws_exactly (items : list Big.BigItem) :
  match Big.convertToCSV items with
  | Throw e =>
      e = Big.cannot_serialize /\
      exists item header d,
        In item items /\ assoc header item = Some d /\
        Big.is_composite d = true /\ Big.holds_bigint d = true
  | Normal doc =>
      forall item header d,
        In item items -> assoc header item = Some d ->
        Big.is_composite d = true -> Big.holds_bigint d = false
  end /\
  (forall (item : Big.BigItem) (header digits : jsstring),
      assoc header item = Some (Big.BBigInt digits) ->
      Big.cell item header
      = Normal ([QUOTE] ++ replace_quotes digits ++ [QUOTE])).
Proof.
  split.
  - destruct (Big.convertToCSV items) as [doc|e] eqn:E.
    + intros item header d Hin Ha Hc.
      destruct (Big.holds_bigint d) eqn:Hb; [exfalso | reflexivity].
      assert (C : Big.cell item header = Throw Big.cannot_serialize).
      { rewrite (cell_composite item header d Ha Hc).
        rewrite (SerializeJSONProperty_throws d Hb). reflexivity. }
      rewrite (convertToCSV_throws items item header Hin
                 (assoc_key header d item Ha) C) in E.
      discriminate.
    + unfold Big.convertToCSV in E.
      destruct (Nat.eqb (List.length items) 0); [discriminate|].
      destruct (Big.push_rows items (Big.headers items) _)
        as [rows|e'] eqn:P; [discriminate|].
      injection E as <-.
      destruct (push_rows_throws_inv _ _ _ _ P) as [item [Hin R]].
      destruct (row_cells_throws_inv _ _ _ R) as [header [_ C]].
      destruct (cell_throws_inv _ _ _ C) as [d [Ha [Hc Hb]]].
      split; [exact (cell_error _ _ _ C)|].
      exists item, header, d. repeat split; assumption.
  - intros item header digits Ha. unfold Big.cell, Big.Get.
    rewrite Ha. reflexivity.
Qed.

(** X21: a record list in which no value holds a BigInt is a list of
    records of plain data, and on it the encoder returns the document that
    convertToCSV of the handlers, as modelled on plain data, computes: the
    theorems about that document are theorems about what the code returns
    on such records. *)
Theorem encoder_agrees_without_bigint (items : list Big.BigItem) :
  Forall (Forall (fun kv => Big.holds_bigint (snd kv) = false)) items ->
  exists items0 : list TodoItem,
    items = map Big.of_item items0 /\
    Big.convertToCSV items = Normal (PublicUrl.convertToCSV items0) /\
    Big.convertToCSV items = Normal (Presigned.convertToCSV items0).
Proof.
  intros H.
  assert (E : exists items0, map Big.of_item items0 = items).
  { induction H as [|item l Hi Hl IHl]; [exists []; reflexivity|].
    destruct (of_item_onto item Hi) as [item0 <-].
    destruct IHl as [l0 <-]. exists (item0 :: l0). reflexivity. }
  destruct E as [items0 <-]. exists items0.
  split; [reflexivity|].
  split; apply convertToCSV_of_item.
Qed.

Lemma encoder_agrees_without_bigint_witness :
  exists items0 : list TodoItem,
    [ [ (lit "id", Big.BString (lit "1"));
        (lit "o", Big.BObject [ (lit "a", Big.BNumber (lit "1")) ]) ] ]
    = map Big.of_item items0 /\
    Big.convertToCSV
      [ [ (lit "id", Big.BString (lit "1"));
          (lit "o", Big.BObject [ (lit "a", Big.BNumber (lit "1")) ]) ] ]
    = Normal (PublicUrl.convertToCSV items0) /\
    Big.convertToCSV
      [ [ (lit "id", Big.BString (lit "1"));
          (lit "o", Big.BObject [ (lit "a", Big.BNumber (lit "1")) ]) ] ]
    = Normal (Presigned.convertToCSV items0).
Proof.
  apply (encoder_agrees_without_bigint
           [ [ (lit "id", Big.BString (lit "1"));
               (lit "o", Big.BObject [ (lit "a", Big.BNumber (lit "1")) ]) ] ]).
  repeat constructor.
Defined.
